(** * Inventory allocation: the analysis pass and the prioritized FEFO allocator

    A shallow embedding of [InventoryAllocationSystem.run_analysis] and
    [InventoryAllocationSystem.run_allocation] of [app/utils/allocation_4.py].

    Modelling conventions.
    - A pandas frame is the list of its rows, in frame order.  The stock
      frame also carries the index label of each row, because the allocator
      writes through [.loc[label, ...]].
    - Integer columns are computed in [Z].  The columns of the program are
      int64, whose sums wrap around, and the stock totals pass through a
      float64 column when the left merge leaves missing values, which is
      exact up to 2^53.  The definitions give the values of the program
      where [fits_int64] and [float64_exact] hold of the sums; a theorem
      that states the exact value of a sum takes them as hypotheses.
    - A timestamp is an integer number of nanoseconds, timezone-naive as
      [datetime.now()], which is the parameter [today] of [run_allocation].
      [today + timedelta(days=...)] is computed in [Z]; the program raises
      OverflowError where the date leaves the range of [dates_in_range],
      which the theorems on when [run_allocation] returns and when it
      raises take as a hypothesis.  The other theorems state what
      the program does within these ranges.
    - The frames held by the attributes of [self], and the local frames that
      [run_allocation] derives from them and then mutates, live in an object
      store and are reached through references.  A Python exception is the
      result [None].

    Further parts embed the constructor, the loops of [load_and_clean_data]
    that map the columns, the data that [get_analysis_charts] and
    [get_allocation_charts] hand to the figures, and the session logic of
    the script [app/main_4.py].  There a sort on several columns and
    [nlargest] keep equal rows in frame order, as pandas does. *)

From Stdlib Require Import ZArith List Bool Lia String Sorted Permutation.
Import ListNotations.
Local Open Scope Z_scope.

(* ------------------------------------------------------------------ *)
(** ** Data model *)

Module Forecast.
Record row := mk
  { product_id : Z; branch_id : Z; channel_id : Z; forecast_quantity : Z }.
End Forecast.

Module Stock.
Record row := mk
  { product_id : Z; branch_id : Z; stock_available : Z; expiry_date : Z }.

Definition set_stock_available (v : Z) (r : row) : row :=
  mk (product_id r) (branch_id r) v (expiry_date r).
End Stock.

Module Analysis.
Record row := mk
  { product_id : Z; branch_id : Z; channel_id : Z; forecast_quantity : Z;
    total_stock_available : Z; total_forecast_at_branch : Z;
    branch_net_need : Z; allocation_status : string }.
End Analysis.

(** A row of [demand_df]: an analysis row and the two rank columns, which
    are absent until they are assigned. *)
Module Demand.
Record row := mk
  { line : Analysis.row;
    priority_rank_channel : option Z;
    priority_rank_branch : option Z }.

Definition of_analysis (r : Analysis.row) : row := mk r None None.
End Demand.

(** The dictionaries appended to [allocation_plan]. *)
Module Alloc.
Record row := mk
  { product_id : Z; from_branch : Z; to_branch : Z; channel_id : Z;
    quantity_allocated : Z; expiry_date : Z }.
End Alloc.

(** The dictionaries appended to [unfulfilled_demands]. *)
Module Unfulfilled.
Record row := mk
  { product_id : Z; branch_id : Z; needed : Z; fulfilled : Z; unfulfilled : Z }.
End Unfulfilled.

(** Keys of the group-by and merge operations. *)
Definition key2 : Type := Z * Z.
Definition key3 : Type := Z * Z * Z.

Definition key2_eqb (a b : key2) : bool :=
  (fst a =? fst b) && (snd a =? snd b).

Definition key2_leb (a b : key2) : bool :=
  (fst a <? fst b) || ((fst a =? fst b) && (snd a <=? snd b)).

Definition key3_leb (a b : key3) : bool :=
  negb (key2_leb (fst b) (fst a))
  || (key2_eqb (fst a) (fst b) && (snd a <=? snd b)).

Definition key2_eq_dec (a b : key2) : {a = b} + {a <> b}.
Proof. decide equality; apply Z.eq_dec. Defined.

Definition key3_eq_dec (a b : key3) : {a = b} + {a <> b}.
Proof. decide equality; [apply Z.eq_dec | apply key2_eq_dec]. Defined.

(* ------------------------------------------------------------------ *)
(** ** Frame operations *)

(** [sort_values]: a stable sort of the rows by a total pre-order given as a
    boolean comparison (pandas sorts on several columns with a stable
    lexicographic sort). *)
Section SortValues.
Context {A : Type} (leb : A -> A -> bool).

Fixpoint insert_sorted (x : A) (l : list A) : list A :=
  match l with
  | [] => [x]
  | y :: l' => if leb x y then x :: l else y :: insert_sorted x l'
  end.

Fixpoint sort_values (l : list A) : list A :=
  match l with
  | [] => []
  | x :: l' => insert_sorted x (sort_values l')
  end.
End SortValues.

(** [df.groupby(keys)[col]]: one group per distinct key, in ascending key
    order, each with the values of its rows in frame order. *)
Section GroupBy.
Context {K : Type} (K_eq_dec : forall a b : K, {a = b} + {a <> b})
        (K_leb : K -> K -> bool).

Definition key_is (k : K) (kv : K * Z) : bool :=
  if K_eq_dec (fst kv) k then true else false.

Definition group_keys (rows : list (K * Z)) : list K :=
  sort_values K_leb (nodup K_eq_dec (map fst rows)).

Definition group_values (k : K) (rows : list (K * Z)) : list Z :=
  map snd (filter (key_is k) rows).

Definition groupby (rows : list (K * Z)) : list (K * list Z) :=
  map (fun k => (k, group_values k rows)) (group_keys rows).

(** [.sum()], computed in [Z]: what the int64 sum of the program stores
    where the sum is [fits_int64]. *)
Definition groupby_sum (rows : list (K * Z)) : list (K * Z) :=
  map (fun g => (fst g, fold_right Z.add 0 (snd g))) (groupby rows).

(** [.first()]; a group is never empty, so the default is not reached. *)
Definition groupby_first (rows : list (K * Z)) : list (K * Z) :=
  map (fun g => (fst g, hd 0 (snd g))) (groupby rows).
End GroupBy.

(** Rows of a keyed frame that match a key (the join condition of a merge). *)
Definition matching {V : Type} (k : key2) (right : list (key2 * V))
  : list (key2 * V) :=
  filter (fun kv => key2_eqb (fst kv) k) right.

(** Left merge on (product_id, branch_id): a left row without a match is
    kept, with a missing value. *)
Definition merge_left (left : list (key3 * Z)) (right : list (key2 * Z))
  : list (key3 * Z * option Z) :=
  flat_map (fun l =>
    match matching (fst (fst l)) right with
    | [] => [(l, None)]
    | ms => map (fun m => (l, Some (snd m))) ms
    end) left.

(** Inner merge on (product_id, branch_id). *)
Definition merge_inner (left : list (key3 * Z * Z)) (right : list (key2 * Z))
  : list (key3 * Z * Z * Z) :=
  flat_map (fun l =>
    map (fun m => (l, snd m)) (matching (fst (fst (fst l))) right)) left.

Definition fillna (d : Z) (v : option Z) : Z :=
  match v with Some x => x | None => d end.

(** A Python dict, in insertion order. *)
Section Dict.
Context {K : Type} (K_eqb : K -> K -> bool).

(** [d.get(k, default)] *)
Fixpoint dict_get (d : list (K * Z)) (k : K) (default : Z) : Z :=
  match d with
  | [] => default
  | (k', v) :: d' => if K_eqb k' k then v else dict_get d' k default
  end.

(** [d[k] -= x], a KeyError when [k] is not a key of [d]. *)
Fixpoint dict_sub (d : list (K * Z)) (k : K) (x : Z) : option (list (K * Z)) :=
  match d with
  | [] => None
  | (k', v) :: d' =>
      if K_eqb k' k then Some ((k', v - x) :: d')
      else option_map (cons (k', v)) (dict_sub d' k x)
  end.
End Dict.

(* ------------------------------------------------------------------ *)
(** ** [run_analysis]: the frames it builds (lines 79-100) *)

Definition ALLOCATION_NEEDED : string := "Allocation Needed"%string.
Definition NO_ALLOCATION_NEEDED : string := "No Allocation Needed"%string.
Definition OVERSTOCK : string := "Overstock"%string.

(** The lambda applied to the [branch_net_need] column. *)
Definition status_of (x : Z) : string :=
  if 0 <? x then ALLOCATION_NEEDED
  else if x =? 0 then NO_ALLOCATION_NEEDED else OVERSTOCK.

Definition stock_key (s : Z * Stock.row) : key2 :=
  (Stock.product_id (snd s), Stock.branch_id (snd s)).

Definition forecast_key (f : Forecast.row) : key3 :=
  (Forecast.product_id f, Forecast.branch_id f, Forecast.channel_id f).

(** 1. destination branch stock (the central warehouse excluded) *)
Definition destination_stock (cw : Z) (stock : list (Z * Stock.row))
  : list (Z * Stock.row) :=
  filter (fun s => negb (Stock.branch_id (snd s) =? cw)) stock.

Definition agg_branch_stock (cw : Z) (stock : list (Z * Stock.row))
  : list (key2 * Z) :=
  groupby_sum key2_eq_dec key2_leb
    (map (fun s => (stock_key s, Stock.stock_available (snd s)))
         (destination_stock cw stock)).

(** 2. aggregated forecast *)
Definition agg_forecast (forecast : list Forecast.row) : list (key3 * Z) :=
  groupby_sum key3_eq_dec key3_leb
    (map (fun f => (forecast_key f, Forecast.forecast_quantity f)) forecast).

(** 3. left merge, [fillna(0).astype(int)]; the float64 column in between
    keeps the totals that are [float64_exact]. *)
Definition merged_stock (cw : Z) (forecast : list Forecast.row)
    (stock : list (Z * Stock.row)) : list (key3 * Z * Z) :=
  map (fun r => (fst r, fillna 0 (snd r)))
      (merge_left (agg_forecast forecast) (agg_branch_stock cw stock)).

Definition branch_total_forecast (merged : list (key3 * Z * Z))
  : list (key2 * Z) :=
  groupby_sum key2_eq_dec key2_leb
    (map (fun r => (fst (fst (fst r)), snd (fst r))) merged).

(** 4. net need and status of one row of the second merge *)
Definition analysis_row (r : key3 * Z * Z * Z) : Analysis.row :=
  let '(p, b, c, q, tsa, tfab) := r in
  let need := tfab - tsa in
  Analysis.mk p b c q tsa tfab need (status_of need).

Definition analysis_table (cw : Z) (forecast : list Forecast.row)
    (stock : list (Z * Stock.row)) : list Analysis.row :=
  let merged := merged_stock cw forecast stock in
  map analysis_row (merge_inner merged (branch_total_forecast merged)).

(* ------------------------------------------------------------------ *)
(** ** The object store *)

Inductive DataFrame : Type :=
| ForecastDF (rows : list Forecast.row)
| StockDF (rows : list (Z * Stock.row))
| AnalysisDF (rows : list Analysis.row)
| DemandDF (rows : list Demand.row)
| PlanDF (rows : list Alloc.row)
| UnfulfilledDF (rows : list Unfulfilled.row).

Definition ref : Type := nat.
Definition Store : Type := list DataFrame.

(** The attributes of the object; [None] is Python's [None]. *)
Record InventoryAllocationSystem := mkSystem
  { cw_branch_id : Z;
    forecast_df : option ref;
    stock_df : option ref;
    analysis_df : option ref;
    allocation_plan_df : option ref;
    unfulfilled_demands_df : option ref;
    remaining_cw_stock_df : option ref }.

(** Computations on the store that may raise. *)
Definition M (A : Type) : Type := Store -> option (A * Store).

Definition ret {A : Type} (a : A) : M A := fun h => Some (a, h).

Definition bind {A B : Type} (m : M A) (f : A -> M B) : M B :=
  fun h => match m h with Some (a, h') => f a h' | None => None end.

Definition raise {A : Type} : M A := fun _ => None.

Definition lift {A : Type} (o : option A) : M A :=
  fun h => match o with Some a => Some (a, h) | None => None end.

Notation "x <- m ;; k" := (bind m (fun x => k))
  (at level 61, m at next level, right associativity).
Notation "' p <- m ;; k" := (bind m (fun x => match x with p => k end))
  (at level 61, p pattern, m at next level, right associativity).
Notation "m ;;; k" := (bind m (fun _ => k))
  (at level 61, right associativity).

Fixpoint store_set (r : ref) (df : DataFrame) (h : Store) : Store :=
  match h, r with
  | [], _ => []
  | _ :: h', O => df :: h'
  | x :: h', S r' => x :: store_set r' df h'
  end.

(** A new frame object. *)
Definition new_frame (df : DataFrame) : M ref :=
  fun h => Some (List.length h, h ++ [df]).

Definition read (r : ref) : M DataFrame :=
  fun h => match nth_error h r with Some df => Some (df, h) | None => None end.

(** In-place update of a frame object. *)
Definition write (r : ref) (df : DataFrame) : M unit :=
  fun h => match nth_error h r with
           | Some _ => Some (tt, store_set r df h)
           | None => None
           end.

(** An attribute that must hold a frame. *)
Definition attr (a : option ref) : M ref := lift a.

Definition read_forecast (r : ref) : M (list Forecast.row) :=
  df <- read r ;; match df with ForecastDF rows => ret rows | _ => raise end.

Definition read_stock (r : ref) : M (list (Z * Stock.row)) :=
  df <- read r ;; match df with StockDF rows => ret rows | _ => raise end.

Definition read_analysis (r : ref) : M (list Analysis.row) :=
  df <- read r ;; match df with AnalysisDF rows => ret rows | _ => raise end.

Definition read_demand (r : ref) : M (list Demand.row) :=
  df <- read r ;; match df with DemandDF rows => ret rows | _ => raise end.

(* ------------------------------------------------------------------ *)
(** ** [run_analysis] *)

Definition set_analysis_df (self : InventoryAllocationSystem) (r : ref)
  : InventoryAllocationSystem :=
  mkSystem (cw_branch_id self) (forecast_df self) (stock_df self) (Some r)
           (allocation_plan_df self) (unfulfilled_demands_df self)
           (remaining_cw_stock_df self).

(** Every frame the method builds is a fresh local one; only the last is
    kept, in [self.analysis_df]. *)
Definition run_analysis (self : InventoryAllocationSystem)
  : M InventoryAllocationSystem :=
  s <- attr (stock_df self) ;;
  stock <- read_stock s ;;
  f <- attr (forecast_df self) ;;
  forecast <- read_forecast f ;;
  a <- new_frame (AnalysisDF (analysis_table (cw_branch_id self) forecast stock)) ;;
  ret (set_analysis_df self a).

(* ------------------------------------------------------------------ *)
(** ** [run_allocation] *)

(** [1 if x in priority else 2] *)
Definition priority_rank (priority : list Z) (x : Z) : Z :=
  if existsb (Z.eqb x) priority then 1 else 2.

Definition demand_key (d : Demand.row) : key2 :=
  (Analysis.product_id (Demand.line d), Analysis.branch_id (Demand.line d)).

Definition rank_value (o : option Z) : Z :=
  match o with Some v => v | None => 0 end.

Definition rank_key (d : Demand.row) : key2 :=
  (rank_value (Demand.priority_rank_channel d),
   rank_value (Demand.priority_rank_branch d)).

(** Order of [sort_values(by=[priority_rank_channel, priority_rank_branch,
    forecast_quantity], ascending=[True, True, False])]. *)
Definition demand_leb (a b : Demand.row) : bool :=
  negb (key2_leb (rank_key b) (rank_key a))
  || (key2_eqb (rank_key a) (rank_key b)
      && (Analysis.forecast_quantity (Demand.line b)
          <=? Analysis.forecast_quantity (Demand.line a))).

Definition has_ranks (d : Demand.row) : bool :=
  match Demand.priority_rank_channel d, Demand.priority_rank_branch d with
  | Some _, Some _ => true
  | _, _ => false
  end.

(** Sorting on a column the frame does not have is a KeyError. *)
Definition sort_by_priority (rows : list Demand.row) : option (list Demand.row) :=
  if forallb has_ranks rows then Some (sort_values demand_leb rows) else None.

(** Order of [sort_values(by=[product_id, expiry_date])]. *)
Definition stock_leb (a b : Z * Stock.row) : bool :=
  key2_leb (Stock.product_id (snd a), Stock.expiry_date (snd a))
           (Stock.product_id (snd b), Stock.expiry_date (snd b)).

Definition NS_PER_DAY : Z := 86400000000000.

(** [timedelta(days=d)] *)
Definition timedelta (days : Z) : Z := days * NS_PER_DAY.

(** [demand_df[col] = demand_df[...].apply(f)]: the column is written into
    the frame object itself. *)
Definition assign_column (df : ref) (f : Demand.row -> Demand.row) : M unit :=
  rows <- read_demand df ;; write df (DemandDF (map f rows)).

Definition set_rank_channel (priority_channels : list Z) (d : Demand.row)
  : Demand.row :=
  Demand.mk (Demand.line d)
    (Some (priority_rank priority_channels (Analysis.channel_id (Demand.line d))))
    (Demand.priority_rank_branch d).

Definition set_rank_branch (priority_branches : list Z) (d : Demand.row)
  : Demand.row :=
  Demand.mk (Demand.line d) (Demand.priority_rank_channel d)
    (Some (priority_rank priority_branches (Analysis.branch_id (Demand.line d)))).

(** The rows of the stock frame after
    [frame.loc[batch_idx, 'stock_available'] -= take]. *)
Definition loc_sub_rows (batch_idx take : Z) (rows : list (Z * Stock.row))
  : list (Z * Stock.row) :=
  map (fun r =>
         if fst r =? batch_idx
         then (fst r, Stock.set_stock_available
                        (Stock.stock_available (snd r) - take) (snd r))
         else r) rows.

(** An unknown label is a KeyError. *)
Definition loc_sub (cw_stock_sorted : ref) (batch_idx take : Z) : M unit :=
  rows <- read_stock cw_stock_sorted ;;
  if existsb (fun r => fst r =? batch_idx) rows
  then write cw_stock_sorted (StockDF (loc_sub_rows batch_idx take rows))
  else raise.

(** One appended allocation record, with the label of the batch it was drawn
    from (the label is not part of the record; it is kept to state the
    conservation of stock). *)
Record Draw := mkDraw { batch_idx : Z; record : Alloc.row }.

Definition draw_of (cw : Z) (demand_row : Demand.row) (batch : Z * Stock.row)
    (take : Z) : Draw :=
  let r := Demand.line demand_row in
  mkDraw (fst batch)
    (Alloc.mk (Analysis.product_id r) cw (Analysis.branch_id r)
              (Analysis.channel_id r) take (Stock.expiry_date (snd batch))).

(** The loop over [available_batches] (lines 149-162); [batches] is the
    snapshot taken before the loop, the writes go to [cw_stock_sorted]. *)
Fixpoint fefo_loop (cw : Z) (cw_stock_sorted : ref) (demand_row : Demand.row)
    (qty_to_fulfill_for_channel : Z) (batches : list (Z * Stock.row))
    (fulfilled_for_channel : Z) : M (Z * list Draw) :=
  match batches with
  | [] => ret (fulfilled_for_channel, [])
  | batch :: rest =>
      if Stock.stock_available (snd batch) =? 0
      then fefo_loop cw cw_stock_sorted demand_row qty_to_fulfill_for_channel
                     rest fulfilled_for_channel
      else
        let take := Z.min (qty_to_fulfill_for_channel - fulfilled_for_channel)
                          (Stock.stock_available (snd batch)) in
        let d := draw_of cw demand_row batch take in
        loc_sub cw_stock_sorted (fst batch) take ;;;
        let fulfilled := fulfilled_for_channel + take in
        if fulfilled =? qty_to_fulfill_for_channel
        then ret (fulfilled, [d])
        else
          ' (f, ds) <- fefo_loop cw cw_stock_sorted demand_row
                                 qty_to_fulfill_for_channel rest fulfilled ;;
          ret (f, d :: ds)
  end.

(** The batches a channel may draw from (lines 141-144). *)
Definition eligible (prod_id required_expiry_date : Z) (b : Z * Stock.row) : bool :=
  (Stock.product_id (snd b) =? prod_id)
  && (required_expiry_date <=? Stock.expiry_date (snd b)).

(** Lines 138-139, computed in [Z]: the date of the program within
    [dates_in_range]; beyond it the program raises OverflowError. *)
Definition required_expiry (today : Z) (expiry_rules : list (Z * Z))
    (channel_id : Z) : Z :=
  today + timedelta (dict_get Z.eqb expiry_rules channel_id 0).

(** The body of the loop over the demand lines (lines 125-164): the new
    tracker and the records appended for this line. *)
Definition process_demand_row (cw today : Z) (expiry_rules : list (Z * Z))
    (cw_stock_sorted : ref) (demand_row : Demand.row)
    (branch_need_tracker : list (key2 * Z)) : M (list (key2 * Z) * list Draw) :=
  let r := Demand.line demand_row in
  let prod_id := Analysis.product_id r in
  let forecast_qty := Analysis.forecast_quantity r in
  let branch_key := demand_key demand_row in
  let remaining_branch_need := dict_get key2_eqb branch_need_tracker branch_key 0 in
  if remaining_branch_need <=? 0 then ret (branch_need_tracker, [])
  else
    let qty_to_fulfill_for_channel := Z.min forecast_qty remaining_branch_need in
    let required_expiry_date :=
      required_expiry today expiry_rules (Analysis.channel_id r) in
    rows <- read_stock cw_stock_sorted ;;
    let available_batches := filter (eligible prod_id required_expiry_date) rows in
    match available_batches with
    | [] => ret (branch_need_tracker, [])
    | _ :: _ =>
        ' (fulfilled_for_channel, draws) <-
            fefo_loop cw cw_stock_sorted demand_row qty_to_fulfill_for_channel
                      available_batches 0 ;;
        tracker <- lift (dict_sub key2_eqb branch_need_tracker branch_key
                                  fulfilled_for_channel) ;;
        ret (tracker, draws)
    end.

(** The loop over [prioritized_demand_df]: the final tracker and, per demand
    line in processing order, the records appended for it. *)
Fixpoint demand_loop (cw today : Z) (expiry_rules : list (Z * Z))
    (cw_stock_sorted : ref) (lines : list Demand.row)
    (branch_need_tracker : list (key2 * Z))
  : M (list (key2 * Z) * list (Demand.row * list Draw)) :=
  match lines with
  | [] => ret (branch_need_tracker, [])
  | demand_row :: rest =>
      ' (tracker, draws) <- process_demand_row cw today expiry_rules
                              cw_stock_sorted demand_row branch_need_tracker ;;
      ' (final, log) <- demand_loop cw today expiry_rules cw_stock_sorted
                                    rest tracker ;;
      ret (final, (demand_row, draws) :: log)
  end.

(** [frame[...]['branch_net_need'].iloc[0]], an IndexError on no row. *)
Definition iloc0 (col : list Z) : option Z := hd_error col.

Definition branch_rows (k : key2) (analysis : list Analysis.row)
  : list Analysis.row :=
  filter (fun r => (Analysis.product_id r =? fst k)
                   && (Analysis.branch_id r =? snd k)) analysis.

(** The loop over [branch_need_tracker.items()] (lines 167-173). *)
Fixpoint unfulfilled_loop (analysis_df : option ref) (items : list (key2 * Z))
  : M (list Unfulfilled.row) :=
  match items with
  | [] => ret []
  | (k, remaining_need) :: rest =>
      if 0 <? remaining_need then
        a <- attr analysis_df ;;
        analysis <- read_analysis a ;;
        total_initial_need <-
          lift (iloc0 (map Analysis.branch_net_need (branch_rows k analysis))) ;;
        rows <- unfulfilled_loop analysis_df rest ;;
        ret (Unfulfilled.mk (fst k) (snd k) total_initial_need
               (total_initial_need - remaining_need) remaining_need :: rows)
      else unfulfilled_loop analysis_df rest
  end.

Definition allocation_needed (r : Analysis.row) : bool :=
  String.eqb (Analysis.allocation_status r) ALLOCATION_NEEDED.

Definition set_allocation_results (self : InventoryAllocationSystem)
    (plan unfulfilled remaining : ref) : InventoryAllocationSystem :=
  mkSystem (cw_branch_id self) (forecast_df self) (stock_df self)
           (analysis_df self) (Some plan) (Some unfulfilled) (Some remaining).

(** What a run went through: the demand lines in processing order, each with
    the records appended for it, and the tracker after the last line. *)
Record AllocationTrace := mkTrace
  { processed : list (Demand.row * list Draw);
    branch_need_tracker : list (key2 * Z) }.

Definition all_draws (t : AllocationTrace) : list Draw :=
  List.concat (map snd (processed t)).

Definition run_allocation (priority_channels priority_branches : list Z)
    (expiry_rules : list (Z * Z)) (today : Z)
    (self : InventoryAllocationSystem)
  : M (InventoryAllocationSystem * AllocationTrace) :=
  let cw := cw_branch_id self in
  a <- attr (analysis_df self) ;;
  analysis <- read_analysis a ;;
  demand_df <- new_frame (DemandDF (map Demand.of_analysis
                                        (filter allocation_needed analysis))) ;;
  assign_column demand_df (set_rank_channel priority_channels) ;;;
  assign_column demand_df (set_rank_branch priority_branches) ;;;
  demand_rows <- read_demand demand_df ;;
  prioritized_demand_df <- lift (sort_by_priority demand_rows) ;;
  s <- attr (stock_df self) ;;
  stock <- read_stock s ;;
  cw_stock_sorted <-
    new_frame (StockDF (sort_values stock_leb
                 (filter (fun b => Stock.branch_id (snd b) =? cw) stock))) ;;
  demand_rows <- read_demand demand_df ;;
  let tracker :=
    groupby_first key2_eq_dec key2_leb
      (map (fun d => (demand_key d, Analysis.branch_net_need (Demand.line d)))
           demand_rows) in
  ' (tracker, log) <- demand_loop cw today expiry_rules cw_stock_sorted
                                  prioritized_demand_df tracker ;;
  unfulfilled_demands <- unfulfilled_loop (analysis_df self) tracker ;;
  let trace := mkTrace log tracker in
  plan <- new_frame (PlanDF (map record (all_draws trace))) ;;
  unfulfilled <- new_frame (UnfulfilledDF unfulfilled_demands) ;;
  rows <- read_stock cw_stock_sorted ;;
  remaining <- new_frame (StockDF (filter (fun b => 0 <? Stock.stock_available (snd b)) rows)) ;;
  ret (set_allocation_results self plan unfulfilled remaining, trace).

(* ------------------------------------------------------------------ *)
(** ** What the attributes of the object hold *)

Definition frame_at (a : option ref) (h : Store) : option DataFrame :=
  match a with Some r => nth_error h r | None => None end.

Definition forecast_of (self : InventoryAllocationSystem) (h : Store)
  : option (list Forecast.row) :=
  match frame_at (forecast_df self) h with
  | Some (ForecastDF rows) => Some rows
  | _ => None
  end.

Definition stock_of (self : InventoryAllocationSystem) (h : Store)
  : option (list (Z * Stock.row)) :=
  match frame_at (stock_df self) h with
  | Some (StockDF rows) => Some rows
  | _ => None
  end.

Definition analysis_of (self : InventoryAllocationSystem) (h : Store)
  : option (list Analysis.row) :=
  match frame_at (analysis_df self) h with
  | Some (AnalysisDF rows) => Some rows
  | _ => None
  end.

Definition plan_of (self : InventoryAllocationSystem) (h : Store)
  : option (list Alloc.row) :=
  match frame_at (allocation_plan_df self) h with
  | Some (PlanDF rows) => Some rows
  | _ => None
  end.

Definition unfulfilled_of (self : InventoryAllocationSystem) (h : Store)
  : option (list Unfulfilled.row) :=
  match frame_at (unfulfilled_demands_df self) h with
  | Some (UnfulfilledDF rows) => Some rows
  | _ => None
  end.

Definition remaining_of (self : InventoryAllocationSystem) (h : Store)
  : option (list (Z * Stock.row)) :=
  match frame_at (remaining_cw_stock_df self) h with
  | Some (StockDF rows) => Some rows
  | _ => None
  end.

(* ------------------------------------------------------------------ *)
(** ** A functional reading of the allocation loops

    The loops of [run_allocation] only touch the frame [cw_stock_sorted].
    The functions below compute what the loops return from the rows of that
    frame; [apply_draws] gives the rows the frame holds afterwards. *)

Definition total (l : list Z) : Z := fold_right Z.add 0 l.

(** The value a merge finds for a key in a frame with one row per key. *)
Definition lookup2 (k : key2) (right : list (key2 * Z)) : option Z :=
  option_map snd (hd_error (matching k right)).

Definition taken (d : Draw) : Z := Alloc.quantity_allocated (record d).

Fixpoint fefo_draws (cw : Z) (demand_row : Demand.row) (qty : Z)
    (batches : list (Z * Stock.row)) (fulfilled : Z) : Z * list Draw :=
  match batches with
  | [] => (fulfilled, [])
  | batch :: rest =>
      if Stock.stock_available (snd batch) =? 0
      then fefo_draws cw demand_row qty rest fulfilled
      else
        let take := Z.min (qty - fulfilled) (Stock.stock_available (snd batch)) in
        let d := draw_of cw demand_row batch take in
        if fulfilled + take =? qty then (fulfilled + take, [d])
        else (fst (fefo_draws cw demand_row qty rest (fulfilled + take)),
              d :: snd (fefo_draws cw demand_row qty rest (fulfilled + take)))
  end.

Definition apply_draws (draws : list Draw) (rows : list (Z * Stock.row))
  : list (Z * Stock.row) :=
  fold_left (fun rows d => loc_sub_rows (batch_idx d) (taken d) rows) draws rows.

Definition process_line (cw today : Z) (expiry_rules : list (Z * Z))
    (rows : list (Z * Stock.row)) (demand_row : Demand.row)
    (tracker : list (key2 * Z)) : option (list (key2 * Z) * list Draw) :=
  let r := Demand.line demand_row in
  let remaining := dict_get key2_eqb tracker (demand_key demand_row) 0 in
  if remaining <=? 0 then Some (tracker, [])
  else
    let qty := Z.min (Analysis.forecast_quantity r) remaining in
    let available :=
      filter (eligible (Analysis.product_id r)
                (required_expiry today expiry_rules (Analysis.channel_id r)))
             rows in
    match available with
    | [] => Some (tracker, [])
    | _ :: _ =>
        let res := fefo_draws cw demand_row qty available 0 in
        option_map (fun t => (t, snd res))
          (dict_sub key2_eqb tracker (demand_key demand_row) (fst res))
    end.

Fixpoint run_lines (cw today : Z) (expiry_rules : list (Z * Z))
    (rows : list (Z * Stock.row)) (lines : list Demand.row)
    (tracker : list (key2 * Z))
  : option (list (key2 * Z) * list (Demand.row * list Draw)) :=
  match lines with
  | [] => Some (tracker, [])
  | demand_row :: rest =>
      match process_line cw today expiry_rules rows demand_row tracker with
      | None => None
      | Some (t, ds) =>
          match run_lines cw today expiry_rules (apply_draws ds rows) rest t with
          | None => None
          | Some (final, log) => Some (final, (demand_row, ds) :: log)
          end
      end
  end.

Fixpoint unfulfilled_rows (analysis : list Analysis.row)
    (items : list (key2 * Z)) : option (list Unfulfilled.row) :=
  match items with
  | [] => Some []
  | (k, remaining_need) :: rest =>
      if 0 <? remaining_need then
        match iloc0 (map Analysis.branch_net_need (branch_rows k analysis)),
              unfulfilled_rows analysis rest with
        | Some need, Some rows =>
            Some (Unfulfilled.mk (fst k) (snd k) need (need - remaining_need)
                                 remaining_need :: rows)
        | _, _ => None
        end
      else unfulfilled_rows analysis rest
  end.

(** The frames and values of a run, from the rows of the two frames read. *)
Definition demand_rows_of (priority_channels priority_branches : list Z)
    (analysis : list Analysis.row) : list Demand.row :=
  map (set_rank_branch priority_branches)
    (map (set_rank_channel priority_channels)
       (map Demand.of_analysis (filter allocation_needed analysis))).

Definition cw_rows_of (cw : Z) (stock : list (Z * Stock.row))
  : list (Z * Stock.row) :=
  sort_values stock_leb (filter (fun b => Stock.branch_id (snd b) =? cw) stock).

Definition tracker_of (demand : list Demand.row) : list (key2 * Z) :=
  groupby_first key2_eq_dec key2_leb
    (map (fun d => (demand_key d, Analysis.branch_net_need (Demand.line d)))
         demand).

Definition positive_stock (rows : list (Z * Stock.row)) : list (Z * Stock.row) :=
  filter (fun b => 0 <? Stock.stock_available (snd b)) rows.

(** What a run computes from the rows of the analysis and stock frames. *)
Definition allocate (priority_channels priority_branches : list Z)
    (expiry_rules : list (Z * Z)) (today cw : Z)
    (analysis : list Analysis.row) (stock : list (Z * Stock.row))
  : option (AllocationTrace * list Unfulfilled.row) :=
  let demand := demand_rows_of priority_channels priority_branches analysis in
  match run_lines cw today expiry_rules (cw_rows_of cw stock)
                  (sort_values demand_leb demand) (tracker_of demand) with
  | None => None
  | Some (tracker, log) =>
      match unfulfilled_rows analysis tracker with
      | None => None
      | Some unfulfilled => Some (mkTrace log tracker, unfulfilled)
      end
  end.

(** The rows of [cw_stock_sorted] when the run ends. *)
Definition cw_rows_after (cw : Z) (stock : list (Z * Stock.row))
    (t : AllocationTrace) : list (Z * Stock.row) :=
  apply_draws (all_draws t) (cw_rows_of cw stock).

(* ------------------------------------------------------------------ *)
(** ** The quantities and properties the theorems state *)

(** The sum of the destination stock of a branch, the central warehouse
    excluded. *)
Definition destination_stock_total (cw : Z) (stock : list (Z * Stock.row))
    (k : key2) : Z :=
  total (map (fun s => Stock.stock_available (snd s))
             (filter (fun s => negb (Stock.branch_id (snd s) =? cw)
                               && key2_eqb (stock_key s) k) stock)).

(** The quantity drawn from the batch labelled [l]. *)
Definition drawn_from (l : Z) (draws : list Draw) : Z :=
  total (map taken (filter (fun d => batch_idx d =? l) draws)).

(** The sum allocated to a branch in a list of records. *)
Definition allocated_to (k : key2) (plan : list Alloc.row) : Z :=
  total (map Alloc.quantity_allocated
           (filter (fun a => (Alloc.product_id a =? fst k)
                             && (Alloc.to_branch a =? snd k)) plan)).

(** What the records of one line carry. *)
Definition line_records (cw today : Z) (rules : list (Z * Z))
    (row : Demand.row) (ds : list Draw) : Prop :=
  forall d, In d ds ->
    Alloc.product_id (record d) = Analysis.product_id (Demand.line row) /\
    Alloc.from_branch (record d) = cw /\
    Alloc.to_branch (record d) = Analysis.branch_id (Demand.line row) /\
    Alloc.channel_id (record d) = Analysis.channel_id (Demand.line row) /\
    required_expiry today rules (Analysis.channel_id (Demand.line row))
      <= Alloc.expiry_date (record d).

Definition fefo_key (b : Z * Stock.row) : key2 :=
  (Stock.product_id (snd b), Stock.expiry_date (snd b)).

Definition fefo_sorted (rows : list (Z * Stock.row)) : Prop :=
  StronglySorted (fun a b => key2_leb a b = true) (map fefo_key rows).

(** The order of the sort: ascending channel rank, then ascending branch
    rank, then descending forecast quantity. *)
Definition priority_order (priority_channels priority_branches : list Z)
    (a b : Analysis.row) : Prop :=
  let ca := priority_rank priority_channels (Analysis.channel_id a) in
  let cb := priority_rank priority_channels (Analysis.channel_id b) in
  let ba := priority_rank priority_branches (Analysis.branch_id a) in
  let bb := priority_rank priority_branches (Analysis.branch_id b) in
  ca < cb \/
  (ca = cb /\
   (ba < bb \/
    (ba = bb /\ Analysis.forecast_quantity b <= Analysis.forecast_quantity a))).

(** The two facts about an analysis table that the allocator relies on; the
    table stored by [run_analysis] has both. *)
Definition well_formed_analysis (analysis : list Analysis.row) : Prop :=
  (forall r1 r2, In r1 analysis -> In r2 analysis ->
     Analysis.product_id r1 = Analysis.product_id r2 ->
     Analysis.branch_id r1 = Analysis.branch_id r2 ->
     Analysis.branch_net_need r1 = Analysis.branch_net_need r2) /\
  (forall r, In r analysis -> allocation_needed r = true ->
     0 < Analysis.branch_net_need r).

(** What conservation of the need of a branch says of the outputs of a run:
    [plan] and [unf] are the allocation plan and the unfulfilled demands,
    [tracker] is the tracker after the last demand line. *)
Definition branch_need_conserved (analysis : list Analysis.row)
    (plan : list Alloc.row) (unf : list Unfulfilled.row)
    (tracker : list (key2 * Z)) : Prop :=
  (forall u, In u unf ->
     Unfulfilled.fulfilled u + Unfulfilled.unfulfilled u = Unfulfilled.needed u /\
     (exists r, In r analysis /\
        Analysis.product_id r = Unfulfilled.product_id u /\
        Analysis.branch_id r = Unfulfilled.branch_id u) /\
     (forall r, In r analysis ->
        Analysis.product_id r = Unfulfilled.product_id u ->
        Analysis.branch_id r = Unfulfilled.branch_id u ->
        Analysis.branch_net_need r = Unfulfilled.needed u)) /\
  (forall r, In r analysis -> allocation_needed r = true ->
     let k := (Analysis.product_id r, Analysis.branch_id r) in
     allocated_to k plan =
       Analysis.branch_net_need r - dict_get key2_eqb tracker k 0 /\
     (forall u, In u unf ->
        Unfulfilled.product_id u = Analysis.product_id r ->
        Unfulfilled.branch_id u = Analysis.branch_id r ->
        allocated_to k plan = Unfulfilled.fulfilled u) /\
     ((forall u, In u unf ->
         ~ (Unfulfilled.product_id u = Analysis.product_id r /\
            Unfulfilled.branch_id u = Analysis.branch_id r)) ->
      allocated_to k plan = Analysis.branch_net_need r)).

(** Every record is drawn from a batch of the central warehouse: the label
    kept with it is the label of a row of the stock frame with the product
    and the expiry date of the record. *)
Definition drawn_from_stock (cw : Z) (stock : list (Z * Stock.row))
    (draws : list Draw) : Prop :=
  forall x, In x draws ->
    exists s, In (batch_idx x, s) stock /\
      Stock.branch_id s = cw /\
      Stock.product_id s = Alloc.product_id (record x) /\
      Stock.expiry_date s = Alloc.expiry_date (record x).

(** What conservation of stock says of the batch labelled [l], with row [s]
    in the stock frame: [draws] are the records of the run with the batch
    each was drawn from, [remaining] is the remaining-stock snapshot. *)
Definition stock_conserved (l : Z) (s : Stock.row) (draws : list Draw)
    (remaining : list (Z * Stock.row)) : Prop :=
  let left := Stock.stock_available s - drawn_from l draws in
  drawn_from l draws <= Stock.stock_available s /\
  ((exists s', In (l, s') remaining) <-> 0 < left) /\
  (forall s', In (l, s') remaining ->
     s' = Stock.set_stock_available left s).

(** No batch of the central warehouse of the product of [r] has an expiry
    date at or after the date required by the channel of [r]. *)
Definition ineligible (cw today : Z) (rules : list (Z * Z))
    (stock : list (Z * Stock.row)) (r : Analysis.row) : Prop :=
  forall b, In b stock ->
    Stock.branch_id (snd b) = cw ->
    Stock.product_id (snd b) = Analysis.product_id r ->
    Stock.expiry_date (snd b)
    < today + timedelta (dict_get Z.eqb rules (Analysis.channel_id r) 0).



(* ------------------------------------------------------------------ *)
(** ** A small system and two runs, used to instantiate the theorems *)

(** Two products, one destination branch (1) and the central warehouse
    (1000); expiry dates are counted in days from time 0. *)
Definition example_forecast : list Forecast.row :=
  [Forecast.mk 1 1 1 100; Forecast.mk 1 1 2 50;
   Forecast.mk 2 1 5 0; Forecast.mk 2 1 6 10].

Definition example_stock : list (Z * Stock.row) :=
  [(0, Stock.mk 1 1 30 500);
   (1, Stock.mk 1 1000 200 (200 * NS_PER_DAY));
   (2, Stock.mk 2 1000 7 (10 * NS_PER_DAY));
   (3, Stock.mk 2 1000 1 (5 * NS_PER_DAY))].

(** The object after [load_and_clean_data]: the two input frames, and the
    empty frame that [__init__] puts in [unfulfilled_demands_df]. *)
Definition example_store : Store :=
  [ForecastDF example_forecast; StockDF example_stock; UnfulfilledDF []].

Definition example_system : InventoryAllocationSystem :=
  mkSystem 1000 (Some 0%nat) (Some 1%nat) None None (Some 2%nat) None.

Definition example_analysis : list Analysis.row :=
  [Analysis.mk 1 1 1 100 30 150 120 ALLOCATION_NEEDED;
   Analysis.mk 1 1 2 50 30 150 120 ALLOCATION_NEEDED;
   Analysis.mk 2 1 5 0 0 10 10 ALLOCATION_NEEDED;
   Analysis.mk 2 1 6 10 0 10 10 ALLOCATION_NEEDED].

Definition example_analysed_system : InventoryAllocationSystem :=
  set_analysis_df example_system 3%nat.

Definition example_analysed_store : Store :=
  example_store ++ [AnalysisDF example_analysis].

(** Channel 2 has priority; channel 1 needs 100 days of shelf life. *)
Definition example_run :=
  Eval vm_compute in
    run_allocation [2] [] [(1, 100)] 0
      example_analysed_system example_analysed_store.

Definition example_allocated_system : InventoryAllocationSystem :=
  match example_run with
  | Some (s, _, _) => s
  | None => example_analysed_system
  end.

Definition example_trace : AllocationTrace :=
  match example_run with
  | Some (_, t, _) => t
  | None => mkTrace [] []
  end.

Definition example_allocated_store : Store :=
  match example_run with
  | Some (_, _, h) => h
  | None => []
  end.

Definition example_plan : list Alloc.row :=
  Eval vm_compute in map record (all_draws example_trace).

Definition example_unfulfilled : list Unfulfilled.row :=
  [Unfulfilled.mk 2 1 10 8 2].

Definition example_remaining : list (Z * Stock.row) :=
  [(1, Stock.mk 1 1000 80 (200 * NS_PER_DAY))].






(* ------------------------------------------------------------------ *)
(** ** Further quantities of the analysis table *)

Definition analysis_key (r : Analysis.row) : key3 :=
  (Analysis.product_id r, Analysis.branch_id r, Analysis.channel_id r).

(** Strict lexicographic order on (product_id, branch_id, channel_id). *)
Definition key3_lt (a b : key3) : Prop :=
  fst (fst a) < fst (fst b) \/
  (fst (fst a) = fst (fst b) /\
   (snd (fst a) < snd (fst b) \/
    (snd (fst a) = snd (fst b) /\ snd a < snd b))).

(** The sum of the forecast quantities of the records of a channel at a
    branch, and of all the records of a branch. *)
Definition forecast_total (forecast : list Forecast.row) (k : key3) : Z :=
  total (map Forecast.forecast_quantity
           (filter (fun f => if key3_eq_dec (forecast_key f) k
                             then true else false) forecast)).

Definition branch_forecast_total (forecast : list Forecast.row) (k : key2) : Z :=
  total (map Forecast.forecast_quantity
           (filter (fun f => key2_eqb (fst (forecast_key f)) k) forecast)).

Definition key3_eqb (a b : key3) : bool :=
  if key3_eq_dec a b then true else false.

(** The quantity the plan sends to one channel of a branch. *)
Definition alloc_key (a : Alloc.row) : key3 :=
  (Alloc.product_id a, Alloc.to_branch a, Alloc.channel_id a).

Definition allocated_to_channel (k : key3) (plan : list Alloc.row) : Z :=
  total (map Alloc.quantity_allocated
           (filter (fun a => key3_eqb (alloc_key a) k) plan)).

Definition log_key (e : Demand.row * list Draw) : key3 :=
  analysis_key (Demand.line (fst e)).

(** The working copy of the stock has one row per index label and no
    negative stock. *)
Definition stock_ok (rows : list (Z * Stock.row)) : Prop :=
  NoDup (map fst rows) /\
  forall b, In b rows -> 0 <= Stock.stock_available (snd b).

(** The third line processed by the example run and its two records. *)
Definition example_line : Demand.row :=
  Demand.mk (Analysis.mk 2 1 6 10 0 10 10 ALLOCATION_NEEDED) (Some 2) (Some 2).

Definition example_line_draws : list Draw :=
  [mkDraw 3 (Alloc.mk 2 1000 1 6 1 (5 * NS_PER_DAY));
   mkDraw 2 (Alloc.mk 2 1000 1 6 7 (10 * NS_PER_DAY))].

(** Strict lexicographic order on (product_id, branch_id). *)
Definition key2_lt (a b : key2) : Prop :=
  fst a < fst b \/ (fst a = fst b /\ snd a < snd b).

Definition unfulfilled_key (u : Unfulfilled.row) : key2 :=
  (Unfulfilled.product_id u, Unfulfilled.branch_id u).

(** The stock of a product held by the rows of a stock frame, and the
    quantity of a product allocated by a plan. *)
Definition product_stock_total (p : Z) (rows : list (Z * Stock.row)) : Z :=
  total (map (fun b => Stock.stock_available (snd b))
             (filter (fun b => Stock.product_id (snd b) =? p) rows)).

Definition product_allocated_total (p : Z) (plan : list Alloc.row) : Z :=
  total (map Alloc.quantity_allocated
             (filter (fun a => Alloc.product_id a =? p) plan)).

Definition warehouse_rows (cw : Z) (stock : list (Z * Stock.row))
  : list (Z * Stock.row) :=
  filter (fun b => Stock.branch_id (snd b) =? cw) stock.

(** The order of [sort_values(by=['product_id', 'expiry_date'])]. *)
Definition fefo_order (a b : Z * Stock.row) : Prop :=
  Stock.product_id (snd a) < Stock.product_id (snd b) \/
  (Stock.product_id (snd a) = Stock.product_id (snd b) /\
   Stock.expiry_date (snd a) <= Stock.expiry_date (snd b)).

(* ------------------------------------------------------------------ *)
(** ** [get_allocation_charts]: the data of the first figure (lines 195-201) *)

Definition read_plan (r : ref) : M (list Alloc.row) :=
  df <- read r ;; match df with PlanDF rows => ret rows | _ => raise end.

Definition read_unfulfilled (r : ref) : M (list Unfulfilled.row) :=
  df <- read r ;; match df with UnfulfilledDF rows => ret rows | _ => raise end.

(** [df.empty] *)
Definition empty {A : Type} (rows : list A) : bool :=
  match rows with [] => true | _ :: _ => false end.

(** The two wedges handed to [ax1.pie], or [None] when [fig1] stays [None];
    the call itself is [pie] in [get_allocation_charts_pie]. *)
Definition get_allocation_charts_fig1 (self : InventoryAllocationSystem)
  : M (option (Z * Z)) :=
  p <- attr (allocation_plan_df self) ;;
  plan <- read_plan p ;;
  let total_allocated :=
    if negb (empty plan) then total (map Alloc.quantity_allocated plan) else 0 in
  u <- attr (unfulfilled_demands_df self) ;;
  unf <- read_unfulfilled u ;;
  let total_unfulfilled :=
    if negb (empty unf) then total (map Unfulfilled.unfulfilled unf) else 0 in
  ret (if (0 <? total_allocated) || (0 <? total_unfulfilled)
       then Some (total_allocated, total_unfulfilled)
       else None).

(** The net need of the branches that need allocation, each counted once. *)
Definition branch_key (r : Analysis.row) : key2 :=
  (Analysis.product_id r, Analysis.branch_id r).

Definition needed_branches (analysis : list Analysis.row) : list key2 :=
  nodup key2_eq_dec (map branch_key (filter allocation_needed analysis)).

Definition net_need_of (analysis : list Analysis.row) (k : key2) : Z :=
  match iloc0 (map Analysis.branch_net_need (branch_rows k analysis)) with
  | Some need => need
  | None => 0
  end.

Definition total_net_need (analysis : list Analysis.row) : Z :=
  total (map (net_need_of analysis) (needed_branches analysis)).

(** The second line processed by the example run and its record. *)
Definition example_line_1 : Demand.row :=
  Demand.mk (Analysis.mk 1 1 1 100 30 150 120 ALLOCATION_NEEDED)
            (Some 2) (Some 2).

Definition example_line_1_draws : list Draw :=
  [mkDraw 1 (Alloc.mk 1 1000 1 1 70 (200 * NS_PER_DAY))].

(* ------------------------------------------------------------------ *)
(** ** [load_and_clean_data]: the mapping of the columns (lines 45-55) *)

Section ColumnMapping.
(** The values of a column are left abstract: the loops only move columns. *)
Variable V : Type.

(** A frame as read from a file: its columns, by name, in file order. *)
Definition RawFrame : Type := list (string * list V).

(** [user_col in raw.columns] and [raw[user_col]] *)
Fixpoint column (name : string) (df : RawFrame) : option (list V) :=
  match df with
  | [] => None
  | (n, c) :: rest => if String.eqb n name then Some c else column name rest
  end.

(** [df[name] = c]: the column is replaced where it is, or added last. *)
Fixpoint set_column (name : string) (c : list V) (df : RawFrame) : RawFrame :=
  match df with
  | [] => [(name, c)]
  | (n, c') :: rest =>
      if String.eqb n name then (n, c) :: rest
      else (n, c') :: set_column name c rest
  end.

Definition not_found (user_col file : string) : string :=
  ("Column '" ++ user_col ++ "' not found in " ++ file ++ " file.")%string.

(** One of the two loops; [file] is "forecast" or "stock", [df] the frame
    built so far.  The loop returns at the first mapped column that the
    file does not have. *)
Fixpoint map_columns (file : string) (mapping : list (string * string))
    (raw : RawFrame) (df : RawFrame) : string + RawFrame :=
  match mapping with
  | [] => inr df
  | (internal_col, user_col) :: rest =>
      match column user_col raw with
      | None => inl (not_found user_col file)
      | Some c => map_columns file rest raw (set_column internal_col c df)
      end
  end.

(** Lines 45-55: the message of [return False, ...], or the two frames
    handed to the cleaning steps. *)
Definition load_and_map (forecast_mapping stock_mapping : list (string * string))
    (raw_forecast_df raw_stock_df : RawFrame) : string + (RawFrame * RawFrame) :=
  match map_columns "forecast" forecast_mapping raw_forecast_df [] with
  | inl message => inl message
  | inr forecast_df =>
      match map_columns "stock" stock_mapping raw_stock_df [] with
      | inl message => inl message
      | inr stock_df => inr (forecast_df, stock_df)
      end
  end.

(** The first entry of a mapping whose user column the file lacks. *)
Definition first_missing (mapping : list (string * string)) (raw : RawFrame)
  : option string :=
  option_map snd
    (find (fun e => match column (snd e) raw with None => true | _ => false end)
          mapping).
End ColumnMapping.

Arguments column {V} name df.
Arguments set_column {V} name c df.
Arguments map_columns {V} file mapping raw df.
Arguments load_and_map {V} forecast_mapping stock_mapping raw_forecast_df raw_stock_df.
Arguments first_missing {V} mapping raw.

(** [user_col] is the user column of the first entry of the mapping, in the
    order of the dictionary, that the file does not have. *)
Definition first_missing_is {V : Type} (mapping : list (string * string))
    (raw : RawFrame V) (user_col : string) : Prop :=
  exists pre internal_col post,
    mapping = pre ++ (internal_col, user_col) :: post /\
    (forall e, In e pre -> column (snd e) raw <> None) /\
    column user_col raw = None.

Definition all_present {V : Type} (mapping : list (string * string))
    (raw : RawFrame V) : Prop :=
  forall e, In e mapping -> column (snd e) raw <> None.

(** A small file with two columns, and two mappings of it. *)
Definition example_raw : RawFrame Z :=
  [("sku"%string, [1; 2]); ("qty"%string, [10; 20])].

Definition example_mapping : list (string * string) :=
  [("product_id"%string, "sku"%string);
   ("forecast_quantity"%string, "qty"%string)].

Definition example_raw_mapped : RawFrame Z :=
  [("product_id"%string, [1; 2]); ("forecast_quantity"%string, [10; 20])].

(* ------------------------------------------------------------------ *)
(** ** [__init__] (lines 16-35) *)

(** A new object: every frame attribute is [None], but for the unfulfilled
    demands, which start as an empty frame.  The files and the mappings are
    read by [load_and_clean_data] only. *)
Definition init (cw_branch_id : Z) : M InventoryAllocationSystem :=
  u <- new_frame (UnfulfilledDF []) ;;
  ret (mkSystem cw_branch_id None None None None (Some u) None).

(** The two assignments that end a successful [load_and_clean_data]
    (lines 71-72), with the rows of the two cleaned frames. *)
Definition set_loaded (self : InventoryAllocationSystem)
    (forecast : list Forecast.row) (stock : list (Z * Stock.row))
  : M InventoryAllocationSystem :=
  f <- new_frame (ForecastDF forecast) ;;
  s <- new_frame (StockDF stock) ;;
  ret (mkSystem (cw_branch_id self) (Some f) (Some s) (analysis_df self)
         (allocation_plan_df self) (unfulfilled_demands_df self)
         (remaining_cw_stock_df self)).

(* ------------------------------------------------------------------ *)
(** ** The Streamlit script (main_4.py)

    One run of the script is a function of the session state and of what
    the widgets return in that run.  The calls on the system object and the
    reads of its frames are modelled; drawing and table display are not.
    What [load_and_clean_data] returns for the uploaded files is an input
    of the run. *)

Record Session := mkSession
  { system : option InventoryAllocationSystem;
    analysis_run : bool;
    allocation_run : bool;
    files_uploaded : bool }.

(** Lines 16-22. *)
Definition initial_session : Session := mkSession None false false false.

Record Widgets := mkWidgets
  { forecast_file : bool;          (* the uploader holds a file *)
    stock_file : bool;
    headers_read : bool;           (* reading the two headers did not raise *)
    cw_branch_id_input : Z;
    analyze_button : bool;
    loaded : string + (list Forecast.row * list (Z * Stock.row));
    priority_channels : list Z;
    priority_branches : list Z;
    generate_button : bool;
    now : Z }.

(** Lines 153-156. *)
Definition channel_expiry_rules : list (Z * Z) :=
  [(10, 180); (20, 135); (30, 90); (40, 150); (50, 180);
   (60, 180); (65, 90); (70, 45); (75, 90); (90, 90)].

(** Lines 44-94. *)
Definition tab1 (w : Widgets) (s : Session) : M Session :=
  let s1 :=
    if forecast_file w && stock_file w && negb (files_uploaded s)
       && headers_read w
    then mkSession (system s) (analysis_run s) (allocation_run s) true
    else s in
  if files_uploaded s1 && analyze_button w then
    if negb (forecast_file w) || negb (stock_file w) then ret s1
    else
      sys <- init (cw_branch_id_input w) ;;
      match loaded w with
      | inr (forecast, stock) =>
          sys <- set_loaded sys forecast stock ;;
          sys <- run_analysis sys ;;
          ret (mkSession (Some sys) true false (files_uploaded s1))
      | inl message => ret s1
      end
  else ret s1.

(** Lines 101-119: the reads of [system.analysis_df]. *)
Definition tab2 (s : Session) : M unit :=
  if negb (analysis_run s) then ret tt
  else
    sys <- lift (system s) ;;
    a <- attr (analysis_df sys) ;;
    read_analysis a ;;; ret tt.

(** Lines 176-206: the figure and the three tables. *)
Definition show_results (sys : InventoryAllocationSystem) : M unit :=
  get_allocation_charts_fig1 sys ;;;
  p <- attr (allocation_plan_df sys) ;;
  read_plan p ;;;
  u <- attr (unfulfilled_demands_df sys) ;;
  read_unfulfilled u ;;;
  r <- attr (remaining_cw_stock_df sys) ;;
  read_stock r ;;; ret tt.

(** Lines 126-206. *)
Definition tab3 (w : Widgets) (s : Session) : M Session :=
  if negb (analysis_run s) then ret s
  else
    sys <- lift (system s) ;;
    a <- attr (analysis_df sys) ;;
    read_analysis a ;;;
    s1 <- (if generate_button w then
             res <- run_allocation (priority_channels w) (priority_branches w)
                      channel_expiry_rules (now w) sys ;;
             ret (mkSession (Some (fst res)) (analysis_run s) true
                            (files_uploaded s))
           else ret s) ;;
    if allocation_run s1 then
      sys1 <- lift (system s1) ;;
      show_results sys1 ;;; ret s1
    else ret s1.

Definition script_run (w : Widgets) (s : Session) : M Session :=
  s1 <- tab1 w s ;;
  tab2 s1 ;;;
  tab3 w s1.

Fixpoint script_runs (ws : list Widgets) (s : Session) : M Session :=
  match ws with
  | [] => ret s
  | w :: rest => s1 <- script_run w s ;; script_runs rest s1
  end.

(** What the flags of the session promise about the system object. *)
Definition analysed (sys : InventoryAllocationSystem) (h : Store) : Prop :=
  (exists rows, analysis_of sys h = Some rows) /\
  (exists rows, stock_of sys h = Some rows).

Definition allocated (sys : InventoryAllocationSystem) (h : Store) : Prop :=
  (exists rows, plan_of sys h = Some rows) /\
  (exists rows, unfulfilled_of sys h = Some rows) /\
  (exists rows, remaining_of sys h = Some rows).

Definition session_ok (s : Session) (h : Store) : Prop :=
  (analysis_run s = true ->
   exists sys, system s = Some sys /\ analysed sys h) /\
  (allocation_run s = true ->
   analysis_run s = true /\
   exists sys, system s = Some sys /\ allocated sys h).

(** The options of the two multiselects (main_4.py, lines 132-133). *)
Definition needy_channels (analysis : list Analysis.row) : list Z :=
  sort_values Z.leb
    (nodup Z.eq_dec
       (map Analysis.channel_id (filter allocation_needed analysis))).

Definition needy_branches (analysis : list Analysis.row) : list Z :=
  sort_values Z.leb
    (nodup Z.eq_dec
       (map Analysis.branch_id (filter allocation_needed analysis))).

(** The line processed first, if any. *)
Definition first_line (t : AllocationTrace) : option Analysis.row :=
  option_map (fun e => Demand.line (fst e)) (hd_error (processed t)).

(* ------------------------------------------------------------------ *)
(** ** The two bar charts (lines 187 and 202) *)










(* ------------------------------------------------------------------ *)
(** ** The part of the frames that concerns one product *)

Definition analysis_of_product (p : Z) (analysis : list Analysis.row)
  : list Analysis.row :=
  filter (fun r => Analysis.product_id r =? p) analysis.

Definition stock_of_product (p : Z) (rows : list (Z * Stock.row))
  : list (Z * Stock.row) :=
  filter (fun b => Stock.product_id (snd b) =? p) rows.

Definition plan_of_product (p : Z) (plan : list Alloc.row) : list Alloc.row :=
  filter (fun a => Alloc.product_id a =? p) plan.

Definition unfulfilled_of_product (p : Z) (unf : list Unfulfilled.row)
  : list Unfulfilled.row :=
  filter (fun u => Unfulfilled.product_id u =? p) unf.

Definition demand_of_product (p : Z) (d : Demand.row) : bool :=
  Analysis.product_id (Demand.line d) =? p.

Definition key_of_product (p : Z) (kv : key2 * Z) : bool :=
  fst (fst kv) =? p.

(** A system that holds only the rows of product 2 of the example. *)
Definition example_store_product : Store :=
  [AnalysisDF (analysis_of_product 2 example_analysis);
   StockDF (stock_of_product 2 example_stock)].

Definition example_system_product : InventoryAllocationSystem :=
  mkSystem 1000 None (Some 1%nat) (Some 0%nat) None None None.

(* ------------------------------------------------------------------ *)
(** ** The ranges of the machine types

    The integer columns of the program are int64 and a sum of such a column
    wraps around; its timestamps count nanoseconds in an int64; and a left
    merge that leaves a key without a match passes the stock totals through
    float64, which holds the integers up to 2^53 in absolute value.  The
    definitions of this file compute in [Z]: they give the values of the
    program where the conditions below hold, and the theorems that state an
    exact sum, or that a call returns, take them as hypotheses. *)

Definition fits_int64 (z : Z) : Prop := - 2 ^ 63 <= z <= 2 ^ 63 - 1.

(** What an int64 column stores for the integer [z]. *)
Definition wrap_int64 (z : Z) : Z := (z + 2 ^ 63) mod 2 ^ 64 - 2 ^ 63.

Definition float64_exact (z : Z) : Prop := - 2 ^ 53 <= z <= 2 ^ 53.

(** The range of a pandas timestamp, in nanoseconds; it lies within the
    range of [datetime]. *)
Definition timestamp_in_range (z : Z) : Prop :=
  - (2 ^ 63 - 1) <= z <= 2 ^ 63 - 1.

(** [today], and [today + timedelta(days=...)] of line 139 for every channel
    with a demand line, are dates that the program can hold: the sum does
    not raise OverflowError, and line 143 compares timestamps. *)
Definition dates_in_range (today : Z) (expiry_rules : list (Z * Z))
    (analysis : list Analysis.row) : Prop :=
  timestamp_in_range today /\
  forall r, In r analysis -> allocation_needed r = true ->
    timestamp_in_range
      (required_expiry today expiry_rules (Analysis.channel_id r)).

(** The sum of line 85 fits for every key of the forecast. *)
Definition forecast_sums_fit (forecast : list Forecast.row) : Prop :=
  forall k, In k (map forecast_key forecast) ->
    fits_int64 (forecast_total forecast k).

(** For the branch [k]: the forecast total of line 91 fits, the stock total
    of line 81 survives the float64 column of lines 88-89, and the
    difference of line 95 fits. *)
Definition branch_sums_fit (cw : Z) (forecast : list Forecast.row)
    (stock : list (Z * Stock.row)) (k : key2) : Prop :=
  fits_int64 (branch_forecast_total forecast k) /\
  float64_exact (destination_stock_total cw stock k) /\
  fits_int64 (branch_forecast_total forecast k
              - destination_stock_total cw stock k).

(** [ax1.pie(x)] raises ValueError when a wedge is negative. *)
Definition pie (x : list Z) : M unit :=
  if existsb (fun v => v <? 0) x then raise else ret tt.

(** Lines 195-201 of [get_allocation_charts], with the call that draws the
    first figure. *)
Definition get_allocation_charts_pie (self : InventoryAllocationSystem)
  : M (option (Z * Z)) :=
  fig1 <- get_allocation_charts_fig1 self ;;
  match fig1 with
  | Some (total_allocated, total_unfulfilled) =>
      pie [total_allocated; total_unfulfilled] ;;; ret fig1
  | None => ret None
  end.

(* ------------------------------------------------------------------ *)
(** ** Keys *)

Lemma key2_eqb_eq (a b : key2) : key2_eqb a b = true <-> a = b.
Proof.
  destruct a as [a1 a2], b as [b1 b2]; unfold key2_eqb; simpl.
  rewrite andb_true_iff, !Z.eqb_eq. split.
  - intros [-> ->]; reflexivity.
  - intros E; inversion E; auto.
Qed.

Lemma key2_eqb_refl (a : key2) : key2_eqb a a = true.
Proof. apply key2_eqb_eq; reflexivity. Qed.

Lemma key2_eqb_neq (a b : key2) : key2_eqb a b = false <-> a <> b.
Proof.
  rewrite <- key2_eqb_eq. destruct (key2_eqb a b); split; congruence.
Qed.

Lemma key2_leb_total (a b : key2) : key2_leb a b = false -> key2_leb b a = true.
Proof.
  destruct a as [a1 a2], b as [b1 b2]; unfold key2_leb; simpl.
  rewrite orb_false_iff, andb_false_iff, orb_true_iff, andb_true_iff.
  rewrite !Z.ltb_ge, !Z.ltb_lt, !Z.eqb_neq, !Z.eqb_eq, Z.leb_gt, Z.leb_le.
  lia.
Qed.

Lemma key2_leb_trans (a b c : key2) :
  key2_leb a b = true -> key2_leb b c = true -> key2_leb a c = true.
Proof.
  destruct a as [a1 a2], b as [b1 b2], c as [c1 c2]; unfold key2_leb; simpl.
  rewrite !orb_true_iff, !andb_true_iff.
  rewrite !Z.ltb_lt, !Z.eqb_eq, !Z.leb_le.
  lia.
Qed.

Lemma key2_leb_spec (a b : key2) :
  key2_leb a b = true <->
  fst a < fst b \/ (fst a = fst b /\ snd a <= snd b).
Proof.
  unfold key2_leb.
  rewrite orb_true_iff, andb_true_iff, Z.ltb_lt, Z.eqb_eq, Z.leb_le.
  tauto.
Qed.

(* ------------------------------------------------------------------ *)
(** ** Sorting *)

Section SortValuesFacts.
Context {A : Type} (leb : A -> A -> bool).

Lemma insert_sorted_perm x l : Permutation (x :: l) (insert_sorted leb x l).
Proof.
  induction l as [|y l IH]; simpl; auto.
  destruct (leb x y); auto.
  rewrite perm_swap. constructor. exact IH.
Qed.

Lemma sort_values_perm l : Permutation l (sort_values leb l).
Proof.
  induction l as [|x l IH]; simpl; auto.
  rewrite <- insert_sorted_perm. constructor. exact IH.
Qed.

Lemma sort_values_In x l : In x (sort_values leb l) <-> In x l.
Proof.
  split; apply Permutation_in;
    [apply Permutation_sym|]; apply sort_values_perm.
Qed.

Hypothesis leb_total : forall a b, leb a b = false -> leb b a = true.
Hypothesis leb_trans :
  forall a b c, leb a b = true -> leb b c = true -> leb a c = true.

Lemma insert_sorted_strongly x l :
  StronglySorted (fun a b => leb a b = true) l ->
  StronglySorted (fun a b => leb a b = true) (insert_sorted leb x l).
Proof.
  induction 1 as [|y l Hs IH Hy]; simpl.
  - repeat constructor.
  - destruct (leb x y) eqn:E.
    + constructor; [constructor; assumption|].
      constructor; [exact E|].
      rewrite Forall_forall in *. eauto.
    + constructor; [exact IH|].
      rewrite Forall_forall in *. intros z Hz.
      apply (Permutation_in _ (Permutation_sym (insert_sorted_perm x l))) in Hz.
      destruct Hz as [<-|Hz]; auto.
Qed.

Lemma sort_values_strongly l :
  StronglySorted (fun a b => leb a b = true) (sort_values leb l).
Proof.
  induction l; simpl; [constructor | apply insert_sorted_strongly; assumption].
Qed.
End SortValuesFacts.

(* ------------------------------------------------------------------ *)
(** ** Grouping and merging *)

Section GroupByFacts.
Context {K : Type} (K_eq_dec : forall a b : K, {a = b} + {a <> b})
        (K_leb : K -> K -> bool).

Lemma group_keys_In k rows :
  In k (group_keys K_eq_dec K_leb rows) <-> In k (map fst rows).
Proof.
  unfold group_keys. rewrite sort_values_In. apply nodup_In.
Qed.

Lemma group_keys_NoDup rows : NoDup (group_keys K_eq_dec K_leb rows).
Proof.
  unfold group_keys.
  eapply Permutation_NoDup; [apply sort_values_perm | apply NoDup_nodup].
Qed.

Lemma groupby_keys rows :
  map fst (groupby K_eq_dec K_leb rows) = group_keys K_eq_dec K_leb rows.
Proof. unfold groupby. rewrite map_map. simpl. apply map_id. Qed.

Lemma groupby_sum_keys rows :
  map fst (groupby_sum K_eq_dec K_leb rows) = group_keys K_eq_dec K_leb rows.
Proof.
  unfold groupby_sum. rewrite map_map. simpl. apply groupby_keys.
Qed.

Lemma groupby_first_keys rows :
  map fst (groupby_first K_eq_dec K_leb rows) = group_keys K_eq_dec K_leb rows.
Proof.
  unfold groupby_first. rewrite map_map. simpl. apply groupby_keys.
Qed.

Lemma groupby_sum_In k v rows :
  In (k, v) (groupby_sum K_eq_dec K_leb rows) <->
  In k (map fst rows) /\ v = total (group_values K_eq_dec k rows).
Proof.
  unfold groupby_sum, groupby. rewrite map_map. simpl.
  rewrite in_map_iff. split.
  - intros [k' [E Hk]]. inversion E; subst.
    split; [apply group_keys_In in Hk; assumption | reflexivity].
  - intros [Hk ->]. exists k.
    split; [reflexivity | apply group_keys_In; assumption].
Qed.

Lemma groupby_first_In k v rows :
  In (k, v) (groupby_first K_eq_dec K_leb rows) <->
  In k (map fst rows) /\ v = hd 0 (group_values K_eq_dec k rows).
Proof.
  unfold groupby_first, groupby. rewrite map_map. simpl.
  rewrite in_map_iff. split.
  - intros [k' [E Hk]]. inversion E; subst.
    split; [apply group_keys_In in Hk; assumption | reflexivity].
  - intros [Hk ->]. exists k.
    split; [reflexivity | apply group_keys_In; assumption].
Qed.

Lemma group_values_nil k (rows : list (K * Z)) :
  ~ In k (map fst rows) -> group_values K_eq_dec k rows = [].
Proof using K_eq_dec.
  unfold group_values. induction rows as [|[k' v] rows IH]; simpl; auto.
  intros H. unfold key_is at 1; simpl.
  destruct (K_eq_dec k' k) as [->|N].
  - exfalso. apply H. left. reflexivity.
  - apply IH. intros Hc. apply H. right. exact Hc.
Qed.

Lemma group_values_map {B : Type} (key : B -> K) (val : B -> Z) k (l : list B) :
  group_values K_eq_dec k (map (fun x => (key x, val x)) l) =
  map val (filter (fun x => if K_eq_dec (key x) k then true else false) l).
Proof using K_eq_dec.
  unfold group_values. induction l as [|x l IH]; simpl; auto.
  unfold key_is at 1; simpl.
  destruct (K_eq_dec (key x) k); simpl; rewrite IH; reflexivity.
Qed.
End GroupByFacts.

Lemma filter_none {B : Type} (f : B -> bool) (l : list B) :
  (forall x, In x l -> f x = false) -> filter f l = [].
Proof.
  induction l as [|x l IH]; simpl; auto.
  intros H. rewrite (H x (or_introl eq_refl)). apply IH. auto.
Qed.

Lemma matching_unique {V : Type} (k : key2) (v : V) right :
  NoDup (map fst right) -> In (k, v) right -> matching k right = [(k, v)].
Proof.
  unfold matching. induction right as [|[k' v'] right IH]; simpl; [tauto|].
  intros Hnd Hin. inversion Hnd as [|? ? Hk' Hnd']; subst.
  destruct (key2_eqb k' k) eqn:E.
  - apply key2_eqb_eq in E; subst k'. destruct Hin as [Hin|Hin].
    + inversion Hin; subst. f_equal.
      apply filter_none. intros [k2 v2] H2; simpl.
      apply key2_eqb_neq. intros ->. apply Hk'.
      apply (in_map fst) in H2. exact H2.
    + exfalso. apply Hk'. apply (in_map fst) in Hin. exact Hin.
  - destruct Hin as [Hin|Hin].
    + inversion Hin; subst. rewrite key2_eqb_refl in E. discriminate.
    + apply IH; assumption.
Qed.

Lemma matching_none {V : Type} (k : key2) (right : list (key2 * V)) :
  ~ In k (map fst right) -> matching k right = [].
Proof.
  intros H. apply filter_none. intros [k2 v2] H2; simpl.
  apply key2_eqb_neq. intros ->. apply H.
  apply (in_map fst) in H2. exact H2.
Qed.

Lemma matching_In {V : Type} (k : key2) (right : list (key2 * V)) m :
  In m (matching k right) <-> In m right /\ fst m = k.
Proof.
  unfold matching. rewrite filter_In, key2_eqb_eq. tauto.
Qed.

(** With one row per key on the right, a left merge keeps the left rows and
    looks the value up. *)
Lemma merge_left_lookup (left : list (key2 * Z * Z)) (right : list (key2 * Z)) :
  NoDup (map fst right) ->
  merge_left left right =
  map (fun l => (l, lookup2 (fst (fst l)) right)) left.
Proof.
  intros Hnd. unfold merge_left.
  match goal with |- flat_map ?g _ = _ => set (f := g) end.
  induction left as [|l left IH]; [reflexivity|].
  change (f l ++ flat_map f left =
          (l, lookup2 (fst (fst l)) right)
            :: map (fun l => (l, lookup2 (fst (fst l)) right)) left).
  rewrite IH. unfold f, lookup2.
  destruct (matching (fst (fst l)) right) as [|[k v] ms] eqn:E; simpl; auto.
  assert (Hin : In (k, v) (matching (fst (fst l)) right))
    by (rewrite E; left; reflexivity).
  apply matching_In in Hin. destruct Hin as [Hin Hk]; simpl in Hk; subst k.
  rewrite (matching_unique _ v right Hnd Hin) in E.
  inversion E; subst. reflexivity.
Qed.

(** The same for an inner merge, when every left key is on the right. *)
Lemma merge_inner_lookup (left : list (key2 * Z * Z * Z))
    (right : list (key2 * Z)) :
  NoDup (map fst right) ->
  (forall l, In l left -> In (fst (fst (fst l))) (map fst right)) ->
  merge_inner left right =
  map (fun l => (l, fillna 0 (lookup2 (fst (fst (fst l))) right))) left.
Proof.
  intros Hnd. unfold merge_inner.
  match goal with |- _ -> flat_map ?g _ = _ => set (f := g) end.
  induction left as [|l left IH]; [reflexivity|].
  intros Hk.
  change (f l ++ flat_map f left =
          (l, fillna 0 (lookup2 (fst (fst (fst l))) right))
            :: map (fun l => (l, fillna 0 (lookup2 (fst (fst (fst l))) right)))
                   left).
  rewrite IH by (intros; apply Hk; right; assumption). unfold f.
  destruct (proj1 (in_map_iff _ _ _) (Hk l (or_introl eq_refl)))
    as [[k v] [Ek Hin]]; simpl in Ek; subst k.
  unfold lookup2. rewrite (matching_unique _ v right Hnd Hin). reflexivity.
Qed.

Lemma lookup2_groupby_sum k rows :
  fillna 0 (lookup2 k (groupby_sum key2_eq_dec key2_leb rows)) =
  total (group_values key2_eq_dec k rows).
Proof.
  unfold lookup2.
  destruct (in_dec key2_eq_dec k (map fst rows)) as [Hin|Hout].
  - rewrite (matching_unique k (total (group_values key2_eq_dec k rows))).
    + reflexivity.
    + rewrite groupby_sum_keys. apply group_keys_NoDup.
    + apply groupby_sum_In. auto.
  - rewrite matching_none.
    + simpl. rewrite group_values_nil by assumption. reflexivity.
    + rewrite groupby_sum_keys, group_keys_In. assumption.
Qed.

(* ------------------------------------------------------------------ *)
(** ** The analysis table, row by row *)

Lemma merged_stock_eq cw forecast stock :
  merged_stock cw forecast stock =
  map (fun l : key2 * Z * Z =>
         (l, fillna 0 (lookup2 (fst (fst l)) (agg_branch_stock cw stock))))
      (agg_forecast forecast).
Proof.
  unfold merged_stock. rewrite merge_left_lookup.
  - rewrite map_map. reflexivity.
  - unfold agg_branch_stock. rewrite groupby_sum_keys. apply group_keys_NoDup.
Qed.

(** Every row of the analysis table is built from one row of the aggregated
    forecast and two quantities that depend on (product_id, branch_id) only. *)
Lemma analysis_table_eq cw forecast stock :
  analysis_table cw forecast stock =
  map (fun l : key2 * Z * Z =>
         analysis_row
           (l, fillna 0 (lookup2 (fst (fst l)) (agg_branch_stock cw stock)),
            fillna 0 (lookup2 (fst (fst l))
                        (branch_total_forecast (merged_stock cw forecast stock)))))
      (agg_forecast forecast).
Proof.
  unfold analysis_table. cbv zeta.
  rewrite merge_inner_lookup.
  - rewrite merged_stock_eq at 1. rewrite !map_map. reflexivity.
  - unfold branch_total_forecast. rewrite groupby_sum_keys. apply group_keys_NoDup.
  - intros l Hl. unfold branch_total_forecast.
    rewrite groupby_sum_keys, group_keys_In, map_map. simpl.
    apply in_map_iff. exists l. auto.
Qed.

Lemma analysis_row_fields (p b c q tsa tfab : Z) :
  analysis_row (p, b, c, q, tsa, tfab) =
  Analysis.mk p b c q tsa tfab (tfab - tsa) (status_of (tfab - tsa)).
Proof. reflexivity. Qed.

Lemma analysis_table_In cw forecast stock r :
  In r (analysis_table cw forecast stock) ->
  exists c q,
    let k := (Analysis.product_id r, Analysis.branch_id r) in
    let tsa := fillna 0 (lookup2 k (agg_branch_stock cw stock)) in
    let tfab := fillna 0 (lookup2 k
                  (branch_total_forecast (merged_stock cw forecast stock))) in
    In (k, c, q) (agg_forecast forecast) /\
    r = Analysis.mk (fst k) (snd k) c q tsa tfab (tfab - tsa)
                    (status_of (tfab - tsa)).
Proof.
  rewrite analysis_table_eq, in_map_iff.
  intros [[[[p b] c] q] [E Hin]]. simpl in E.
  exists c, q. subst r. simpl. auto.
Qed.

Lemma status_of_needed x : status_of x = ALLOCATION_NEEDED <-> 0 < x.
Proof.
  unfold status_of. destruct (0 <? x) eqn:E.
  - apply Z.ltb_lt in E. tauto.
  - apply Z.ltb_ge in E. destruct (x =? 0); split; try discriminate; lia.
Qed.

Lemma status_of_no_need x : status_of x = NO_ALLOCATION_NEEDED <-> x = 0.
Proof.
  unfold status_of. destruct (0 <? x) eqn:E.
  - apply Z.ltb_lt in E. split; [discriminate | lia].
  - destruct (x =? 0) eqn:E0.
    + apply Z.eqb_eq in E0. tauto.
    + apply Z.eqb_neq in E0. split; [discriminate | lia].
Qed.

Lemma status_of_overstock x : status_of x = OVERSTOCK <-> x < 0.
Proof.
  unfold status_of. destruct (0 <? x) eqn:E.
  - apply Z.ltb_lt in E. split; [discriminate | lia].
  - apply Z.ltb_ge in E. destruct (x =? 0) eqn:E0.
    + apply Z.eqb_eq in E0. split; [discriminate | lia].
    + apply Z.eqb_neq in E0. split; [lia | reflexivity].
Qed.

Lemma filter_filter {B : Type} (f g : B -> bool) (l : list B) :
  filter f (filter g l) = filter (fun x => g x && f x) l.
Proof.
  induction l as [|x l IH]; simpl; auto.
  destruct (g x); simpl; [destruct (f x)|]; rewrite IH; reflexivity.
Qed.

Lemma lookup_agg_branch_stock cw stock k :
  fillna 0 (lookup2 k (agg_branch_stock cw stock)) =
  destination_stock_total cw stock k.
Proof.
  unfold agg_branch_stock, destination_stock_total, destination_stock.
  rewrite lookup2_groupby_sum.
  rewrite (group_values_map key2_eq_dec stock_key
             (fun s => Stock.stock_available (snd s))).
  rewrite filter_filter. f_equal. f_equal.
  apply filter_ext. intros s. f_equal.
  destruct (key2_eq_dec (stock_key s) k) as [->|N].
  - symmetry. apply key2_eqb_refl.
  - symmetry. apply key2_eqb_neq. exact N.
Qed.

(* ------------------------------------------------------------------ *)
(** ** The store *)

Lemma nth_error_store_set_eq r df (h : Store) x :
  nth_error h r = Some x -> nth_error (store_set r df h) r = Some df.
Proof.
  revert r. induction h as [|y h IH]; intros [|r]; simpl; try discriminate; auto.
Qed.

Lemma nth_error_store_set_ne r r' df (h : Store) :
  r <> r' -> nth_error (store_set r df h) r' = nth_error h r'.
Proof.
  revert r r'.
  induction h as [|y h IH]; intros [|r] [|r'] N; simpl; auto; congruence.
Qed.

Lemma store_set_same r df (h : Store) :
  nth_error h r = Some df -> store_set r df h = h.
Proof.
  revert r. induction h as [|y h IH]; intros [|r]; simpl; try discriminate; auto.
  - intros E; inversion E; reflexivity.
  - intros E. rewrite IH; auto.
Qed.

Lemma store_set_set r df df' (h : Store) :
  store_set r df (store_set r df' h) = store_set r df h.
Proof.
  revert r. induction h as [|y h IH]; intros [|r]; simpl; auto.
  rewrite IH. reflexivity.
Qed.

Lemma nth_error_new (h : Store) df :
  nth_error (h ++ [df]) (List.length h) = Some df.
Proof.
  rewrite nth_error_app2 by lia. rewrite Nat.sub_diag. reflexivity.
Qed.

Lemma nth_error_bound (h : Store) r x :
  nth_error h r = Some x -> (r < List.length h)%nat.
Proof. intros E. apply nth_error_Some. congruence. Qed.

(** [run_analysis] reads the two input frames and stores one new frame. *)
Lemma run_analysis_run self h forecast stock :
  forecast_of self h = Some forecast ->
  stock_of self h = Some stock ->
  run_analysis self h =
  Some (set_analysis_df self (List.length h),
        h ++ [AnalysisDF (analysis_table (cw_branch_id self) forecast stock)]).
Proof.
  unfold forecast_of, stock_of, frame_at, run_analysis.
  destruct (forecast_df self) as [f|]; [|discriminate].
  destruct (stock_df self) as [s|]; [|discriminate].
  destruct (nth_error h f) as [[]|] eqn:Ef; try discriminate.
  destruct (nth_error h s) as [[]|] eqn:Es; try discriminate.
  intros E1 E2; inversion E1; inversion E2; subst.
  unfold bind, attr, lift, read_stock, read_forecast, read, bind, ret, new_frame.
  rewrite Es, Ef. reflexivity.
Qed.

Lemma run_analysis_inv self h self' h' :
  run_analysis self h = Some (self', h') ->
  exists forecast stock,
    forecast_of self h = Some forecast /\ stock_of self h = Some stock.
Proof.
  unfold forecast_of, stock_of, frame_at, run_analysis.
  unfold bind, attr, lift, read_stock, read_forecast, read, bind, ret, raise.
  destruct (stock_df self) as [s|]; [|discriminate].
  destruct (nth_error h s) as [[]|] eqn:Es; try discriminate.
  destruct (forecast_df self) as [f|]; [|discriminate].
  destruct (nth_error h f) as [[]|] eqn:Ef; try discriminate.
  intros _. eauto.
Qed.

Lemma run_analysis_result self h self' h' rows :
  run_analysis self h = Some (self', h') ->
  analysis_of self' h' = Some rows ->
  exists forecast stock,
    forecast_of self h = Some forecast /\ stock_of self h = Some stock /\
    rows = analysis_table (cw_branch_id self) forecast stock.
Proof.
  intros Hrun Hrows.
  destruct (run_analysis_inv _ _ _ _ Hrun) as [forecast [stock [Hf Hs]]].
  rewrite (run_analysis_run _ _ _ _ Hf Hs) in Hrun. inversion Hrun; subst.
  unfold analysis_of, frame_at in Hrows. simpl in Hrows.
  rewrite nth_error_new in Hrows. inversion Hrows; subst. eauto.
Qed.

(* ------------------------------------------------------------------ *)
(** ** The small system: its analysis *)

Lemma example_run_analysis :
  run_analysis example_system example_store =
  Some (example_analysed_system, example_analysed_store).
Proof. vm_compute. reflexivity. Qed.

(* ------------------------------------------------------------------ *)
(** ** Properties of the analysis table *)

(** C8. Branch-level broadcast: in the table stored by [run_analysis], two
    rows with the same product_id and branch_id have the same
    total_stock_available, total_forecast_at_branch, branch_net_need and
    allocation_status. *)
Theorem analysis_branch_broadcast self h self' h' rows r1 r2 :
  run_analysis self h = Some (self', h') ->
  analysis_of self' h' = Some rows ->
  In r1 rows -> In r2 rows ->
  Analysis.product_id r1 = Analysis.product_id r2 ->
  Analysis.branch_id r1 = Analysis.branch_id r2 ->
  Analysis.total_stock_available r1 = Analysis.total_stock_available r2 /\
  Analysis.total_forecast_at_branch r1 = Analysis.total_forecast_at_branch r2 /\
  Analysis.branch_net_need r1 = Analysis.branch_net_need r2 /\
  Analysis.allocation_status r1 = Analysis.allocation_status r2.
Proof.
  intros Hrun Hrows H1 H2 Ep Eb.
  destruct (run_analysis_result _ _ _ _ _ Hrun Hrows)
    as [forecast [stock [_ [_ ->]]]].
  apply analysis_table_In in H1. apply analysis_table_In in H2.
  destruct H1 as [c1 [q1 [_ E1]]]. destruct H2 as [c2 [q2 [_ E2]]].
  cbv zeta in E1, E2. rewrite <- Ep, <- Eb in E2.
  rewrite E1, E2. simpl. auto.
Qed.

Lemma analysis_branch_broadcast_witness :
  Analysis.total_stock_available (Analysis.mk 1 1 1 100 30 150 120 ALLOCATION_NEEDED) =
  Analysis.total_stock_available (Analysis.mk 1 1 2 50 30 150 120 ALLOCATION_NEEDED) /\
  Analysis.total_forecast_at_branch (Analysis.mk 1 1 1 100 30 150 120 ALLOCATION_NEEDED) =
  Analysis.total_forecast_at_branch (Analysis.mk 1 1 2 50 30 150 120 ALLOCATION_NEEDED) /\
  Analysis.branch_net_need (Analysis.mk 1 1 1 100 30 150 120 ALLOCATION_NEEDED) =
  Analysis.branch_net_need (Analysis.mk 1 1 2 50 30 150 120 ALLOCATION_NEEDED) /\
  Analysis.allocation_status (Analysis.mk 1 1 1 100 30 150 120 ALLOCATION_NEEDED) =
  Analysis.allocation_status (Analysis.mk 1 1 2 50 30 150 120 ALLOCATION_NEEDED).
Proof.
  apply (analysis_branch_broadcast example_system example_store
           example_analysed_system example_analysed_store example_analysis).
  - vm_compute. reflexivity.
  - vm_compute. reflexivity.
  - simpl. auto.
  - simpl. auto.
  - reflexivity.
  - reflexivity.
Defined.

(** C9. Status classification: a row of the table stored by [run_analysis]
    has status "Allocation Needed" exactly when its branch_net_need is
    positive, "No Allocation Needed" exactly when it is zero, and "Overstock"
    exactly when it is negative. *)
Theorem status_classification self h self' h' rows r :
  run_analysis self h = Some (self', h') ->
  analysis_of self' h' = Some rows ->
  In r rows ->
  (Analysis.allocation_status r = ALLOCATION_NEEDED
   <-> 0 < Analysis.branch_net_need r) /\
  (Analysis.allocation_status r = NO_ALLOCATION_NEEDED
   <-> Analysis.branch_net_need r = 0) /\
  (Analysis.allocation_status r = OVERSTOCK
   <-> Analysis.branch_net_need r < 0).
Proof.
  intros Hrun Hrows Hr.
  destruct (run_analysis_result _ _ _ _ _ Hrun Hrows)
    as [forecast [stock [_ [_ ->]]]].
  apply analysis_table_In in Hr. destruct Hr as [c [q [_ E]]].
  cbv zeta in E. rewrite E. simpl.
  split; [apply status_of_needed|].
  split; [apply status_of_no_need | apply status_of_overstock].
Qed.

Lemma status_classification_witness :
  (Analysis.allocation_status (Analysis.mk 2 1 5 0 0 10 10 ALLOCATION_NEEDED)
   = ALLOCATION_NEEDED <-> 0 < 10) /\
  (Analysis.allocation_status (Analysis.mk 2 1 5 0 0 10 10 ALLOCATION_NEEDED)
   = NO_ALLOCATION_NEEDED <-> 10 = 0) /\
  (Analysis.allocation_status (Analysis.mk 2 1 5 0 0 10 10 ALLOCATION_NEEDED)
   = OVERSTOCK <-> 10 < 0).
Proof.
  apply (status_classification example_system example_store
           example_analysed_system example_analysed_store example_analysis
           (Analysis.mk 2 1 5 0 0 10 10 ALLOCATION_NEEDED)).
  - vm_compute. reflexivity.
  - vm_compute. reflexivity.
  - simpl. auto.
Defined.

Lemma analysis_table_destination cw forecast stock stock2 :
  destination_stock cw stock2 = destination_stock cw stock ->
  analysis_table cw forecast stock2 = analysis_table cw forecast stock.
Proof.
  intros E. unfold analysis_table, merged_stock, agg_branch_stock.
  rewrite E. reflexivity.
Qed.

(** C10. Zero-fill left join: a forecast record whose (product_id,
    branch_id) has no destination-branch stock record still has a row in the
    table stored by [run_analysis], with total_stock_available 0 and
    branch_net_need equal to total_forecast_at_branch; and the stock of the
    central warehouse is excluded: the table, and so the
    total_stock_available of every row, is the same for every stock frame
    that has the same rows outside the central warehouse. *)
Theorem zero_fill_left_join self h self' h' rows forecast stock f :
  run_analysis self h = Some (self', h') ->
  analysis_of self' h' = Some rows ->
  forecast_of self h = Some forecast ->
  stock_of self h = Some stock ->
  In f forecast ->
  (forall s, In s stock -> Stock.branch_id (snd s) <> cw_branch_id self ->
             stock_key s <> (Forecast.product_id f, Forecast.branch_id f)) ->
  (exists r, In r rows /\
     Analysis.product_id r = Forecast.product_id f /\
     Analysis.branch_id r = Forecast.branch_id f /\
     Analysis.channel_id r = Forecast.channel_id f /\
     Analysis.total_stock_available r = 0 /\
     Analysis.branch_net_need r = Analysis.total_forecast_at_branch r) /\
  (forall self2 h2 self2' h2' stock2 rows2,
     cw_branch_id self2 = cw_branch_id self ->
     forecast_of self2 h2 = Some forecast ->
     stock_of self2 h2 = Some stock2 ->
     destination_stock (cw_branch_id self) stock2
     = destination_stock (cw_branch_id self) stock ->
     run_analysis self2 h2 = Some (self2', h2') ->
     analysis_of self2' h2' = Some rows2 ->
     rows2 = rows).
Proof.
  intros Hrun Hrows Hf Hs Hin Hno.
  destruct (run_analysis_result _ _ _ _ _ Hrun Hrows)
    as [forecast' [stock' [Hf' [Hs' ->]]]].
  rewrite Hf in Hf'. rewrite Hs in Hs'. inversion Hf'; inversion Hs'; subst.
  clear Hf' Hs'. split.
  - assert (Hq : exists q, In (forecast_key f, q) (agg_forecast forecast')).
    { eexists. unfold agg_forecast. apply groupby_sum_In. split; [|reflexivity].
      rewrite map_map. simpl. apply in_map. exact Hin. }
    destruct Hq as [q Hq].
    rewrite analysis_table_eq.
    eexists. split.
    + apply in_map_iff. exists (forecast_key f, q). split; [reflexivity | exact Hq].
    + unfold forecast_key. rewrite analysis_row_fields. simpl.
      rewrite lookup_agg_branch_stock.
      assert (E0 : destination_stock_total (cw_branch_id self) stock'
                     (Forecast.product_id f, Forecast.branch_id f) = 0).
      { unfold destination_stock_total. rewrite filter_none; [reflexivity|].
        intros s Hs0. destruct (Stock.branch_id (snd s) =? cw_branch_id self) eqn:Eb;
          simpl; [reflexivity|].
        apply Z.eqb_neq in Eb. apply key2_eqb_neq. apply Hno; assumption. }
      rewrite E0. repeat split; try reflexivity. lia.
  - intros self2 h2 self2' h2' stock2 rows2 Hcw Hf2 Hs2 Hd Hrun2 Hrows2.
    destruct (run_analysis_result _ _ _ _ _ Hrun2 Hrows2)
      as [forecast2 [stock2' [Hf2' [Hs2' ->]]]].
    rewrite Hf2 in Hf2'. rewrite Hs2 in Hs2'.
    inversion Hf2'; inversion Hs2'; subst. rewrite Hcw.
    apply analysis_table_destination. exact Hd.
Qed.

Lemma zero_fill_left_join_witness :
  (exists r, In r example_analysis /\
     Analysis.product_id r = 2 /\ Analysis.branch_id r = 1 /\
     Analysis.channel_id r = 6 /\
     Analysis.total_stock_available r = 0 /\
     Analysis.branch_net_need r = Analysis.total_forecast_at_branch r) /\
  (forall self2 h2 self2' h2' stock2 rows2,
     cw_branch_id self2 = cw_branch_id example_system ->
     forecast_of self2 h2 = Some example_forecast ->
     stock_of self2 h2 = Some stock2 ->
     destination_stock (cw_branch_id example_system) stock2
     = destination_stock (cw_branch_id example_system) example_stock ->
     run_analysis self2 h2 = Some (self2', h2') ->
     analysis_of self2' h2' = Some rows2 ->
     rows2 = example_analysis).
Proof.
  apply (zero_fill_left_join example_system example_store
           example_analysed_system example_analysed_store example_analysis
           example_forecast example_stock (Forecast.mk 2 1 6 10)).
  - vm_compute. reflexivity.
  - vm_compute. reflexivity.
  - reflexivity.
  - reflexivity.
  - simpl. auto.
  - intros s Hs Hb Hk. simpl in Hs.
    destruct Hs as [<-|[<-|[<-|[<-|[]]]]];
      vm_compute in Hb, Hk; congruence.
Defined.

(* ------------------------------------------------------------------ *)
(** ** The store computations of the loops *)

Lemma bind_Some {A B : Type} (m : M A) (f : A -> M B) h a h' :
  m h = Some (a, h') -> bind m f h = f a h'.
Proof. unfold bind. intros ->. reflexivity. Qed.

Lemma read_stock_run r (h : Store) rows :
  nth_error h r = Some (StockDF rows) -> read_stock r h = Some (rows, h).
Proof. unfold read_stock, bind, read. intros ->. reflexivity. Qed.

Lemma read_analysis_run r (h : Store) rows :
  nth_error h r = Some (AnalysisDF rows) -> read_analysis r h = Some (rows, h).
Proof. unfold read_analysis, bind, read. intros ->. reflexivity. Qed.

Lemma read_demand_run r (h : Store) rows :
  nth_error h r = Some (DemandDF rows) -> read_demand r h = Some (rows, h).
Proof. unfold read_demand, bind, read. intros ->. reflexivity. Qed.

Lemma write_run r (h : Store) df x :
  nth_error h r = Some x -> write r df h = Some (tt, store_set r df h).
Proof. unfold write. intros ->. reflexivity. Qed.

Lemma loc_sub_rows_labels l take rows :
  map fst (loc_sub_rows l take rows) = map fst rows.
Proof.
  unfold loc_sub_rows. rewrite map_map. apply map_ext.
  intros r. destruct (fst r =? l); reflexivity.
Qed.

Lemma apply_draws_labels draws rows :
  map fst (apply_draws draws rows) = map fst rows.
Proof.
  unfold apply_draws. revert rows.
  induction draws as [|d draws IH]; intros rows; simpl; auto.
  rewrite IH. apply loc_sub_rows_labels.
Qed.

Lemma loc_sub_run r l take (h : Store) rows :
  nth_error h r = Some (StockDF rows) ->
  In l (map fst rows) ->
  loc_sub r l take h =
  Some (tt, store_set r (StockDF (loc_sub_rows l take rows)) h).
Proof.
  intros Hr Hl. unfold loc_sub.
  rewrite (bind_Some _ _ _ _ _ (read_stock_run _ _ _ Hr)).
  replace (existsb (fun r0 => fst r0 =? l) rows) with true.
  - apply (write_run _ _ _ _ Hr).
  - symmetry. apply existsb_exists.
    apply in_map_iff in Hl. destruct Hl as [x [E Hx]].
    exists x. split; [exact Hx | apply Z.eqb_eq; exact E].
Qed.

Lemma fefo_loop_run cw r demand_row qty batches :
  forall fulfilled (h : Store) rows,
    nth_error h r = Some (StockDF rows) ->
    (forall b, In b batches -> In (fst b) (map fst rows)) ->
    fefo_loop cw r demand_row qty batches fulfilled h =
    Some (fefo_draws cw demand_row qty batches fulfilled,
          store_set r
            (StockDF (apply_draws
                        (snd (fefo_draws cw demand_row qty batches fulfilled))
                        rows)) h).
Proof.
  induction batches as [|batch rest IH]; intros fulfilled h rows Hr Hl.
  - simpl. unfold ret. rewrite store_set_same by exact Hr. reflexivity.
  - simpl. destruct (Stock.stock_available (snd batch) =? 0).
    + apply IH; [exact Hr | intros b Hb; apply Hl; right; exact Hb].
    + set (take := Z.min (qty - fulfilled) (Stock.stock_available (snd batch))).
      rewrite (bind_Some _ _ _ _ _
                 (loc_sub_run r (fst batch) take h rows Hr
                    (Hl batch (or_introl eq_refl)))).
      destruct (fulfilled + take =? qty).
      * unfold ret. reflexivity.
      * erewrite bind_Some.
        2:{ apply IH with (rows := loc_sub_rows (fst batch) take rows).
            - apply (nth_error_store_set_eq _ _ _ _ Hr).
            - intros b Hb. rewrite loc_sub_rows_labels. apply Hl. right. exact Hb. }
        rewrite store_set_set. unfold ret.
        destruct (fefo_draws cw demand_row qty rest (fulfilled + take)); reflexivity.
Qed.

Lemma filter_labels (f : Z * Stock.row -> bool) rows b :
  In b (filter f rows) -> In (fst b) (map fst rows).
Proof. intros H. apply filter_In in H. apply in_map. tauto. Qed.

Lemma process_demand_row_run cw today rules r demand_row tracker (h : Store) rows :
  nth_error h r = Some (StockDF rows) ->
  process_demand_row cw today rules r demand_row tracker h =
  match process_line cw today rules rows demand_row tracker with
  | Some (t, ds) =>
      Some ((t, ds), store_set r (StockDF (apply_draws ds rows)) h)
  | None => None
  end.
Proof.
  intros Hr. unfold process_demand_row, process_line. cbv zeta.
  destruct (dict_get key2_eqb tracker (demand_key demand_row) 0 <=? 0).
  - unfold ret. simpl. rewrite store_set_same by exact Hr. reflexivity.
  - rewrite (bind_Some _ _ _ _ _ (read_stock_run _ _ _ Hr)).
    match goal with |- context [filter ?f rows] => set (available := filter f rows) end.
    assert (Hl : forall b, In b available -> In (fst b) (map fst rows))
      by (intros b; apply filter_labels).
    destruct available as [|b0 bs] eqn:Ea.
    + unfold ret. simpl. rewrite store_set_same by exact Hr. reflexivity.
    + rewrite (bind_Some _ _ _ _ _ (fefo_loop_run cw r demand_row _ _ 0 h rows Hr Hl)).
      match goal with |- context [fefo_draws ?a ?b ?c ?d ?e] =>
        destruct (fefo_draws a b c d e) as [f ds] end.
      simpl. unfold bind, lift, ret.
      destruct (dict_sub key2_eqb tracker (demand_key demand_row) f); reflexivity.
Qed.

Lemma apply_draws_app ds1 ds2 rows :
  apply_draws (ds1 ++ ds2) rows = apply_draws ds2 (apply_draws ds1 rows).
Proof. unfold apply_draws. apply fold_left_app. Qed.

Lemma demand_loop_run cw today rules r lines :
  forall tracker (h : Store) rows,
    nth_error h r = Some (StockDF rows) ->
    demand_loop cw today rules r lines tracker h =
    match run_lines cw today rules rows lines tracker with
    | Some (final, log) =>
        Some ((final, log),
              store_set r (StockDF (apply_draws (List.concat (map snd log)) rows)) h)
    | None => None
    end.
Proof.
  induction lines as [|l rest IH]; intros tracker h rows Hr.
  - simpl. unfold ret. rewrite store_set_same by exact Hr. reflexivity.
  - simpl. unfold bind at 1. rewrite (process_demand_row_run _ _ _ _ _ _ _ _ Hr).
    destruct (process_line cw today rules rows l tracker) as [[t ds]|]; [|reflexivity].
    unfold bind at 1.
    rewrite (IH t _ (apply_draws ds rows) (nth_error_store_set_eq _ _ _ _ Hr)).
    destruct (run_lines cw today rules (apply_draws ds rows) rest t)
      as [[final log]|]; [|reflexivity].
    unfold ret. simpl. rewrite store_set_set, apply_draws_app. reflexivity.
Qed.

Lemma unfulfilled_loop_run a (h : Store) analysis items :
  frame_at a h = Some (AnalysisDF analysis) ->
  unfulfilled_loop a items h =
  option_map (fun rows => (rows, h)) (unfulfilled_rows analysis items).
Proof.
  unfold frame_at. intros Ha.
  destruct a as [a|]; [|discriminate].
  induction items as [|[k v] rest IH]; simpl; [reflexivity|].
  destruct (0 <? v); [|exact IH].
  unfold attr, lift. unfold bind at 1.
  rewrite (bind_Some _ _ _ _ _ (read_analysis_run _ _ _ Ha)).
  unfold bind at 1.
  destruct (iloc0 (map Analysis.branch_net_need (branch_rows k analysis)));
    [|reflexivity].
  unfold bind at 1. rewrite IH.
  destruct (unfulfilled_rows analysis rest); reflexivity.
Qed.

Lemma nth_error_app_offset (h l : Store) (i : nat) :
  nth_error (h ++ l) (List.length h + i)%nat = nth_error l i.
Proof.
  rewrite nth_error_app2 by lia. f_equal. lia.
Qed.

Lemma store_set_app_offset (h l : Store) (i : nat) df :
  store_set (List.length h + i)%nat df (h ++ l) = h ++ store_set i df l.
Proof.
  induction h as [|x h IH]; simpl.
  - reflexivity.
  - destruct l; simpl; rewrite IH; reflexivity.
Qed.

Lemma frame_at_app a (h l : Store) df :
  frame_at a h = Some df -> frame_at a (h ++ l) = Some df.
Proof.
  unfold frame_at. destruct a as [r|]; [|discriminate].
  intros E. rewrite nth_error_app1; [exact E | eapply nth_error_bound; exact E].
Qed.

Lemma analysis_of_app self (h l : Store) rows :
  analysis_of self h = Some rows -> analysis_of self (h ++ l) = Some rows.
Proof.
  unfold analysis_of. destruct (frame_at (analysis_df self) h) as [df|] eqn:E;
    [|discriminate].
  rewrite (frame_at_app _ _ l _ E). auto.
Qed.

Lemma stock_of_app self (h l : Store) rows :
  stock_of self h = Some rows -> stock_of self (h ++ l) = Some rows.
Proof.
  unfold stock_of. destruct (frame_at (stock_df self) h) as [df|] eqn:E;
    [|discriminate].
  rewrite (frame_at_app _ _ l _ E). auto.
Qed.

Lemma demand_rows_have_ranks pc pb analysis :
  forallb has_ranks (demand_rows_of pc pb analysis) = true.
Proof.
  unfold demand_rows_of. apply forallb_forall. intros d Hd.
  apply in_map_iff in Hd. destruct Hd as [d1 [<- Hd1]].
  apply in_map_iff in Hd1. destruct Hd1 as [d0 [<- Hd0]]. reflexivity.
Qed.

Lemma nth_error_old_app (h l : Store) r x :
  nth_error h r = Some x -> nth_error (h ++ l) r = Some x.
Proof.
  intros E. rewrite nth_error_app1; [exact E | eapply nth_error_bound; exact E].
Qed.

Lemma bind_new_frame {B : Type} df (f : ref -> M B) (h l : Store) :
  bind (new_frame df) f (h ++ l) =
  f (List.length h + List.length l)%nat (h ++ (l ++ [df])).
Proof.
  unfold bind, new_frame. rewrite length_app, app_assoc. reflexivity.
Qed.

Lemma bind_read_demand {B : Type} (f : list Demand.row -> M B) (h l : Store) i rows :
  nth_error l i = Some (DemandDF rows) ->
  bind (read_demand (List.length h + i)%nat) f (h ++ l) = f rows (h ++ l).
Proof.
  intros E. apply bind_Some. apply read_demand_run.
  rewrite nth_error_app_offset. exact E.
Qed.

Lemma bind_read_stock_new {B : Type} (f : list (Z * Stock.row) -> M B)
    (h l : Store) i rows :
  nth_error l i = Some (StockDF rows) ->
  bind (read_stock (List.length h + i)%nat) f (h ++ l) = f rows (h ++ l).
Proof.
  intros E. apply bind_Some. apply read_stock_run.
  rewrite nth_error_app_offset. exact E.
Qed.

Lemma bind_assign_column {B : Type} (k : unit -> M B) (h l : Store) i f rows :
  nth_error l i = Some (DemandDF rows) ->
  bind (assign_column (List.length h + i)%nat f) k (h ++ l) =
  k tt (h ++ store_set i (DemandDF (map f rows)) l).
Proof.
  intros E. unfold assign_column. erewrite bind_Some.
  2:{ erewrite bind_read_demand by exact E.
      apply write_run with (x := DemandDF rows).
      rewrite nth_error_app_offset. exact E. }
  rewrite store_set_app_offset. reflexivity.
Qed.

Lemma run_allocation_run pc pb rules today self (h : Store) analysis stock :
  analysis_of self h = Some analysis ->
  stock_of self h = Some stock ->
  let n := List.length h in
  let cw := cw_branch_id self in
  run_allocation pc pb rules today self h =
  match allocate pc pb rules today cw analysis stock with
  | Some (t, unfulfilled) =>
      Some ((set_allocation_results self (n + 2)%nat (n + 3)%nat (n + 4)%nat, t),
            h ++ [DemandDF (demand_rows_of pc pb analysis);
                  StockDF (cw_rows_after cw stock t);
                  PlanDF (map record (all_draws t));
                  UnfulfilledDF unfulfilled;
                  StockDF (positive_stock (cw_rows_after cw stock t))])
  | None => None
  end.
Proof.
  intros Ha Hs n cw. subst n.
  assert (Ha' := Ha). assert (Hs' := Hs).
  unfold analysis_of in Ha'. unfold stock_of in Hs'.
  destruct (frame_at (analysis_df self) h) as [[]|] eqn:Ea; try discriminate.
  destruct (frame_at (stock_df self) h) as [[]|] eqn:Es; try discriminate.
  inversion Ha'; inversion Hs'; subst rows rows0. clear Ha' Hs'.
  assert (Ea' := Ea). assert (Es' := Es). unfold frame_at in Ea', Es'.
  destruct (analysis_df self) as [a|] eqn:Eattr_a; [|discriminate].
  destruct (stock_df self) as [s|] eqn:Eattr_s; [|discriminate].
  unfold run_allocation. fold cw. rewrite Eattr_s.
  unfold attr, lift. unfold bind at 1. rewrite Eattr_a at 1.
  rewrite (bind_Some _ _ _ _ _ (read_analysis_run _ _ _ Ea')).
  rewrite <- (app_nil_r h) at 1.
  rewrite bind_new_frame. simpl List.length. simpl app at 1.
  erewrite bind_assign_column by reflexivity. simpl store_set.
  erewrite bind_assign_column by reflexivity. simpl store_set.
  erewrite bind_read_demand by reflexivity.
  fold (demand_rows_of pc pb analysis).
  unfold sort_by_priority. rewrite demand_rows_have_ranks.
  unfold bind at 1. unfold bind at 1.
  rewrite (bind_Some _ _ _ _ _
             (read_stock_run _ _ _ (nth_error_old_app _ _ _ _ Es'))).
  rewrite bind_new_frame. simpl List.length. simpl app at 1.
  fold (cw_rows_of cw stock).
  erewrite bind_read_demand by reflexivity.
  fold (tracker_of (demand_rows_of pc pb analysis)).
  unfold bind at 1.
  rewrite demand_loop_run with (rows := cw_rows_of cw stock)
    by (rewrite nth_error_app_offset; reflexivity).
  unfold allocate. cbv zeta.
  destruct (run_lines cw today rules (cw_rows_of cw stock)
              (sort_values demand_leb (demand_rows_of pc pb analysis))
              (tracker_of (demand_rows_of pc pb analysis)))
    as [[tracker log]|]; [|reflexivity].
  rewrite store_set_app_offset. simpl store_set.
  unfold bind at 1.
  rewrite unfulfilled_loop_run with (analysis := analysis)
    by (rewrite Eattr_a; apply frame_at_app; exact Ea).
  destruct (unfulfilled_rows analysis tracker) as [unfulfilled|]; [|reflexivity].
  simpl option_map. cbv iota beta.
  rewrite bind_new_frame. simpl List.length. simpl app at 1.
  rewrite bind_new_frame. simpl List.length. simpl app at 1.
  erewrite bind_read_stock_new by reflexivity.
  rewrite bind_new_frame. simpl List.length. simpl app at 1.
  unfold ret. reflexivity.
Qed.

(* ------------------------------------------------------------------ *)
(** ** The tracker *)

Lemma dict_sub_get (d d' : list (key2 * Z)) k x k' :
  dict_sub key2_eqb d k x = Some d' ->
  dict_get key2_eqb d' k' 0 =
  if key2_eqb k k' then dict_get key2_eqb d k 0 - x
  else dict_get key2_eqb d k' 0.
Proof.
  revert d'. induction d as [|[k0 v] d IH]; intros d'; simpl; [discriminate|].
  destruct (key2_eqb k0 k) eqn:E0.
  - intros E; inversion E; subst. apply key2_eqb_eq in E0; subst k0. simpl.
    destruct (key2_eqb k k'); reflexivity.
  - destruct (dict_sub key2_eqb d k x) as [d1|]; [|discriminate].
    simpl. intros E; inversion E; subst. simpl.
    destruct (key2_eqb k0 k') eqn:E1.
    + apply key2_eqb_eq in E1; subst k0.
      destruct (key2_eqb k k') eqn:E2; [|reflexivity].
      apply key2_eqb_eq in E2; subst k'. rewrite key2_eqb_refl in E0. discriminate.
    + apply (IH d1 eq_refl).
Qed.

Lemma dict_sub_keys (d d' : list (key2 * Z)) k x :
  dict_sub key2_eqb d k x = Some d' -> map fst d' = map fst d.
Proof.
  revert d'. induction d as [|[k0 v] d IH]; intros d'; simpl; [discriminate|].
  destruct (key2_eqb k0 k).
  - intros E; inversion E; reflexivity.
  - destruct (dict_sub key2_eqb d k x) as [d1|]; [|discriminate].
    simpl. intros E; inversion E; subst. simpl. f_equal. apply IH. reflexivity.
Qed.

(** A key with a non-zero value is a key of the dict. *)
Lemma dict_sub_defined (d : list (key2 * Z)) k x :
  dict_get key2_eqb d k 0 <> 0 -> exists d', dict_sub key2_eqb d k x = Some d'.
Proof.
  induction d as [|[k0 v] d IH]; simpl; [congruence|].
  destruct (key2_eqb k0 k); [eauto|].
  intros H. destruct (IH H) as [d' ->]. simpl. eauto.
Qed.

Lemma dict_get_In (d : list (key2 * Z)) k :
  In k (map fst d) -> In (k, dict_get key2_eqb d k 0) d.
Proof.
  induction d as [|[k0 v] d IH]; simpl; [tauto|].
  destruct (key2_eqb k0 k) eqn:E.
  - apply key2_eqb_eq in E; subst. auto.
  - intros [->|H]; [rewrite key2_eqb_refl in E; discriminate | auto].
Qed.

Lemma dict_get_unique (d : list (key2 * Z)) k v :
  NoDup (map fst d) -> In (k, v) d -> dict_get key2_eqb d k 0 = v.
Proof.
  induction d as [|[k0 v0] d IH]; simpl; [tauto|].
  intros Hnd Hin. inversion Hnd as [|? ? Hk Hnd']; subst.
  destruct (key2_eqb k0 k) eqn:E.
  - apply key2_eqb_eq in E; subst k0. destruct Hin as [Hin|Hin].
    + inversion Hin; reflexivity.
    + exfalso. apply Hk. apply (in_map fst) in Hin. exact Hin.
  - destruct Hin as [Hin|Hin].
    + inversion Hin; subst. rewrite key2_eqb_refl in E. discriminate.
    + apply IH; assumption.
Qed.

(* ------------------------------------------------------------------ *)
(** ** The loop over the batches *)

Lemma total_app l1 l2 : total (l1 ++ l2) = total l1 + total l2.
Proof. unfold total. induction l1; simpl; lia. Qed.

Lemma fefo_draws_fulfilled cw row qty batches :
  forall f,
    fst (fefo_draws cw row qty batches f) =
    f + total (map taken (snd (fefo_draws cw row qty batches f))).
Proof.
  induction batches as [|b rest IH]; intros f; simpl.
  - unfold total; simpl; lia.
  - destruct (Stock.stock_available (snd b) =? 0); [apply IH|].
    set (take := Z.min (qty - f) (Stock.stock_available (snd b))).
    destruct (f + take =? qty); simpl.
    + unfold total, taken; simpl. lia.
    + rewrite IH. unfold total, taken; simpl. lia.
Qed.

Lemma fefo_draws_le_max cw row qty batches :
  forall f, fst (fefo_draws cw row qty batches f) <= Z.max f qty.
Proof.
  induction batches as [|b rest IH]; intros f; simpl; [lia|].
  destruct (Stock.stock_available (snd b) =? 0); [apply IH|].
  set (take := Z.min (qty - f) (Stock.stock_available (snd b))).
  assert (f + take <= qty) by (unfold take; lia).
  destruct (f + take =? qty); simpl; [lia|].
  specialize (IH (f + take)). lia.
Qed.

(** Every record of the loop is built from one of the batches. *)
Lemma fefo_draws_In cw row qty batches d :
  forall f,
    In d (snd (fefo_draws cw row qty batches f)) ->
    exists b, In b batches /\ d = draw_of cw row b (taken d).
Proof.
  induction batches as [|b rest IH]; intros f; simpl; [tauto|].
  destruct (Stock.stock_available (snd b) =? 0).
  - intros H. destruct (IH _ H) as [b' [Hb' E]]. eauto.
  - set (take := Z.min (qty - f) (Stock.stock_available (snd b))).
    destruct (f + take =? qty); simpl.
    + intros [<-|[]]. exists b. auto.
    + intros [<-|H]; [exists b; auto|].
      destruct (IH _ H) as [b' [Hb' E]]. eauto.
Qed.

(** The records follow the order of the batches. *)
Lemma fefo_draws_sorted cw row qty batches :
  forall f,
    StronglySorted Z.le (map (fun b => Stock.expiry_date (snd b)) batches) ->
    StronglySorted Z.le
      (map (fun d => Alloc.expiry_date (record d))
           (snd (fefo_draws cw row qty batches f))).
Proof.
  induction batches as [|b rest IH]; intros f Hs; simpl; [constructor|].
  simpl in Hs. inversion Hs as [|? ? Hrest Hall]; subst.
  destruct (Stock.stock_available (snd b) =? 0); [apply IH; exact Hrest|].
  set (take := Z.min (qty - f) (Stock.stock_available (snd b))).
  destruct (f + take =? qty); simpl.
  - repeat constructor.
  - constructor; [apply IH; exact Hrest|].
    rewrite Forall_forall in *. intros e He.
    apply in_map_iff in He. destruct He as [d [<- Hd]].
    destruct (fefo_draws_In _ _ _ _ _ _ Hd) as [b' [Hb' ->]]. simpl.
    apply Hall. apply in_map_iff. exists b'. auto.
Qed.

Lemma drawn_from_app l ds1 ds2 :
  drawn_from l (ds1 ++ ds2) = drawn_from l ds1 + drawn_from l ds2.
Proof. unfold drawn_from. rewrite filter_app, map_app. apply total_app. Qed.

Lemma drawn_from_cons l d ds :
  drawn_from l (d :: ds) =
  (if batch_idx d =? l then taken d else 0) + drawn_from l ds.
Proof.
  unfold drawn_from. simpl. destruct (batch_idx d =? l); reflexivity.
Qed.

Lemma fefo_draws_other cw row qty batches l :
  forall f,
    ~ In l (map fst batches) ->
    drawn_from l (snd (fefo_draws cw row qty batches f)) = 0.
Proof.
  induction batches as [|b rest IH]; intros f Hl; simpl; [reflexivity|].
  simpl in Hl.
  assert (Hb : (fst b =? l) = false) by (apply Z.eqb_neq; tauto).
  assert (Hr : ~ In l (map fst rest)) by tauto.
  destruct (Stock.stock_available (snd b) =? 0); [apply IH; exact Hr|].
  set (take := Z.min (qty - f) (Stock.stock_available (snd b))).
  destruct (f + take =? qty); simpl; rewrite drawn_from_cons; simpl; rewrite Hb.
  - reflexivity.
  - rewrite IH by exact Hr. reflexivity.
Qed.

(** From a batch with non-negative stock the loop draws at most that stock:
    a take is never more than the stock of the batch it is taken from. *)
Lemma fefo_draws_bounded cw row qty batches l s :
  forall f,
    NoDup (map fst batches) ->
    In (l, s) batches ->
    0 <= Stock.stock_available s ->
    drawn_from l (snd (fefo_draws cw row qty batches f))
    <= Stock.stock_available s.
Proof.
  induction batches as [|b rest IH]; intros f Hnd Hin Hs; simpl; [destruct Hin|].
  simpl in Hnd. inversion Hnd as [|? ? Hb Hnd']; subst.
  set (take := Z.min (qty - f) (Stock.stock_available (snd b))).
  destruct Hin as [->|Hin].
  - simpl in *. destruct (Stock.stock_available s =? 0) eqn:E0.
    + rewrite fefo_draws_other by exact Hb. lia.
    + fold take. destruct (f + take =? qty); simpl;
        rewrite drawn_from_cons; simpl; rewrite Z.eqb_refl.
      * unfold drawn_from, total, taken; simpl. unfold take. lia.
      * rewrite fefo_draws_other by exact Hb. unfold taken; simpl.
        unfold take. lia.
  - assert (Hne : (fst b =? l) = false).
    { apply Z.eqb_neq. intros E. apply Hb. rewrite E.
      apply (in_map fst) in Hin. exact Hin. }
    destruct (Stock.stock_available (snd b) =? 0); [apply IH; assumption|].
    destruct (f + take =? qty); simpl; rewrite drawn_from_cons; simpl; rewrite Hne.
    + unfold drawn_from, total; simpl. lia.
    + apply IH; assumption.
Qed.

Lemma set_stock_available_same (s : Stock.row) :
  Stock.set_stock_available (Stock.stock_available s) s = s.
Proof. destruct s; reflexivity. Qed.

(** The frame after a list of draws: every row keeps its place, label,
    product and expiry date, and loses what was drawn under its label. *)
Lemma apply_draws_map draws :
  forall rows,
    apply_draws draws rows =
    map (fun r => (fst r,
                   Stock.set_stock_available
                     (Stock.stock_available (snd r) - drawn_from (fst r) draws)
                     (snd r))) rows.
Proof.
  induction draws as [|d draws IH]; intros rows.
  - simpl. rewrite <- (map_id rows) at 1. apply map_ext.
    intros [l s]. simpl. unfold drawn_from, total; simpl.
    rewrite Z.sub_0_r, set_stock_available_same. reflexivity.
  - change (apply_draws (d :: draws) rows)
      with (apply_draws draws (loc_sub_rows (batch_idx d) (taken d) rows)).
    rewrite IH. unfold loc_sub_rows. rewrite map_map. apply map_ext.
    intros [l s]. rewrite drawn_from_cons. simpl.
    destruct (l =? batch_idx d) eqn:E.
    + apply Z.eqb_eq in E. subst l. rewrite Z.eqb_refl. simpl.
      unfold Stock.set_stock_available; simpl. f_equal. f_equal; lia.
    + rewrite Z.eqb_sym, E. simpl. reflexivity.
Qed.

Lemma apply_draws_keys draws rows :
  map (fun b => (Stock.product_id (snd b), Stock.expiry_date (snd b)))
      (apply_draws draws rows) =
  map (fun b => (Stock.product_id (snd b), Stock.expiry_date (snd b))) rows.
Proof. rewrite apply_draws_map, map_map. reflexivity. Qed.

Lemma apply_draws_In draws rows l s :
  In (l, s) rows ->
  In (l, Stock.set_stock_available
           (Stock.stock_available s - drawn_from l draws) s)
     (apply_draws draws rows).
Proof.
  intros H. rewrite apply_draws_map. apply in_map_iff.
  exists (l, s). auto.
Qed.

Lemma apply_draws_In_inv draws rows l s' :
  In (l, s') (apply_draws draws rows) ->
  exists s, In (l, s) rows /\
    s' = Stock.set_stock_available
           (Stock.stock_available s - drawn_from l draws) s.
Proof.
  rewrite apply_draws_map, in_map_iff. intros [[l0 s] [E H]].
  simpl in E. inversion E; subst. eauto.
Qed.

(* ------------------------------------------------------------------ *)
(** ** One demand line *)

Lemma process_line_cases cw today rules rows row tracker t ds :
  process_line cw today rules rows row tracker = Some (t, ds) ->
  (t = tracker /\ ds = []) \/
  (0 < dict_get key2_eqb tracker (demand_key row) 0 /\
   exists qty available,
     qty = Z.min (Analysis.forecast_quantity (Demand.line row))
                 (dict_get key2_eqb tracker (demand_key row) 0) /\
     available =
       filter (eligible (Analysis.product_id (Demand.line row))
                 (required_expiry today rules
                    (Analysis.channel_id (Demand.line row)))) rows /\
     available <> [] /\
     ds = snd (fefo_draws cw row qty available 0) /\
     dict_sub key2_eqb tracker (demand_key row)
              (fst (fefo_draws cw row qty available 0)) = Some t).
Proof.
  unfold process_line. cbv zeta.
  destruct (dict_get key2_eqb tracker (demand_key row) 0 <=? 0) eqn:E.
  - intros H; inversion H; auto.
  - apply Z.leb_gt in E.
    match goal with |- context [filter ?f rows] => set (available := filter f rows) end.
    destruct available as [|b bs] eqn:Ea.
    + intros H; inversion H; auto.
    + intros H. right. split; [exact E|].
      match type of H with
      | option_map _ (dict_sub _ _ _ (fst ?res)) = _ =>
          destruct (dict_sub key2_eqb tracker (demand_key row) (fst res))
            as [t'|] eqn:Ed; [|discriminate]
      end.
      simpl in H. inversion H; subst.
      eexists. exists (b :: bs). repeat split; try reflexivity.
      * discriminate.
      * exact Ed.
Qed.

Lemma process_line_defined cw today rules rows row tracker :
  exists res, process_line cw today rules rows row tracker = Some res.
Proof.
  unfold process_line. cbv zeta.
  destruct (dict_get key2_eqb tracker (demand_key row) 0 <=? 0) eqn:E; [eauto|].
  apply Z.leb_gt in E.
  match goal with |- context [filter ?f rows] => destruct (filter f rows) as [|b bs] end;
    [eauto|].
  match goal with
  | |- context [dict_sub _ _ _ ?x] =>
      destruct (dict_sub_defined tracker (demand_key row) x) as [d' ->]; [lia|]
  end.
  simpl. eauto.
Qed.

(** A line without an eligible batch changes nothing. *)
Lemma process_line_skip cw today rules rows row tracker :
  (forall b, In b rows ->
     eligible (Analysis.product_id (Demand.line row))
       (required_expiry today rules (Analysis.channel_id (Demand.line row))) b
     = false) ->
  process_line cw today rules rows row tracker = Some (tracker, []).
Proof.
  intros H. unfold process_line. cbv zeta.
  destruct (dict_get key2_eqb tracker (demand_key row) 0 <=? 0); [reflexivity|].
  rewrite filter_none by exact H. reflexivity.
Qed.

Lemma allocated_to_app k p1 p2 :
  allocated_to k (p1 ++ p2) = allocated_to k p1 + allocated_to k p2.
Proof. unfold allocated_to. rewrite filter_app, map_app. apply total_app. Qed.

Lemma allocated_to_cons k a plan :
  allocated_to k (a :: plan) =
  (if key2_eqb (Alloc.product_id a, Alloc.to_branch a) k
   then Alloc.quantity_allocated a else 0) + allocated_to k plan.
Proof.
  unfold allocated_to, key2_eqb. simpl.
  destruct ((Alloc.product_id a =? fst k) && (Alloc.to_branch a =? snd k));
    reflexivity.
Qed.

Lemma allocated_to_line k row ds :
  (forall d, In d ds ->
     Alloc.product_id (record d) = fst (demand_key row) /\
     Alloc.to_branch (record d) = snd (demand_key row)) ->
  allocated_to k (map record ds) =
  if key2_eqb (demand_key row) k then total (map taken ds) else 0.
Proof.
  intros H. induction ds as [|d ds IH].
  - simpl. destruct (key2_eqb (demand_key row) k); reflexivity.
  - cbn [map]. rewrite allocated_to_cons.
    destruct (H d (or_introl eq_refl)) as [Ep Eb].
    rewrite Ep, Eb, <- surjective_pairing.
    rewrite IH by (intros; apply H; right; assumption).
    destruct (key2_eqb (demand_key row) k); unfold total, taken; simpl; lia.
Qed.

Lemma process_line_records cw today rules rows row tracker t ds :
  process_line cw today rules rows row tracker = Some (t, ds) ->
  line_records cw today rules row ds.
Proof.
  intros H. apply process_line_cases in H.
  destruct H as [[_ ->]|[_ [qty [available [_ [Ea [_ [-> _]]]]]]]].
  - intros d [].
  - intros d Hd. apply fefo_draws_In in Hd. destruct Hd as [b [Hb ->]].
    subst available. apply filter_In in Hb. destruct Hb as [_ Hb].
    unfold eligible in Hb. apply andb_true_iff in Hb. destruct Hb as [_ Hb].
    apply Z.leb_le in Hb. simpl. auto.
Qed.

Lemma process_line_tracker cw today rules rows row tracker t ds k :
  process_line cw today rules rows row tracker = Some (t, ds) ->
  dict_get key2_eqb t k 0 =
  dict_get key2_eqb tracker k 0 - allocated_to k (map record ds).
Proof.
  intros H. assert (Hrec := process_line_records _ _ _ _ _ _ _ _ H).
  apply process_line_cases in H.
  destruct H as [[-> ->]|[_ [qty [available [_ [_ [_ [Eds Hsub]]]]]]]].
  - unfold allocated_to, total; simpl. lia.
  - rewrite (dict_sub_get _ _ _ _ k Hsub).
    rewrite (allocated_to_line k row ds).
    + rewrite fefo_draws_fulfilled, <- Eds.
      destruct (key2_eqb (demand_key row) k) eqn:E.
      * apply key2_eqb_eq in E. subst k. lia.
      * lia.
    + intros d Hd. destruct (Hrec d Hd) as [Ep [_ [Eb _]]]. auto.
Qed.

Lemma process_line_keys cw today rules rows row tracker t ds :
  process_line cw today rules rows row tracker = Some (t, ds) ->
  map fst t = map fst tracker.
Proof.
  intros H. apply process_line_cases in H.
  destruct H as [[-> _]|[_ [qty [available [_ [_ [_ [_ Hsub]]]]]]]];
    [reflexivity | apply (dict_sub_keys _ _ _ _ Hsub)].
Qed.

(** The remaining need of a branch never becomes negative. *)
Lemma process_line_nonneg cw today rules rows row tracker t ds :
  process_line cw today rules rows row tracker = Some (t, ds) ->
  (forall k, 0 <= dict_get key2_eqb tracker k 0) ->
  forall k, 0 <= dict_get key2_eqb t k 0.
Proof.
  intros H Hpos k. apply process_line_cases in H.
  destruct H as [[-> _]|[Hrem [qty [available [Eq [_ [_ [_ Hsub]]]]]]]];
    [apply Hpos|].
  rewrite (dict_sub_get _ _ _ _ k Hsub).
  destruct (key2_eqb (demand_key row) k); [|apply Hpos].
  assert (fst (fefo_draws cw row qty available 0) <= Z.max 0 qty)
    by apply fefo_draws_le_max.
  lia.
Qed.

(* ------------------------------------------------------------------ *)
(** ** The loop over the demand lines *)

Lemma run_lines_defined cw today rules lines :
  forall rows tracker,
    exists res, run_lines cw today rules rows lines tracker = Some res.
Proof.
  induction lines as [|row rest IH]; intros rows tracker; simpl; [eauto|].
  destruct (process_line_defined cw today rules rows row tracker) as [[t ds] ->].
  destruct (IH (apply_draws ds rows) t) as [[final log] ->]. eauto.
Qed.

Lemma run_lines_lines cw today rules lines :
  forall rows tracker final log,
    run_lines cw today rules rows lines tracker = Some (final, log) ->
    map fst log = lines.
Proof.
  induction lines as [|row rest IH]; intros rows tracker final log; simpl.
  - intros H; inversion H; reflexivity.
  - destruct (process_line cw today rules rows row tracker) as [[t ds]|];
      [|discriminate].
    destruct (run_lines cw today rules (apply_draws ds rows) rest t)
      as [[final' log']|] eqn:E; [|discriminate].
    intros H; inversion H; subst. simpl. f_equal. eapply IH. exact E.
Qed.

(** A property of the records of each line that holds whatever the tracker
    is, under an invariant of the stock frame that draws preserve. *)
Lemma run_lines_invariant cw today rules
    (I : list (Z * Stock.row) -> Prop) (Q : Demand.row -> list Draw -> Prop) :
  (forall rows ds, I rows -> I (apply_draws ds rows)) ->
  (forall rows row tracker t ds,
     I rows -> process_line cw today rules rows row tracker = Some (t, ds) ->
     Q row ds) ->
  forall lines rows tracker final log,
    I rows ->
    run_lines cw today rules rows lines tracker = Some (final, log) ->
    forall d ds, In (d, ds) log -> Q d ds.
Proof.
  intros HI HQ. induction lines as [|row rest IH];
    intros rows tracker final log Hrows; simpl.
  - intros H; inversion H; subst. intros d ds [].
  - destruct (process_line cw today rules rows row tracker) as [[t ds0]|] eqn:Ep;
      [|discriminate].
    destruct (run_lines cw today rules (apply_draws ds0 rows) rest t)
      as [[final' log']|] eqn:E; [|discriminate].
    intros H; inversion H; subst. intros d ds [Hd|Hd].
    + inversion Hd; subst. eapply HQ; eassumption.
    + eapply IH; [apply HI; exact Hrows | exact E | exact Hd].
Qed.

Lemma run_lines_records cw today rules lines rows tracker final log d ds :
  run_lines cw today rules rows lines tracker = Some (final, log) ->
  In (d, ds) log -> line_records cw today rules d ds.
Proof.
  intros H. apply (run_lines_invariant cw today rules (fun _ => True)
                     (line_records cw today rules)) with (1 := fun _ _ _ => I)
    (3 := I) (4 := H).
  intros rows0 row t0 t ds0 _. apply process_line_records.
Qed.

Lemma run_lines_tracker cw today rules lines k :
  forall rows tracker final log,
    run_lines cw today rules rows lines tracker = Some (final, log) ->
    dict_get key2_eqb final k 0 =
    dict_get key2_eqb tracker k 0
    - allocated_to k (map record (List.concat (map snd log))).
Proof.
  induction lines as [|row rest IH]; intros rows tracker final log; simpl.
  - intros H; inversion H; subst. unfold allocated_to, total; simpl. lia.
  - destruct (process_line cw today rules rows row tracker) as [[t ds]|] eqn:Ep;
      [|discriminate].
    destruct (run_lines cw today rules (apply_draws ds rows) rest t)
      as [[final' log']|] eqn:E; [|discriminate].
    intros H; inversion H; subst. simpl.
    rewrite map_app, allocated_to_app.
    rewrite (IH _ _ _ _ E), (process_line_tracker _ _ _ _ _ _ _ _ k Ep). lia.
Qed.

Lemma run_lines_keys cw today rules lines :
  forall rows tracker final log,
    run_lines cw today rules rows lines tracker = Some (final, log) ->
    map fst final = map fst tracker.
Proof.
  induction lines as [|row rest IH]; intros rows tracker final log; simpl.
  - intros H; inversion H; reflexivity.
  - destruct (process_line cw today rules rows row tracker) as [[t ds]|] eqn:Ep;
      [|discriminate].
    destruct (run_lines cw today rules (apply_draws ds rows) rest t)
      as [[final' log']|] eqn:E; [|discriminate].
    intros H; inversion H; subst.
    rewrite (IH _ _ _ _ E). eapply process_line_keys. exact Ep.
Qed.

Lemma run_lines_nonneg cw today rules lines :
  forall rows tracker final log,
    run_lines cw today rules rows lines tracker = Some (final, log) ->
    (forall k, 0 <= dict_get key2_eqb tracker k 0) ->
    forall k, 0 <= dict_get key2_eqb final k 0.
Proof.
  induction lines as [|row rest IH]; intros rows tracker final log; simpl.
  - intros H; inversion H; subst. auto.
  - destruct (process_line cw today rules rows row tracker) as [[t ds]|] eqn:Ep;
      [|discriminate].
    destruct (run_lines cw today rules (apply_draws ds rows) rest t)
      as [[final' log']|] eqn:E; [|discriminate].
    intros H; inversion H; subst. intros Hpos.
    eapply IH; [exact E|]. eapply process_line_nonneg; eassumption.
Qed.

(* ------------------------------------------------------------------ *)
(** ** Order of the batches *)

Lemma StronglySorted_map_filter {A B : Type} (R : B -> B -> Prop)
    (key : A -> B) (f : A -> bool) (l : list A) :
  StronglySorted R (map key l) -> StronglySorted R (map key (filter f l)).
Proof.
  induction l as [|x l IH]; simpl; intros H; [constructor|].
  inversion H as [|? ? Hl Hx]; subst.
  destruct (f x); simpl; [|apply IH; exact Hl].
  constructor; [apply IH; exact Hl|].
  rewrite Forall_forall in *. intros y Hy.
  apply in_map_iff in Hy. destruct Hy as [z [<- Hz]].
  apply filter_In in Hz. apply Hx. apply in_map. tauto.
Qed.

Lemma StronglySorted_map {A B : Type} (R : B -> B -> Prop) (key : A -> B)
    (l : list A) :
  StronglySorted (fun a b => R (key a) (key b)) l ->
  StronglySorted R (map key l).
Proof.
  induction 1 as [|x l Hl IH Hx]; simpl; constructor; auto.
  rewrite Forall_forall in *. intros y Hy.
  apply in_map_iff in Hy. destruct Hy as [z [<- Hz]]. auto.
Qed.

Lemma cw_rows_sorted cw stock : fefo_sorted (cw_rows_of cw stock).
Proof.
  unfold fefo_sorted, cw_rows_of. apply StronglySorted_map.
  apply (sort_values_strongly stock_leb).
  - intros a b. apply key2_leb_total.
  - intros a b c. apply key2_leb_trans.
Qed.

(** Batches of one product in FEFO order have non-decreasing expiry dates. *)
Lemma fefo_sorted_expiry p (l : list (Z * Stock.row)) :
  fefo_sorted l ->
  (forall b, In b l -> Stock.product_id (snd b) = p) ->
  StronglySorted Z.le (map (fun b => Stock.expiry_date (snd b)) l).
Proof.
  unfold fefo_sorted. induction l as [|x l IH]; simpl; intros Hs Hp; [constructor|].
  inversion Hs as [|? ? Hl Hx]; subst.
  constructor; [apply IH; auto|].
  rewrite Forall_forall in *. intros e He.
  apply in_map_iff in He. destruct He as [y [<- Hy]].
  assert (Hxy : key2_leb (fefo_key x) (fefo_key y) = true)
    by (apply Hx; apply in_map; exact Hy).
  apply key2_leb_spec in Hxy. unfold fefo_key in Hxy. simpl in Hxy.
  rewrite (Hp x (or_introl eq_refl)), (Hp y (or_intror Hy)) in Hxy. lia.
Qed.

Lemma process_line_sorted cw today rules rows row tracker t ds :
  fefo_sorted rows ->
  process_line cw today rules rows row tracker = Some (t, ds) ->
  StronglySorted Z.le (map (fun d => Alloc.expiry_date (record d)) ds).
Proof.
  intros Hs H. apply process_line_cases in H.
  destruct H as [[_ ->]|[_ [qty [available [_ [Ea [_ [-> _]]]]]]]];
    [constructor|].
  apply fefo_draws_sorted.
  apply (fefo_sorted_expiry (Analysis.product_id (Demand.line row))).
  - subst available. apply StronglySorted_map_filter. exact Hs.
  - intros b Hb. subst available. apply filter_In in Hb. destruct Hb as [_ Hb].
    unfold eligible in Hb. apply andb_true_iff in Hb. destruct Hb as [Hb _].
    apply Z.eqb_eq. exact Hb.
Qed.

Lemma apply_draws_sorted ds rows :
  fefo_sorted rows -> fefo_sorted (apply_draws ds rows).
Proof.
  unfold fefo_sorted, fefo_key. rewrite apply_draws_keys. auto.
Qed.

Lemma run_lines_sorted cw today rules lines rows tracker final log d ds :
  fefo_sorted rows ->
  run_lines cw today rules rows lines tracker = Some (final, log) ->
  In (d, ds) log ->
  StronglySorted Z.le (map (fun x => Alloc.expiry_date (record x)) ds).
Proof.
  intros Hs H. revert d ds.
  apply (run_lines_invariant cw today rules fefo_sorted
           (fun _ ds => StronglySorted Z.le
                          (map (fun x => Alloc.expiry_date (record x)) ds)))
    with (3 := Hs) (4 := H).
  - intros rows0 ds0. apply apply_draws_sorted.
  - intros rows0 row t0 t ds0. apply process_line_sorted.
Qed.

(* ------------------------------------------------------------------ *)
(** ** A successful run *)

Lemma nth_error_snoc_stock (h : Store) d s rows :
  nth_error (h ++ [DemandDF d]) s = Some (StockDF rows) ->
  nth_error h s = Some (StockDF rows).
Proof.
  intros E. destruct (Nat.lt_ge_cases s (List.length h)) as [Hlt|Hge].
  - rewrite nth_error_app1 in E by exact Hlt. exact E.
  - rewrite nth_error_app2 in E by exact Hge.
    destruct (s - List.length h)%nat as [|[|i]]; simpl in E; discriminate.
Qed.

(** A run that returns has read an analysis frame and a stock frame. *)
Lemma run_allocation_frames pc pb rules today self (h : Store) res :
  run_allocation pc pb rules today self h = Some res ->
  exists analysis stock,
    analysis_of self h = Some analysis /\ stock_of self h = Some stock.
Proof.
  unfold run_allocation, analysis_of, stock_of, frame_at.
  unfold attr, lift. unfold bind at 1.
  destruct (analysis_df self) as [a|]; [|discriminate].
  unfold bind at 1. unfold read_analysis at 1. unfold bind at 1. unfold read at 1.
  destruct (nth_error h a) as [[]|] eqn:Ea; try discriminate.
  unfold ret at 1.
  rewrite <- (app_nil_r h) at 1.
  rewrite bind_new_frame. simpl List.length. simpl app at 1.
  erewrite bind_assign_column by reflexivity. simpl store_set.
  erewrite bind_assign_column by reflexivity. simpl store_set.
  erewrite bind_read_demand by reflexivity.
  unfold bind at 1.
  match goal with |- context [sort_by_priority ?d] =>
    destruct (sort_by_priority d) as [sorted|]; [|discriminate] end.
  unfold bind at 1.
  destruct (stock_df self) as [s|]; [|discriminate].
  unfold bind at 1. unfold read_stock at 1. unfold bind at 1. unfold read at 1.
  match goal with |- context [nth_error ?l s] =>
    destruct (nth_error l s) as [[]|] eqn:Es; try discriminate end.
  apply nth_error_snoc_stock in Es. rewrite Es. eauto.
Qed.

(** The shape of a successful run. *)
Lemma run_allocation_inv pc pb rules today self (h : Store) self' t h' :
  run_allocation pc pb rules today self h = Some ((self', t), h') ->
  exists analysis stock unfulfilled,
    analysis_of self h = Some analysis /\
    stock_of self h = Some stock /\
    allocate pc pb rules today (cw_branch_id self) analysis stock
      = Some (t, unfulfilled) /\
    self' = set_allocation_results self (List.length h + 2)%nat
              (List.length h + 3)%nat (List.length h + 4)%nat /\
    h' = h ++ [DemandDF (demand_rows_of pc pb analysis);
               StockDF (cw_rows_after (cw_branch_id self) stock t);
               PlanDF (map record (all_draws t));
               UnfulfilledDF unfulfilled;
               StockDF (positive_stock
                          (cw_rows_after (cw_branch_id self) stock t))].
Proof.
  intros Hrun.
  destruct (run_allocation_frames _ _ _ _ _ _ _ Hrun)
    as [analysis [stock [Ha Hs]]].
  rewrite (run_allocation_run pc pb rules today self h analysis stock Ha Hs)
    in Hrun. cbv zeta in Hrun.
  destruct (allocate pc pb rules today (cw_branch_id self) analysis stock)
    as [[t0 unf]|] eqn:Eal; [|discriminate].
  inversion Hrun; subst. exists analysis, stock, unf.
  repeat split; assumption || reflexivity.
Qed.

Lemma allocate_inv pc pb rules today cw analysis stock t unf :
  allocate pc pb rules today cw analysis stock = Some (t, unf) ->
  run_lines cw today rules (cw_rows_of cw stock)
    (sort_values demand_leb (demand_rows_of pc pb analysis))
    (tracker_of (demand_rows_of pc pb analysis))
  = Some (branch_need_tracker t, processed t) /\
  unfulfilled_rows analysis (branch_need_tracker t) = Some unf.
Proof.
  unfold allocate. cbv zeta.
  destruct (run_lines _ _ _ _ _ _) as [[tracker log]|]; [|discriminate].
  destruct (unfulfilled_rows analysis tracker) as [u|] eqn:Eu; [|discriminate].
  intros H; inversion H; subst. simpl. auto.
Qed.

Lemma plan_of_result self (h : Store) d c p u r :
  plan_of (set_allocation_results self (List.length h + 2)%nat
             (List.length h + 3)%nat (List.length h + 4)%nat)
          (h ++ [DemandDF d; StockDF c; PlanDF p; UnfulfilledDF u; StockDF r])
  = Some p.
Proof.
  unfold plan_of, frame_at. simpl. rewrite nth_error_app_offset. reflexivity.
Qed.

Lemma unfulfilled_of_result self (h : Store) d c p u r :
  unfulfilled_of (set_allocation_results self (List.length h + 2)%nat
                    (List.length h + 3)%nat (List.length h + 4)%nat)
          (h ++ [DemandDF d; StockDF c; PlanDF p; UnfulfilledDF u; StockDF r])
  = Some u.
Proof.
  unfold unfulfilled_of, frame_at. simpl. rewrite nth_error_app_offset. reflexivity.
Qed.

Lemma remaining_of_result self (h : Store) d c p u r :
  remaining_of (set_allocation_results self (List.length h + 2)%nat
                  (List.length h + 3)%nat (List.length h + 4)%nat)
          (h ++ [DemandDF d; StockDF c; PlanDF p; UnfulfilledDF u; StockDF r])
  = Some r.
Proof.
  unfold remaining_of, frame_at. simpl. rewrite nth_error_app_offset. reflexivity.
Qed.

(* ------------------------------------------------------------------ *)
(** ** The small system: its first run *)

Lemma example_run_allocation :
  run_allocation [2] [] [(1, 100)] 0
    example_analysed_system example_analysed_store =
  Some (example_allocated_system, example_trace, example_allocated_store).
Proof. vm_compute. reflexivity. Qed.

(* ------------------------------------------------------------------ *)
(** ** FEFO order and expiry eligibility *)

(** C3. Within the records appended for one demand line the expiry dates
    never decrease, and no record of the plan carries an expiry date earlier
    than [today] plus the minimum shelf life of its channel (0 days without a
    rule). *)
Theorem fefo_order_and_expiry pc pb rules today self h self' t h' :
  run_allocation pc pb rules today self h = Some ((self', t), h') ->
  plan_of self' h' = Some (map record (all_draws t)) /\
  (forall d ds, In (d, ds) (processed t) ->
     StronglySorted Z.le (map (fun x => Alloc.expiry_date (record x)) ds)) /\
  (forall a, In a (map record (all_draws t)) ->
     today + timedelta (dict_get Z.eqb rules (Alloc.channel_id a) 0)
     <= Alloc.expiry_date a).
Proof.
  intros Hrun. apply run_allocation_inv in Hrun.
  destruct Hrun as [analysis [stock [unf [Ha [Hs [Hal [-> ->]]]]]]].
  apply allocate_inv in Hal. destruct Hal as [Hlines _].
  split; [apply plan_of_result|]. split.
  - intros d ds Hd.
    eapply run_lines_sorted; [apply cw_rows_sorted | exact Hlines | exact Hd].
  - intros a Hin. apply in_map_iff in Hin. destruct Hin as [x [<- Hx]].
    unfold all_draws in Hx. apply in_concat in Hx.
    destruct Hx as [ds [Hds Hx]]. apply in_map_iff in Hds.
    destruct Hds as [[d ds'] [E Hd]]. simpl in E. subst ds'.
    destruct (run_lines_records _ _ _ _ _ _ _ _ _ _ Hlines Hd x Hx)
      as [_ [_ [_ [Ec Hexp]]]].
    rewrite Ec. exact Hexp.
Qed.

Lemma fefo_order_and_expiry_witness :
  plan_of example_allocated_system example_allocated_store
    = Some (map record (all_draws example_trace)) /\
  (forall d ds, In (d, ds) (processed example_trace) ->
     StronglySorted Z.le (map (fun x => Alloc.expiry_date (record x)) ds)) /\
  (forall a, In a (map record (all_draws example_trace)) ->
     0 + timedelta (dict_get Z.eqb [(1, 100)] (Alloc.channel_id a) 0)
     <= Alloc.expiry_date a).
Proof.
  apply (fefo_order_and_expiry [2] [] [(1, 100)] 0
           example_analysed_system example_analysed_store).
  vm_compute. reflexivity.
Defined.

(* ------------------------------------------------------------------ *)
(** ** Priority order *)

Lemma demand_leb_spec a b :
  demand_leb a b = true <->
  fst (rank_key a) < fst (rank_key b) \/
  (fst (rank_key a) = fst (rank_key b) /\
   (snd (rank_key a) < snd (rank_key b) \/
    (snd (rank_key a) = snd (rank_key b) /\
     Analysis.forecast_quantity (Demand.line b)
     <= Analysis.forecast_quantity (Demand.line a)))).
Proof.
  unfold demand_leb, key2_leb, key2_eqb.
  destruct (rank_key a) as [ca ba], (rank_key b) as [cb bb]. simpl.
  rewrite orb_true_iff, negb_true_iff, orb_false_iff, !andb_true_iff,
    andb_false_iff.
  rewrite Z.ltb_ge, Z.eqb_neq, Z.leb_gt, !Z.eqb_eq, Z.leb_le.
  lia.
Qed.

Lemma demand_leb_total a b : demand_leb a b = false -> demand_leb b a = true.
Proof.
  intros H. apply demand_leb_spec.
  assert (N : ~ (demand_leb a b = true)) by congruence.
  rewrite demand_leb_spec in N. lia.
Qed.

Lemma demand_leb_trans a b c :
  demand_leb a b = true -> demand_leb b c = true -> demand_leb a c = true.
Proof. rewrite !demand_leb_spec. lia. Qed.

Lemma rank_key_demand pc pb analysis d :
  In d (demand_rows_of pc pb analysis) ->
  rank_key d =
  (priority_rank pc (Analysis.channel_id (Demand.line d)),
   priority_rank pb (Analysis.branch_id (Demand.line d))).
Proof.
  unfold demand_rows_of. intros Hd.
  apply in_map_iff in Hd. destruct Hd as [d1 [<- Hd1]].
  apply in_map_iff in Hd1. destruct Hd1 as [d0 [<- Hd0]].
  apply in_map_iff in Hd0. destruct Hd0 as [r [<- Hr]]. reflexivity.
Qed.

Lemma demand_lines_of pc pb analysis :
  map Demand.line (demand_rows_of pc pb analysis) =
  filter allocation_needed analysis.
Proof.
  unfold demand_rows_of. rewrite !map_map. simpl. apply map_id.
Qed.

Lemma StronglySorted_map_on {A B : Type} (R : A -> A -> Prop)
    (R' : B -> B -> Prop) (f : A -> B) (l : list A) :
  (forall a b, In a l -> In b l -> R a b -> R' (f a) (f b)) ->
  StronglySorted R l -> StronglySorted R' (map f l).
Proof.
  intros H Hs. induction Hs as [|x l Hl IH Hx]; simpl; constructor.
  - apply IH. intros a b Ha Hb. apply H; right; assumption.
  - rewrite Forall_forall in *. intros y Hy.
    apply in_map_iff in Hy. destruct Hy as [z [<- Hz]].
    apply H; [left; reflexivity | right; exact Hz | apply Hx; exact Hz].
Qed.

Lemma StronglySorted_nth {A : Type} (R : A -> A -> Prop) (l : list A) :
  StronglySorted R l ->
  forall i j a b,
    nth_error l i = Some a -> nth_error l j = Some b -> (i < j)%nat -> R a b.
Proof.
  induction 1 as [|x l Hl IH Hx]; intros i j a b Hi Hj Hlt.
  - destruct i; discriminate.
  - destruct j as [|j]; [lia|]. simpl in Hj. destruct i as [|i].
    + simpl in Hi. inversion Hi; subst.
      rewrite Forall_forall in Hx. apply Hx. eapply nth_error_In. exact Hj.
    + simpl in Hi. apply (IH i j); auto. lia.
Qed.

Lemma priority_rank_1 priority x :
  In x priority -> priority_rank priority x = 1.
Proof.
  intros H. unfold priority_rank.
  replace (existsb (Z.eqb x) priority) with true; [reflexivity|].
  symmetry. apply existsb_exists. exists x. split; [exact H | apply Z.eqb_refl].
Qed.

Lemma priority_rank_2 priority x :
  ~ In x priority -> priority_rank priority x = 2.
Proof.
  intros H. unfold priority_rank.
  destruct (existsb (Z.eqb x) priority) eqn:E; [|reflexivity].
  apply existsb_exists in E. destruct E as [y [Hy E]].
  apply Z.eqb_eq in E. subst y. contradiction.
Qed.

(** C4. The demand lines are processed in the order of the sort: ascending
    channel rank, then ascending branch rank, then descending forecast
    quantity; they are the rows of the analysis table that need allocation;
    and a line of a priority channel is processed before every line of a
    channel without priority. *)
Theorem priority_ordering pc pb rules today self h self' t h' analysis :
  run_allocation pc pb rules today self h = Some ((self', t), h') ->
  analysis_of self h = Some analysis ->
  let lines := map (fun e => Demand.line (fst e)) (processed t) in
  Permutation (filter allocation_needed analysis) lines /\
  StronglySorted (priority_order pc pb) lines /\
  (forall i j a b,
     nth_error lines i = Some a -> nth_error lines j = Some b ->
     In (Analysis.channel_id a) pc -> ~ In (Analysis.channel_id b) pc ->
     (i < j)%nat).
Proof.
  intros Hrun Ha lines. apply run_allocation_inv in Hrun.
  destruct Hrun as [analysis' [stock [unf [Ha' [Hs [Hal [-> ->]]]]]]].
  rewrite Ha in Ha'. inversion Ha'; subst analysis'. clear Ha'.
  apply allocate_inv in Hal. destruct Hal as [Hlines _].
  apply run_lines_lines in Hlines.
  assert (El : lines =
               map Demand.line
                 (sort_values demand_leb (demand_rows_of pc pb analysis))).
  { unfold lines. rewrite <- Hlines, map_map. reflexivity. }
  assert (Hsorted : StronglySorted (priority_order pc pb) lines).
  { rewrite El.
    apply StronglySorted_map_on with (R := fun a b => demand_leb a b = true).
    - intros a b Hina Hinb Hab.
      apply sort_values_In in Hina. apply sort_values_In in Hinb.
      apply demand_leb_spec in Hab.
      rewrite (rank_key_demand _ _ _ _ Hina), (rank_key_demand _ _ _ _ Hinb)
        in Hab. simpl in Hab. exact Hab.
    - apply sort_values_strongly;
        [apply demand_leb_total | apply demand_leb_trans]. }
  split; [|split].
  - rewrite El, <- (demand_lines_of pc pb analysis).
    apply Permutation_map. apply sort_values_perm.
  - exact Hsorted.
  - intros i j a b Hi Hj Hain Hbout.
    destruct (Nat.lt_trichotomy i j) as [Hlt|[Heq|Hgt]]; [exact Hlt| |].
    + subst j. rewrite Hi in Hj. inversion Hj; subst. contradiction.
    + exfalso.
      assert (Hba := StronglySorted_nth _ _ Hsorted j i b a Hj Hi Hgt).
      unfold priority_order in Hba. cbv zeta in Hba.
      rewrite (priority_rank_1 pc _ Hain), (priority_rank_2 pc _ Hbout) in Hba.
      lia.
Qed.

Lemma priority_ordering_witness :
  let lines := map (fun e => Demand.line (fst e)) (processed example_trace) in
  Permutation (filter allocation_needed example_analysis) lines /\
  StronglySorted (priority_order [2] []) lines /\
  (forall i j a b,
     nth_error lines i = Some a -> nth_error lines j = Some b ->
     In (Analysis.channel_id a) [2] -> ~ In (Analysis.channel_id b) [2] ->
     (i < j)%nat).
Proof.
  apply (priority_ordering [2] [] [(1, 100)] 0
           example_analysed_system example_analysed_store
           example_allocated_system example_trace example_allocated_store
           example_analysis).
  - vm_compute. reflexivity.
  - vm_compute. reflexivity.
Defined.

(* ------------------------------------------------------------------ *)
(** ** The tracker at the start and the unfulfilled rows *)

Lemma analysis_table_well_formed cw forecast stock :
  well_formed_analysis (analysis_table cw forecast stock).
Proof.
  split.
  - intros r1 r2 H1 H2 Ep Eb.
    apply analysis_table_In in H1. apply analysis_table_In in H2.
    destruct H1 as [c1 [q1 [_ E1]]]. destruct H2 as [c2 [q2 [_ E2]]].
    cbv zeta in E1, E2. rewrite <- Ep, <- Eb in E2.
    rewrite E1, E2. reflexivity.
  - intros r Hr Hn. apply analysis_table_In in Hr.
    destruct Hr as [c [q [_ E]]]. cbv zeta in E.
    unfold allocation_needed in Hn. apply String.eqb_eq in Hn.
    rewrite E in Hn |- *. simpl in *. apply status_of_needed. exact Hn.
Qed.

Lemma demand_rows_In pc pb analysis d :
  In d (demand_rows_of pc pb analysis) <->
  In (Demand.line d) analysis /\ allocation_needed (Demand.line d) = true /\
  d = set_rank_branch pb (set_rank_channel pc (Demand.of_analysis (Demand.line d))).
Proof.
  unfold demand_rows_of. rewrite !map_map, in_map_iff. split.
  - intros [r [<- Hr]]. apply filter_In in Hr. simpl. tauto.
  - intros [Hin [Hn E]]. exists (Demand.line d). split.
    + symmetry. exact E.
    + apply filter_In. auto.
Qed.

Lemma dict_get_notin (d : list (key2 * Z)) k :
  ~ In k (map fst d) -> dict_get key2_eqb d k 0 = 0.
Proof.
  induction d as [|[k0 v] d IH]; simpl; [reflexivity|].
  intros H. destruct (key2_eqb k0 k) eqn:E.
  - apply key2_eqb_eq in E. tauto.
  - apply IH. tauto.
Qed.

Lemma tracker_of_keys demand k :
  In k (map fst (tracker_of demand)) <-> In k (map demand_key demand).
Proof.
  unfold tracker_of. rewrite groupby_first_keys, group_keys_In, map_map.
  reflexivity.
Qed.

Lemma tracker_of_NoDup demand : NoDup (map fst (tracker_of demand)).
Proof.
  unfold tracker_of. rewrite groupby_first_keys. apply group_keys_NoDup.
Qed.

(** The tracker starts, for each branch with a demand line, at the net need
    of the first of its demand lines, and has no other key. *)
Lemma tracker_of_value demand k :
  (~ In k (map demand_key demand) /\
   dict_get key2_eqb (tracker_of demand) k 0 = 0) \/
  (exists d, In d demand /\ demand_key d = k /\
     dict_get key2_eqb (tracker_of demand) k 0 =
     Analysis.branch_net_need (Demand.line d)).
Proof.
  destruct (in_dec key2_eq_dec k (map demand_key demand)) as [Hin|Hout].
  - right.
    assert (Hv : In (k, hd 0 (group_values key2_eq_dec k
                       (map (fun d => (demand_key d,
                               Analysis.branch_net_need (Demand.line d)))
                            demand)))
                    (tracker_of demand)).
    { unfold tracker_of. apply groupby_first_In. split; [|reflexivity].
      rewrite map_map. exact Hin. }
    rewrite (dict_get_unique _ _ _ (tracker_of_NoDup demand) Hv).
    rewrite (group_values_map key2_eq_dec demand_key
               (fun d => Analysis.branch_net_need (Demand.line d))).
    apply in_map_iff in Hin. destruct Hin as [d0 [E0 Hd0]].
    destruct (filter (fun x => if key2_eq_dec (demand_key x) k then true else false)
                     demand) as [|d1 ds] eqn:Ef.
    + exfalso.
      assert (Hd : In d0 (filter (fun x => if key2_eq_dec (demand_key x) k
                                           then true else false) demand)).
      { apply filter_In. split; [exact Hd0|].
        destruct (key2_eq_dec (demand_key d0) k); [reflexivity | contradiction]. }
      rewrite Ef in Hd. destruct Hd.
    + assert (Hd : In d1 (filter (fun x => if key2_eq_dec (demand_key x) k
                                           then true else false) demand))
        by (rewrite Ef; left; reflexivity).
      apply filter_In in Hd. destruct Hd as [Hd1 Ek].
      destruct (key2_eq_dec (demand_key d1) k); [|discriminate].
      exists d1. simpl. auto.
  - left. split; [exact Hout|].
    apply dict_get_notin. rewrite tracker_of_keys. exact Hout.
Qed.

Lemma branch_rows_In k analysis r :
  In r (branch_rows k analysis) <->
  In r analysis /\ Analysis.product_id r = fst k /\ Analysis.branch_id r = snd k.
Proof.
  unfold branch_rows. rewrite filter_In, andb_true_iff, !Z.eqb_eq. tauto.
Qed.

Lemma iloc0_branch_rows k analysis need :
  iloc0 (map Analysis.branch_net_need (branch_rows k analysis)) = Some need ->
  exists r, In r analysis /\ Analysis.product_id r = fst k /\
            Analysis.branch_id r = snd k /\ Analysis.branch_net_need r = need.
Proof.
  destruct (branch_rows k analysis) as [|r rs] eqn:E; simpl; [discriminate|].
  intros H; inversion H; subst.
  assert (Hr : In r (branch_rows k analysis)) by (rewrite E; left; reflexivity).
  apply branch_rows_In in Hr. exists r. tauto.
Qed.

(** The lookup of the original need finds a row as soon as the analysis
    table has a row of the branch. *)
Lemma iloc0_branch_rows_defined k analysis r :
  In r analysis -> Analysis.product_id r = fst k -> Analysis.branch_id r = snd k ->
  exists need,
    iloc0 (map Analysis.branch_net_need (branch_rows k analysis)) = Some need.
Proof.
  intros Hr Ep Eb.
  assert (H : In r (branch_rows k analysis)) by (apply branch_rows_In; auto).
  destruct (branch_rows k analysis) as [|r0 rs]; [destruct H|].
  simpl. eauto.
Qed.

Lemma unfulfilled_rows_In analysis items unf :
  unfulfilled_rows analysis items = Some unf ->
  forall u, In u unf <->
    exists k remaining need,
      In (k, remaining) items /\ 0 < remaining /\
      iloc0 (map Analysis.branch_net_need (branch_rows k analysis)) = Some need /\
      u = Unfulfilled.mk (fst k) (snd k) need (need - remaining) remaining.
Proof.
  revert unf. induction items as [|[k v] rest IH]; intros unf; simpl.
  - intros H; inversion H; subst. intros u. split; [intros [] |].
    intros [k [rem [need [[] _]]]].
  - destruct (0 <? v) eqn:Ev.
    + apply Z.ltb_lt in Ev.
      destruct (iloc0 (map Analysis.branch_net_need (branch_rows k analysis)))
        as [need|] eqn:En; [|discriminate].
      destruct (unfulfilled_rows analysis rest) as [rows|]; [|discriminate].
      intros H; inversion H; subst. intros u. simpl. rewrite (IH rows eq_refl).
      split.
      * intros [<-|[k' [rem [need' [Hin Hrest]]]]].
        -- exists k, v, need. auto.
        -- exists k', rem, need'. auto.
      * intros [k' [rem [need' [[E|Hin] [Hpos [Hn ->]]]]]].
        -- inversion E; subst. rewrite En in Hn. inversion Hn; subst. auto.
        -- right. exists k', rem, need'. auto.
    + apply Z.ltb_ge in Ev. intros H u. rewrite (IH unf H). split.
      * intros [k' [rem [need' [Hin Hrest]]]]. exists k', rem, need'. auto.
      * intros [k' [rem [need' [[E|Hin] [Hpos Hrest]]]]].
        -- inversion E; subst. lia.
        -- exists k', rem, need'. auto.
Qed.

Lemma unfulfilled_rows_defined analysis items :
  (forall k v, In (k, v) items ->
     exists r, In r analysis /\ Analysis.product_id r = fst k /\
               Analysis.branch_id r = snd k) ->
  exists unf, unfulfilled_rows analysis items = Some unf.
Proof.
  induction items as [|[k v] rest IH]; intros H; simpl; [eauto|].
  destruct IH as [rows Hrows]; [intros; eapply H; right; eassumption|].
  rewrite Hrows. destruct (0 <? v); [|eauto].
  destruct (H k v (or_introl eq_refl)) as [r [Hr [Ep Eb]]].
  destruct (iloc0_branch_rows_defined k analysis r Hr Ep Eb) as [need ->].
  eauto.
Qed.

(* ------------------------------------------------------------------ *)
(** ** Conservation of the need of a branch *)

Lemma demand_row_of_needed pc pb analysis r :
  In r analysis -> allocation_needed r = true ->
  exists d, In d (demand_rows_of pc pb analysis) /\ Demand.line d = r.
Proof.
  intros Hr Hn.
  exists (set_rank_branch pb (set_rank_channel pc (Demand.of_analysis r))).
  split; [|reflexivity]. apply demand_rows_In. simpl. auto.
Qed.

(** For a well-formed table the tracker starts at the net need of the
    branch. *)
Lemma tracker_of_need pc pb analysis r :
  well_formed_analysis analysis ->
  In r analysis -> allocation_needed r = true ->
  dict_get key2_eqb (tracker_of (demand_rows_of pc pb analysis))
           (Analysis.product_id r, Analysis.branch_id r) 0
  = Analysis.branch_net_need r.
Proof.
  intros [Hb _] Hr Hn.
  destruct (demand_row_of_needed pc pb analysis r Hr Hn) as [d [Hd El]].
  destruct (tracker_of_value (demand_rows_of pc pb analysis)
              (Analysis.product_id r, Analysis.branch_id r))
    as [[Hout _]|[d' [Hd' [Ek ->]]]].
  - exfalso. apply Hout. apply in_map_iff. exists d.
    split; [|exact Hd]. unfold demand_key. rewrite El. reflexivity.
  - apply demand_rows_In in Hd'. destruct Hd' as [Hin' _].
    unfold demand_key in Ek. inversion Ek. apply Hb; auto.
Qed.

Lemma tracker_of_nonneg pc pb analysis k :
  well_formed_analysis analysis ->
  0 <= dict_get key2_eqb (tracker_of (demand_rows_of pc pb analysis)) k 0.
Proof.
  intros [_ Hp].
  destruct (tracker_of_value (demand_rows_of pc pb analysis) k)
    as [[_ ->]|[d [Hd [_ ->]]]]; [lia|].
  apply demand_rows_In in Hd. destruct Hd as [Hin [Hn _]].
  specialize (Hp _ Hin Hn). lia.
Qed.

(** C1. Branch-need conservation.  Every unfulfilled row satisfies
    fulfilled + unfulfilled = needed, with needed the branch_net_need that
    the analysis table gives for that (product_id, branch_id).  For every
    (product_id, branch_id) with a demand line, the sum of
    quantity_allocated over the records of the plan with that product_id and
    to_branch is the net need minus the remaining tracked need: it is the
    fulfilled quantity of the unfulfilled row of the branch when there is
    one, and the whole need when there is none. *)
Theorem branch_need_conservation pc pb rules today self h self' t h'
    analysis plan unf :
  run_allocation pc pb rules today self h = Some ((self', t), h') ->
  analysis_of self h = Some analysis ->
  well_formed_analysis analysis ->
  plan_of self' h' = Some plan ->
  unfulfilled_of self' h' = Some unf ->
  branch_need_conserved analysis plan unf (branch_need_tracker t).
Proof.
  intros Hrun Ha Hwf Hplan Hunf. unfold branch_need_conserved.
  apply run_allocation_inv in Hrun.
  destruct Hrun as [analysis' [stock [unf' [Ha' [Hs [Hal [-> ->]]]]]]].
  rewrite Ha in Ha'. inversion Ha'; subst analysis'. clear Ha'.
  rewrite plan_of_result in Hplan. inversion Hplan; subst plan. clear Hplan.
  rewrite unfulfilled_of_result in Hunf. inversion Hunf; subst unf'. clear Hunf.
  apply allocate_inv in Hal. destruct Hal as [Hlines Hrows].
  assert (Hu := unfulfilled_rows_In _ _ _ Hrows).
  assert (Hkeys := run_lines_keys _ _ _ _ _ _ _ _ Hlines).
  assert (Hnd : NoDup (map fst (branch_need_tracker t)))
    by (rewrite Hkeys; apply tracker_of_NoDup).
  destruct Hwf as [Hb Hp]. split.
  - intros u Hin. apply Hu in Hin.
    destruct Hin as [k [rem [need [Hk [Hrem [Hneed ->]]]]]]. simpl.
    apply iloc0_branch_rows in Hneed.
    destruct Hneed as [r0 [Hr0 [Ep0 [Eb0 En0]]]].
    split; [lia|]. split; [exists r0; auto|].
    intros r Hr Ep Eb. rewrite <- En0. apply Hb; auto; congruence.
  - intros r Hr Hn. cbv zeta.
    set (k := (Analysis.product_id r, Analysis.branch_id r)).
    assert (Hsum := run_lines_tracker _ _ _ _ k _ _ _ _ Hlines).
    unfold k in Hsum at 2.
    rewrite (tracker_of_need pc pb analysis r (conj Hb Hp) Hr Hn) in Hsum.
    fold (all_draws t) in Hsum.
    split; [lia|]. split.
    + intros u Hin Ep Eb. apply Hu in Hin.
      destruct Hin as [k' [rem [need [Hk [Hrem [Hneed ->]]]]]].
      simpl in Ep, Eb |- *.
      assert (k' = k) by (unfold k; destruct k'; simpl in *; congruence).
      subst k'.
      rewrite (dict_get_unique _ _ _ Hnd Hk) in Hsum.
      apply iloc0_branch_rows in Hneed.
      destruct Hneed as [r0 [Hr0 [Ep0 [Eb0 En0]]]].
      assert (Analysis.branch_net_need r0 = Analysis.branch_net_need r)
        by (apply Hb; auto).
      lia.
    + intros Hnone.
      assert (Hin : In k (map fst (branch_need_tracker t))).
      { rewrite Hkeys. apply tracker_of_keys.
        destruct (demand_row_of_needed pc pb analysis r Hr Hn) as [d [Hd El]].
        apply in_map_iff. exists d. split; [|exact Hd].
        unfold demand_key, k. rewrite El. reflexivity. }
      apply dict_get_In in Hin.
      assert (Hge : 0 <= dict_get key2_eqb (branch_need_tracker t) k 0).
      { eapply run_lines_nonneg; [exact Hlines|].
        intros k0. apply tracker_of_nonneg. split; assumption. }
      destruct (Z.eq_dec (dict_get key2_eqb (branch_need_tracker t) k 0) 0)
        as [E0|N0]; [lia|].
      exfalso.
      destruct (iloc0_branch_rows_defined k analysis r Hr eq_refl eq_refl)
        as [need Hneed].
      apply (Hnone (Unfulfilled.mk (fst k) (snd k) need
                      (need - dict_get key2_eqb (branch_need_tracker t) k 0)
                      (dict_get key2_eqb (branch_need_tracker t) k 0))).
      * apply Hu. exists k, (dict_get key2_eqb (branch_need_tracker t) k 0), need.
        repeat split; auto. lia.
      * simpl. auto.
Qed.

Lemma example_analysis_well_formed : well_formed_analysis example_analysis.
Proof.
  change (well_formed_analysis
            (analysis_table 1000 example_forecast example_stock)).
  apply analysis_table_well_formed.
Qed.

Lemma branch_need_conservation_witness :
  branch_need_conserved example_analysis example_plan example_unfulfilled
    (branch_need_tracker example_trace).
Proof.
  apply (branch_need_conservation [2] [] [(1, 100)] 0
           example_analysed_system example_analysed_store
           example_allocated_system example_trace example_allocated_store).
  - vm_compute. reflexivity.
  - vm_compute. reflexivity.
  - exact example_analysis_well_formed.
  - vm_compute. reflexivity.
  - vm_compute. reflexivity.
Defined.

(* ------------------------------------------------------------------ *)
(** ** Conservation of stock *)

Lemma NoDup_labels_filter {B : Type} (f : Z * B -> bool) (l : list (Z * B)) :
  NoDup (map fst l) -> NoDup (map fst (filter f l)).
Proof.
  induction l as [|x l IH]; simpl; intros H; [constructor|].
  inversion H as [|? ? Hx Hl]; subst.
  destruct (f x); simpl; [|apply IH; exact Hl].
  constructor; [|apply IH; exact Hl].
  intros Hin. apply Hx. apply in_map_iff in Hin.
  destruct Hin as [y [E Hy]]. apply filter_In in Hy.
  rewrite <- E. apply in_map. tauto.
Qed.

Lemma NoDup_labels_unique {B : Type} (l : list (Z * B)) k a b :
  NoDup (map fst l) -> In (k, a) l -> In (k, b) l -> a = b.
Proof.
  induction l as [|x l IH]; simpl; [tauto|].
  intros H Ha Hb. inversion H as [|? ? Hx Hl]; subst.
  destruct Ha as [->|Ha], Hb as [E|Hb].
  - inversion E; reflexivity.
  - exfalso. apply Hx. apply (in_map fst) in Hb. exact Hb.
  - subst x. exfalso. apply Hx. apply (in_map fst) in Ha. exact Ha.
  - apply IH; assumption.
Qed.

(** One demand line draws from a batch with non-negative stock at most what
    the batch holds. *)
Lemma process_line_bounded cw today rules rows row tracker t ds l s :
  NoDup (map fst rows) ->
  In (l, s) rows ->
  0 <= Stock.stock_available s ->
  process_line cw today rules rows row tracker = Some (t, ds) ->
  drawn_from l ds <= Stock.stock_available s.
Proof.
  intros Hnd Hin Hs H. apply process_line_cases in H.
  destruct H as [[_ ->]|[Hrem [qty [available [Eq [Ea [_ [-> _]]]]]]]].
  - unfold drawn_from, total; simpl. lia.
  - assert (Hnda : NoDup (map fst available))
      by (subst available; apply NoDup_labels_filter; exact Hnd).
    destruct (in_dec Z.eq_dec l (map fst available)) as [Hl|Hl].
    + apply in_map_iff in Hl. destruct Hl as [[l' s'] [E Hl]].
      simpl in E. subst l'.
      assert (s' = s).
      { apply (NoDup_labels_unique rows l); auto.
        subst available. apply filter_In in Hl. tauto. }
      subst s'. apply fefo_draws_bounded; auto.
    + rewrite fefo_draws_other by exact Hl. lia.
Qed.

Lemma run_lines_bounded cw today rules lines l :
  forall rows tracker final log s,
    NoDup (map fst rows) ->
    In (l, s) rows ->
    0 <= Stock.stock_available s ->
    run_lines cw today rules rows lines tracker = Some (final, log) ->
    drawn_from l (List.concat (map snd log)) <= Stock.stock_available s.
Proof.
  induction lines as [|row rest IH];
    intros rows tracker final log s Hnd Hin Hs; simpl.
  - intros H; inversion H; subst. unfold drawn_from, total; simpl. lia.
  - destruct (process_line cw today rules rows row tracker) as [[t ds]|] eqn:Ep;
      [|discriminate].
    destruct (run_lines cw today rules (apply_draws ds rows) rest t)
      as [[final' log']|] eqn:E; [|discriminate].
    intros H; inversion H; subst. simpl. rewrite drawn_from_app.
    assert (H1 := process_line_bounded _ _ _ _ _ _ _ _ l s Hnd Hin Hs Ep).
    assert (H2 := IH (apply_draws ds rows) t final log'
                    (Stock.set_stock_available
                       (Stock.stock_available s - drawn_from l ds) s)).
    simpl in H2. rewrite apply_draws_labels in H2.
    specialize (H2 Hnd (apply_draws_In ds rows l s Hin)).
    assert (0 <= Stock.stock_available s - drawn_from l ds) by lia.
    specialize (H2 H0 E). lia.
Qed.

Lemma cw_rows_In cw stock b :
  In b (cw_rows_of cw stock) <-> In b stock /\ Stock.branch_id (snd b) = cw.
Proof.
  unfold cw_rows_of. rewrite sort_values_In, filter_In, Z.eqb_eq. tauto.
Qed.

Lemma cw_rows_NoDup cw stock :
  NoDup (map fst stock) -> NoDup (map fst (cw_rows_of cw stock)).
Proof.
  intros H. unfold cw_rows_of.
  eapply Permutation_NoDup.
  - apply Permutation_map. apply sort_values_perm.
  - apply NoDup_labels_filter. exact H.
Qed.

Lemma run_lines_batches cw today rules stock lines rows tracker final log d ds :
  (forall b, In b rows -> exists s0,
     In (fst b, s0) (cw_rows_of cw stock) /\ fefo_key (fst b, s0) = fefo_key b) ->
  run_lines cw today rules rows lines tracker = Some (final, log) ->
  In (d, ds) log -> drawn_from_stock cw stock ds.
Proof.
  intros Hrows H. revert d ds.
  apply (run_lines_invariant cw today rules
           (fun rows => forall b, In b rows -> exists s0,
              In (fst b, s0) (cw_rows_of cw stock) /\
              fefo_key (fst b, s0) = fefo_key b)
           (fun _ ds => drawn_from_stock cw stock ds))
    with (3 := Hrows) (4 := H).
  - intros rows0 ds0 H0 [l s'] Hb. apply apply_draws_In_inv in Hb.
    destruct Hb as [s1 [Hs1 ->]].
    destruct (H0 (l, s1) Hs1) as [s0 [Hs0 Ek]]. exists s0. auto.
  - intros rows0 row t0 t1 ds0 H0 Hp x Hx.
    apply process_line_cases in Hp.
    destruct Hp as [[_ ->]|[_ [qty [available [_ [Ea [_ [-> _]]]]]]]];
      [destruct Hx|].
    apply fefo_draws_In in Hx. destruct Hx as [b [Hb ->]].
    subst available. apply filter_In in Hb. destruct Hb as [Hb He].
    unfold eligible in He. apply andb_true_iff in He. destruct He as [He _].
    apply Z.eqb_eq in He.
    destruct (H0 b Hb) as [s0 [Hs0 Ek]].
    apply cw_rows_In in Hs0. destruct Hs0 as [Hs0 Hcw].
    unfold fefo_key in Ek. inversion Ek.
    exists s0. simpl in *. repeat split; auto. congruence.
Qed.

Lemma all_draws_In (t : AllocationTrace) x :
  In x (all_draws t) -> exists d ds, In (d, ds) (processed t) /\ In x ds.
Proof.
  unfold all_draws. intros Hx. apply in_concat in Hx.
  destruct Hx as [ds [Hds Hx]]. apply in_map_iff in Hds.
  destruct Hds as [[d ds'] [E Hd]]. simpl in E. subst ds'. eauto.
Qed.

(** C2. Stock conservation.  The records of the plan are each drawn from a
    batch of the central warehouse.  For such a batch with non-negative
    stock, in a stock frame with distinct index labels: the quantities drawn
    from the batch by the records of the plan sum to at most its stock; the
    batch is in the remaining-stock snapshot exactly when its stock minus
    that sum is positive, and then with that difference as stock. *)
Theorem stock_conservation pc pb rules today self h self' t h'
    stock remaining l s :
  run_allocation pc pb rules today self h = Some ((self', t), h') ->
  stock_of self h = Some stock ->
  remaining_of self' h' = Some remaining ->
  NoDup (map fst stock) ->
  In (l, s) stock ->
  Stock.branch_id s = cw_branch_id self ->
  0 <= Stock.stock_available s ->
  plan_of self' h' = Some (map record (all_draws t)) /\
  drawn_from_stock (cw_branch_id self) stock (all_draws t) /\
  stock_conserved l s (all_draws t) remaining.
Proof.
  intros Hrun Hs Hrem Hnd Hin Hcw Hpos.
  apply run_allocation_inv in Hrun.
  destruct Hrun as [analysis [stock' [unf [Ha [Hs' [Hal [-> ->]]]]]]].
  rewrite Hs in Hs'. inversion Hs'; subst stock'. clear Hs'.
  rewrite remaining_of_result in Hrem. inversion Hrem; subst remaining.
  clear Hrem. split; [apply plan_of_result|].
  apply allocate_inv in Hal. destruct Hal as [Hlines _].
  set (cw := cw_branch_id self) in *.
  split.
  { intros x Hx. apply all_draws_In in Hx. destruct Hx as [d [ds [Hd Hx]]].
    refine (run_lines_batches cw today rules stock _ _ _ _ _ d ds _ Hlines Hd x Hx).
    intros b Hb. exists (snd b). rewrite <- surjective_pairing. auto. }
  assert (Hin0 : In (l, s) (cw_rows_of cw stock))
    by (apply cw_rows_In; auto).
  assert (Hnd0 := cw_rows_NoDup cw stock Hnd).
  assert (Hb : drawn_from l (all_draws t) <= Stock.stock_available s).
  { unfold all_draws.
    apply (run_lines_bounded _ _ _ _ l _ _ _ _ s Hnd0 Hin0 Hpos Hlines). }
  unfold stock_conserved. cbv zeta. split; [exact Hb|].
  assert (Hiff : forall s', In (l, s') (positive_stock (cw_rows_after cw stock t))
            <-> 0 < Stock.stock_available s - drawn_from l (all_draws t) /\
                s' = Stock.set_stock_available
                       (Stock.stock_available s - drawn_from l (all_draws t)) s).
  { intros s'. unfold positive_stock, cw_rows_after.
    rewrite filter_In. split.
    - intros [Hin' Hp]. apply apply_draws_In_inv in Hin'.
      destruct Hin' as [s0 [Hs0 ->]].
      assert (s0 = s) by (apply (NoDup_labels_unique _ l _ _ Hnd0 Hs0 Hin0)).
      subst s0. simpl in Hp. apply Z.ltb_lt in Hp. auto.
    - intros [Hp ->]. split; [apply apply_draws_In; exact Hin0|].
      simpl. apply Z.ltb_lt. exact Hp. }
  split.
  - split.
    + intros [s' Hs']. apply Hiff in Hs'. tauto.
    + intros Hp. eexists. apply Hiff. split; [exact Hp | reflexivity].
  - intros s' Hs'. apply Hiff in Hs'. tauto.
Qed.

Lemma stock_conservation_witness :
  plan_of example_allocated_system example_allocated_store
    = Some (map record (all_draws example_trace)) /\
  drawn_from_stock 1000 example_stock (all_draws example_trace) /\
  stock_conserved 1 (Stock.mk 1 1000 200 (200 * NS_PER_DAY))
    (all_draws example_trace) example_remaining.
Proof.
  apply (stock_conservation [2] [] [(1, 100)] 0
           example_analysed_system example_analysed_store
           example_allocated_system example_trace example_allocated_store
           example_stock).
  - vm_compute. reflexivity.
  - vm_compute. reflexivity.
  - vm_compute. reflexivity.
  - simpl. repeat constructor; simpl; intuition discriminate.
  - simpl. auto.
  - reflexivity.
  - simpl. lia.
Defined.

(* ------------------------------------------------------------------ *)
(** ** Totality *)

Lemma allocate_tracker_rows pc pb rules today cw analysis stock final log :
  run_lines cw today rules (cw_rows_of cw stock)
    (sort_values demand_leb (demand_rows_of pc pb analysis))
    (tracker_of (demand_rows_of pc pb analysis)) = Some (final, log) ->
  forall k v, In (k, v) final ->
    exists r, In r analysis /\ Analysis.product_id r = fst k /\
              Analysis.branch_id r = snd k.
Proof.
  intros Hlines k v Hin.
  apply (in_map fst) in Hin. simpl in Hin.
  rewrite (run_lines_keys _ _ _ _ _ _ _ _ Hlines) in Hin.
  apply tracker_of_keys in Hin. apply in_map_iff in Hin.
  destruct Hin as [d [<- Hd]]. apply demand_rows_In in Hd.
  exists (Demand.line d). unfold demand_key. simpl. tauto.
Qed.

Lemma allocate_defined pc pb rules today cw analysis stock :
  exists t unf, allocate pc pb rules today cw analysis stock = Some (t, unf).
Proof.
  unfold allocate. cbv zeta.
  destruct (run_lines_defined cw today rules
              (sort_values demand_leb (demand_rows_of pc pb analysis))
              (cw_rows_of cw stock)
              (tracker_of (demand_rows_of pc pb analysis)))
    as [[final log] Hlines].
  rewrite Hlines.
  destruct (unfulfilled_rows_defined analysis final
              (allocate_tracker_rows _ _ _ _ _ _ _ _ _ Hlines)) as [unf ->].
  eauto.
Qed.

Lemma concat_nil {A : Type} (ls : list (list A)) :
  (forall l, In l ls -> l = []) -> List.concat ls = [].
Proof.
  induction ls as [|l ls IH]; simpl; intros H; [reflexivity|].
  rewrite (H l (or_introl eq_refl)), IH; auto.
Qed.

Lemma run_lines_no_stock cw today rules lines tracker final log :
  run_lines cw today rules [] lines tracker = Some (final, log) ->
  List.concat (map snd log) = [].
Proof.
  intros H. apply concat_nil. intros ds Hds.
  apply in_map_iff in Hds. destruct Hds as [[d ds'] [E Hd]].
  simpl in E. subst ds'. revert d ds Hd.
  apply (run_lines_invariant cw today rules (fun rows => rows = [])
           (fun _ ds => ds = [])) with (4 := H); [| |reflexivity].
  - intros rows ds ->. rewrite apply_draws_map. reflexivity.
  - intros rows row t0 t1 ds -> Hp.
    rewrite process_line_skip in Hp by (intros b []).
    inversion Hp; reflexivity.
Qed.

Lemma wrap_int64_fits z : fits_int64 z -> wrap_int64 z = z.
Proof.
  unfold fits_int64, wrap_int64. intros H.
  rewrite Z.mod_small by lia. lia.
Qed.

Lemma example_dates_in_range : dates_in_range 0 [(1, 100)] example_analysis.
Proof.
  split; [unfold timestamp_in_range; lia|].
  intros r Hr _. simpl in Hr.
  repeat (destruct Hr as [<-|Hr];
          [unfold timestamp_in_range; vm_compute; split; discriminate|]).
  contradiction.
Qed.

(** C5. Totality.  On a system whose forecast and stock attributes hold
    frames, [run_analysis] returns and stores a table, which is empty when the
    forecast is empty.  With any analysis table in place, and [today] and the
    required expiry date of every channel with a demand line within the range
    of the timestamps (beyond it line 139 raises OverflowError),
    [run_allocation] returns and stores its three outputs; the plan and the
    unfulfilled demands are empty when the analysis table is empty, the plan
    and the remaining stock are empty when the stock is empty; and the lookup
    of the original need finds a row for every key of the tracker. *)
Theorem totality pc pb rules today self h forecast stock :
  forecast_of self h = Some forecast ->
  stock_of self h = Some stock ->
  (exists self1 h1 rows,
     run_analysis self h = Some (self1, h1) /\
     analysis_of self1 h1 = Some rows /\
     (forecast = [] -> rows = [])) /\
  (forall analysis, analysis_of self h = Some analysis ->
     dates_in_range today rules analysis ->
     exists self2 t h2 plan unf rem,
       run_allocation pc pb rules today self h = Some ((self2, t), h2) /\
       plan_of self2 h2 = Some plan /\
       unfulfilled_of self2 h2 = Some unf /\
       remaining_of self2 h2 = Some rem /\
       (analysis = [] -> plan = [] /\ unf = []) /\
       (stock = [] -> plan = [] /\ rem = []) /\
       (forall k v, In (k, v) (branch_need_tracker t) ->
          exists need,
            iloc0 (map Analysis.branch_net_need (branch_rows k analysis))
            = Some need)).
Proof.
  intros Hf Hs. split.
  - rewrite (run_analysis_run self h forecast stock Hf Hs).
    do 3 eexists. split; [reflexivity|]. split.
    + unfold analysis_of, frame_at. simpl. rewrite nth_error_new. reflexivity.
    + intros ->. reflexivity.
  - intros analysis Ha _.
    rewrite (run_allocation_run pc pb rules today self h analysis stock Ha Hs).
    cbv zeta.
    destruct (allocate_defined pc pb rules today (cw_branch_id self)
                analysis stock) as [t [unf Hal]].
    rewrite Hal. do 6 eexists. split; [reflexivity|].
    split; [apply plan_of_result|].
    split; [apply unfulfilled_of_result|].
    split; [apply remaining_of_result|].
    apply allocate_inv in Hal. destruct Hal as [Hlines Hrows].
    split; [|split].
    + intros ->. simpl in Hlines. inversion Hlines as [[Et El]].
      unfold all_draws. rewrite <- El. rewrite <- Et in Hrows.
      simpl in Hrows. inversion Hrows. auto.
    + intros ->. unfold cw_rows_after, all_draws.
      change (cw_rows_of (cw_branch_id self) []) with (@nil (Z * Stock.row))
        in Hlines |- *.
      rewrite (run_lines_no_stock _ _ _ _ _ _ _ Hlines). auto.
    + intros k v Hin.
      destruct (allocate_tracker_rows _ _ _ _ _ _ _ _ _ Hlines k v Hin)
        as [r [Hr [Ep Eb]]].
      apply (iloc0_branch_rows_defined k analysis r Hr Ep Eb).
Qed.

Lemma totality_witness :
  (exists self1 h1 rows,
     run_analysis example_analysed_system example_analysed_store
       = Some (self1, h1) /\
     analysis_of self1 h1 = Some rows /\
     (example_forecast = [] -> rows = [])) /\
  (exists self2 t h2 plan unf rem,
     run_allocation [2] [] [(1, 100)] 0
       example_analysed_system example_analysed_store = Some ((self2, t), h2) /\
     plan_of self2 h2 = Some plan /\
     unfulfilled_of self2 h2 = Some unf /\
     remaining_of self2 h2 = Some rem /\
     (example_analysis = [] -> plan = [] /\ unf = []) /\
     (example_stock = [] -> plan = [] /\ rem = []) /\
     (forall k v, In (k, v) (branch_need_tracker t) ->
        exists need,
          iloc0 (map Analysis.branch_net_need (branch_rows k example_analysis))
          = Some need)).
Proof.
  destruct (totality [2] [] [(1, 100)] 0
              example_analysed_system example_analysed_store
              example_forecast example_stock) as [H1 H2].
  - vm_compute. reflexivity.
  - vm_compute. reflexivity.
  - split; [exact H1|]. apply (H2 example_analysis).
    + vm_compute. reflexivity.
    + exact example_dates_in_range.
Defined.

(* ------------------------------------------------------------------ *)
(** ** Lines without an eligible batch *)







(* ------------------------------------------------------------------ *)
(** ** Isolation of the working copy *)



(* ------------------------------------------------------------------ *)
(** ** The allocator on examples *)

(** Forecast 100 for channel 1 and 50 for channel 2 at branch 1, which holds
    30; the central warehouse holds 200 expiring in 200 days; channel 1
    requires 100 days.  Channel 1 gets 100, channel 2 the remaining 20 of the
    net need of 120; nothing is unfulfilled and 80 remain. *)
Example net_need_shared_by_channels :
  let h := [ForecastDF [Forecast.mk 1 1 1 100; Forecast.mk 1 1 2 50];
            StockDF [(0, Stock.mk 1 1 30 (300 * NS_PER_DAY));
                     (1, Stock.mk 1 1000 200 (200 * NS_PER_DAY))];
            UnfulfilledDF []] in
  match run_analysis example_system h with
  | Some (s, h1) =>
      match run_allocation [] [] [(1, 100)] 0 s h1 with
      | Some (s', _, h2) =>
          option_map (map Alloc.quantity_allocated) (plan_of s' h2)
            = Some [100; 20] /\
          unfulfilled_of s' h2 = Some [] /\
          option_map (map (fun b => Stock.stock_available (snd b)))
                     (remaining_of s' h2) = Some [80]
      | None => False
      end
  | None => False
  end.
Proof. vm_compute. repeat split. Qed.

(** The first run of the small system: the priority channel 2 is served
    first; product 2 is drawn from the batch that expires first, then from
    the next one. *)
Example example_plan_rows :
  example_plan =
  [Alloc.mk 1 1000 1 2 50 (200 * NS_PER_DAY);
   Alloc.mk 1 1000 1 1 70 (200 * NS_PER_DAY);
   Alloc.mk 2 1000 1 6 1 (5 * NS_PER_DAY);
   Alloc.mk 2 1000 1 6 7 (10 * NS_PER_DAY)].
Proof. vm_compute. reflexivity. Qed.

(** A demand line with forecast quantity 0 that finds stock appends a record
    with quantity 0. *)
Example zero_forecast_line :
  let h := [ForecastDF [Forecast.mk 1 1 1 0; Forecast.mk 1 1 2 5];
            StockDF [(0, Stock.mk 1 1000 9 (20 * NS_PER_DAY))];
            UnfulfilledDF []] in
  match run_analysis example_system h with
  | Some (s, h1) =>
      match run_allocation [1] [] [] 0 s h1 with
      | Some (s', _, h2) =>
          option_map (map Alloc.quantity_allocated) (plan_of s' h2)
            = Some [0; 5]
      | None => False
      end
  | None => False
  end.
Proof. vm_compute. reflexivity. Qed.

(* ------------------------------------------------------------------ *)
(** ** The rows of the analysis table and the forecast records *)

Lemma key3_leb_spec (a b : key3) :
  key3_leb a b = true <-> key3_lt a b \/ (fst a = fst b /\ snd a <= snd b).
Proof.
  destruct a as [[a1 a2] a3], b as [[b1 b2] b3].
  unfold key3_leb, key3_lt, key2_leb, key2_eqb. simpl.
  rewrite orb_true_iff, negb_true_iff, orb_false_iff, !andb_true_iff,
    andb_false_iff.
  rewrite Z.ltb_ge, Z.eqb_neq, Z.leb_gt, !Z.eqb_eq, Z.leb_le.
  split.
  - intros [[H1 [H2|H2]]|[[E1 E2] H3]]; try lia.
    right. split; [f_equal; lia | lia].
  - intros [H|[E H]]; [lia|]. inversion E; subst. lia.
Qed.

Lemma key3_leb_total (a b : key3) : key3_leb a b = false -> key3_leb b a = true.
Proof.
  intros H. apply key3_leb_spec.
  assert (N : ~ (key3_leb a b = true)) by congruence.
  rewrite key3_leb_spec in N.
  destruct a as [[a1 a2] a3], b as [[b1 b2] b3]. unfold key3_lt in *.
  simpl in *.
  destruct (Z.eq_dec a1 b1) as [E1|N1], (Z.eq_dec a2 b2) as [E2|N2];
    subst; try (left; lia).
  right. split; [reflexivity|].
  destruct (Z.le_gt_cases b3 a3) as [Hle|Hgt]; [exact Hle|].
  exfalso. apply N. left. lia.
Qed.

Lemma key3_leb_trans (a b c : key3) :
  key3_leb a b = true -> key3_leb b c = true -> key3_leb a c = true.
Proof.
  rewrite !key3_leb_spec.
  destruct a as [[a1 a2] a3], b as [[b1 b2] b3], c as [[c1 c2] c3].
  unfold key3_lt. simpl.
  intros [H1|[E1 H1]] [H2|[E2 H2]];
    try (inversion E1; subst); try (inversion E2; subst);
    try (left; lia).
  right. split; [reflexivity | lia].
Qed.

Lemma StronglySorted_strict {A : Type} (R : A -> A -> Prop) (l : list A) :
  StronglySorted R l -> NoDup l ->
  StronglySorted (fun a b => R a b /\ a <> b) l.
Proof.
  induction 1 as [|x l Hl IH Hx]; intros Hnd; constructor.
  - apply IH. inversion Hnd; assumption.
  - inversion Hnd as [|? ? Hnx Hnl]; subst.
    rewrite Forall_forall in *. intros y Hy. split; [auto|].
    intros ->. contradiction.
Qed.

Lemma group_keys_sorted3 (rows : list (key3 * Z)) :
  StronglySorted key3_lt (group_keys key3_eq_dec key3_leb rows).
Proof.
  assert (Hs : StronglySorted (fun a b => key3_leb a b = true /\ a <> b)
                 (group_keys key3_eq_dec key3_leb rows)).
  { apply StronglySorted_strict; [|apply group_keys_NoDup].
    unfold group_keys. apply sort_values_strongly;
      [apply key3_leb_total | apply key3_leb_trans]. }
  rewrite <- (map_id (group_keys key3_eq_dec key3_leb rows)).
  eapply StronglySorted_map_on; [|exact Hs].
  intros a b _ _ [Hab Hne]. apply key3_leb_spec in Hab.
  destruct Hab as [Hlt|[E Hle]]; [exact Hlt|].
  destruct a as [a12 a3], b as [b12 b3]. simpl in *. subst b12.
  unfold key3_lt. simpl. right. split; [reflexivity|]. right.
  split; [reflexivity|].
  destruct (Z.eq_dec a3 b3) as [->|N]; [contradiction | lia].
Qed.

Lemma analysis_table_keys cw forecast stock :
  map analysis_key (analysis_table cw forecast stock) =
  group_keys key3_eq_dec key3_leb
    (map (fun f => (forecast_key f, Forecast.forecast_quantity f)) forecast).
Proof.
  rewrite analysis_table_eq, map_map.
  unfold agg_forecast. rewrite <- groupby_sum_keys.
  apply map_ext. intros [[[p b] c] q]. reflexivity.
Qed.

(** X1. When the sum of the forecast quantities of every (product_id,
    branch_id, channel_id) fits int64, [run_analysis] stores one row per
    distinct key of the forecast frame, in strictly ascending order of that
    key, and the forecast_quantity of a row is the sum of the forecast
    quantities of the records with its key. *)
Theorem analysis_rows_of_forecast self h self' h' forecast rows :
  run_analysis self h = Some (self', h') ->
  forecast_of self h = Some forecast ->
  analysis_of self' h' = Some rows ->
  forecast_sums_fit forecast ->
  StronglySorted key3_lt (map analysis_key rows) /\
  NoDup (map analysis_key rows) /\
  (forall k, In k (map analysis_key rows) <-> In k (map forecast_key forecast)) /\
  (forall r, In r rows ->
     Analysis.forecast_quantity r = forecast_total forecast (analysis_key r)).
Proof.
  intros Hrun Hf Hrows Hfit.
  destruct (run_analysis_result _ _ _ _ _ Hrun Hrows)
    as [forecast' [stock [Hf' [_ ->]]]].
  rewrite Hf in Hf'. inversion Hf'; subst forecast'. clear Hf'.
  rewrite analysis_table_keys.
  split; [apply group_keys_sorted3|].
  split; [apply group_keys_NoDup|]. split.
  - intros k. rewrite group_keys_In, map_map. reflexivity.
  - intros r Hr. apply analysis_table_In in Hr.
    destruct Hr as [c [q [Hin E]]]. cbv zeta in Hin, E.
    unfold agg_forecast in Hin. apply groupby_sum_In in Hin.
    destruct Hin as [_ Eq].
    rewrite (group_values_map key3_eq_dec forecast_key
               Forecast.forecast_quantity) in Eq.
    rewrite E. unfold analysis_key, forecast_total. simpl. exact Eq.
Qed.

Lemma analysis_rows_of_forecast_witness :
  StronglySorted key3_lt (map analysis_key example_analysis) /\
  NoDup (map analysis_key example_analysis) /\
  (forall k, In k (map analysis_key example_analysis)
             <-> In k (map forecast_key example_forecast)) /\
  (forall r, In r example_analysis ->
     Analysis.forecast_quantity r
     = forecast_total example_forecast (analysis_key r)).
Proof.
  apply (analysis_rows_of_forecast example_system example_store
           example_analysed_system example_analysed_store).
  - vm_compute. reflexivity.
  - vm_compute. reflexivity.
  - vm_compute. reflexivity.
  - intros k Hk. simpl in Hk.
    repeat (destruct Hk as [<-|Hk]; [vm_compute; split; discriminate|]).
    contradiction.
Defined.

(* ------------------------------------------------------------------ *)
(** ** Sums regrouped by key *)

Lemma total_map_add {A : Type} (f g : A -> Z) (l : list A) :
  total (map (fun x => f x + g x) l) = total (map f l) + total (map g l).
Proof. induction l as [|x l IH]; simpl; [reflexivity | rewrite IH; lia]. Qed.

Lemma total_indicator {K : Type} (eqb : K -> K -> bool) (a : K) (v : Z)
    (ks : list K) :
  (forall x y, eqb x y = true <-> x = y) -> NoDup ks ->
  total (map (fun k => if eqb a k then v else 0) ks) =
  if existsb (eqb a) ks then v else 0.
Proof.
  intros Heq. induction 1 as [|k ks Hk Hnd IH]; simpl; [reflexivity|].
  rewrite IH. destruct (eqb a k) eqn:E; simpl; [|reflexivity].
  apply Heq in E. subst k.
  destruct (existsb (eqb a) ks) eqn:Ex; [|lia].
  apply existsb_exists in Ex. destruct Ex as [y [Hy Ey]].
  apply Heq in Ey. subst y. contradiction.
Qed.

(** Summing the per-key sums over distinct keys is summing once over the
    rows whose key is among them. *)
Lemma total_by_key {X K : Type} (eqb : K -> K -> bool) (key : X -> K)
    (val : X -> Z) (ks : list K) (xs : list X) :
  (forall x y, eqb x y = true <-> x = y) -> NoDup ks ->
  total (map (fun k => total (map val (filter (fun x => eqb (key x) k) xs))) ks)
  = total (map val (filter (fun x => existsb (eqb (key x)) ks) xs)).
Proof.
  intros Heq Hnd. induction xs as [|x xs IH].
  - simpl. induction ks; simpl; auto. rewrite IHks; auto.
    inversion Hnd; assumption.
  - rewrite (map_ext _
      (fun k => (if eqb (key x) k then val x else 0)
                + total (map val (filter (fun x => eqb (key x) k) xs)))).
    + rewrite total_map_add, IH, total_indicator by assumption.
      simpl. destruct (existsb (eqb (key x)) ks); reflexivity.
    + intros k. simpl. destruct (eqb (key x) k); reflexivity.
Qed.

Lemma filter_map_comm {A B : Type} (f : A -> B) (p : B -> bool) (l : list A) :
  filter p (map f l) = map f (filter (fun x => p (f x)) l).
Proof.
  induction l as [|x l IH]; simpl; auto.
  destruct (p (f x)); simpl; rewrite IH; reflexivity.
Qed.

Lemma key3_eqb_eq (a b : key3) : key3_eqb a b = true <-> a = b.
Proof. unfold key3_eqb. destruct (key3_eq_dec a b); split; congruence. Qed.

Lemma existsb_filter_key (P : key3 -> bool) (ks : list key3) (a : key3) :
  In a ks -> existsb (key3_eqb a) (filter P ks) = P a.
Proof.
  intros Ha. destruct (P a) eqn:E.
  - apply existsb_exists. exists a. split.
    + apply filter_In. auto.
    + apply key3_eqb_eq. reflexivity.
  - destruct (existsb (key3_eqb a) (filter P ks)) eqn:Ex; [|reflexivity].
    apply existsb_exists in Ex. destruct Ex as [y [Hy Ey]].
    apply key3_eqb_eq in Ey. subst y. apply filter_In in Hy. 
    destruct Hy as [_ Hy]. congruence.
Qed.

(** The value the second merge of [run_analysis] finds for a branch is the
    sum of the forecast quantities of all the forecast records of the
    branch. *)
Lemma lookup_branch_total_forecast cw forecast stock k :
  fillna 0 (lookup2 k (branch_total_forecast (merged_stock cw forecast stock)))
  = branch_forecast_total forecast k.
Proof.
  unfold branch_total_forecast. rewrite lookup2_groupby_sum.
  rewrite (group_values_map key2_eq_dec
             (fun r : key3 * Z * Z => fst (fst (fst r)))
             (fun r : key3 * Z * Z => snd (fst r))).
  rewrite merged_stock_eq, filter_map_comm, map_map. cbn [fst snd].
  unfold agg_forecast, groupby_sum, groupby.
  rewrite !filter_map_comm, !map_map. cbn [fst snd].
  set (pairs := map (fun f => (forecast_key f, Forecast.forecast_quantity f))
                    forecast).
  set (P := fun k3 : key3 => if key2_eq_dec (fst k3) k then true else false).
  transitivity
    (total (map (fun k3 => total (map snd
                   (filter (fun x : key3 * Z => key3_eqb (fst x) k3) pairs)))
                (filter P (group_keys key3_eq_dec key3_leb pairs)))).
  { reflexivity. }
  rewrite total_by_key;
    [| apply key3_eqb_eq | apply NoDup_filter, group_keys_NoDup].
  rewrite (filter_ext_in _ (fun x : key3 * Z => P (fst x))).
  - unfold pairs. rewrite filter_map_comm, map_map. cbn [fst snd].
    unfold branch_forecast_total. f_equal. f_equal.
    apply filter_ext. intros f. unfold P.
    destruct (key2_eq_dec (fst (forecast_key f)) k) as [->|N].
    + symmetry. apply key2_eqb_refl.
    + symmetry. apply key2_eqb_neq. exact N.
  - intros x Hx. apply existsb_filter_key.
    apply group_keys_In. apply in_map. exact Hx.
Qed.

(** X2. In a row that [run_analysis] stores, when for its (product_id,
    branch_id) the forecast total and the net need fit int64 and the stock
    total is at most 2^53 in absolute value: total_forecast_at_branch is
    the sum of the forecast quantities of all the forecast records of that
    (product_id, branch_id), total_stock_available is the stock of that
    product held at that branch when the branch is not the central
    warehouse, and branch_net_need is the first minus the second. *)
Theorem net_need_formula self h self' h' forecast stock rows r :
  run_analysis self h = Some (self', h') ->
  forecast_of self h = Some forecast ->
  stock_of self h = Some stock ->
  analysis_of self' h' = Some rows ->
  In r rows ->
  branch_sums_fit (cw_branch_id self) forecast stock
    (Analysis.product_id r, Analysis.branch_id r) ->
  let k := (Analysis.product_id r, Analysis.branch_id r) in
  Analysis.total_forecast_at_branch r = branch_forecast_total forecast k /\
  Analysis.total_stock_available r
  = destination_stock_total (cw_branch_id self) stock k /\
  Analysis.branch_net_need r
  = branch_forecast_total forecast k
    - destination_stock_total (cw_branch_id self) stock k.
Proof.
  intros Hrun Hf Hs Hrows Hr Hfit k.
  destruct (run_analysis_result _ _ _ _ _ Hrun Hrows)
    as [forecast' [stock' [Hf' [Hs' ->]]]].
  rewrite Hf in Hf'. rewrite Hs in Hs'.
  inversion Hf'; subst forecast'. inversion Hs'; subst stock'.
  apply analysis_table_In in Hr. destruct Hr as [c [q [_ E]]].
  cbv zeta in E. fold k in E.
  rewrite lookup_branch_total_forecast, lookup_agg_branch_stock in E.
  rewrite E. simpl. auto.
Qed.

Lemma net_need_formula_witness :
  let r := Analysis.mk 1 1 2 50 30 150 120 ALLOCATION_NEEDED in
  let k := (Analysis.product_id r, Analysis.branch_id r) in
  Analysis.total_forecast_at_branch r = branch_forecast_total example_forecast k /\
  Analysis.total_stock_available r
  = destination_stock_total (cw_branch_id example_system) example_stock k /\
  Analysis.branch_net_need r
  = branch_forecast_total example_forecast k
    - destination_stock_total (cw_branch_id example_system) example_stock k.
Proof.
  apply (net_need_formula example_system example_store
           example_analysed_system example_analysed_store
           example_forecast example_stock example_analysis).
  - vm_compute. reflexivity.
  - vm_compute. reflexivity.
  - vm_compute. reflexivity.
  - vm_compute. reflexivity.
  - vm_compute. tauto.
  - vm_compute. repeat split; discriminate.
Defined.

(* ------------------------------------------------------------------ *)
(** ** No channel and no branch gets more than it asked for *)

Lemma allocated_to_channel_app k p1 p2 :
  allocated_to_channel k (p1 ++ p2)
  = allocated_to_channel k p1 + allocated_to_channel k p2.
Proof.
  unfold allocated_to_channel. rewrite filter_app, map_app. apply total_app.
Qed.

Lemma allocated_to_channel_line cw today rules k row ds :
  line_records cw today rules row ds ->
  allocated_to_channel k (map record ds) =
  if key3_eqb (analysis_key (Demand.line row)) k
  then total (map taken ds) else 0.
Proof.
  intros H. induction ds as [|d ds IH].
  - destruct (key3_eqb _ _); reflexivity.
  - assert (E : alloc_key (record d) = analysis_key (Demand.line row)).
    { destruct (H d (or_introl eq_refl)) as [E1 [_ [E2 [E3 _]]]].
      unfold alloc_key, analysis_key. rewrite E1, E2, E3. reflexivity. }
    assert (IH' := IH (fun x Hx => H x (or_intror Hx))).
    change (map record (d :: ds)) with ([record d] ++ map record ds).
    rewrite allocated_to_channel_app, IH'.
    unfold allocated_to_channel at 1. simpl. rewrite E.
    destruct (key3_eqb (analysis_key (Demand.line row)) k); simpl;
      unfold taken; lia.
Qed.

Lemma allocated_to_channel_log cw today rules k
    (log : list (Demand.row * list Draw)) :
  (forall d ds, In (d, ds) log -> line_records cw today rules d ds) ->
  allocated_to_channel k (map record (List.concat (map snd log))) =
  total (map (fun e => if key3_eqb (log_key e) k
                       then total (map taken (snd e)) else 0) log).
Proof.
  induction log as [|[d ds] log IH]; intros H; [reflexivity|].
  simpl. rewrite map_app, allocated_to_channel_app.
  rewrite (allocated_to_channel_line cw today rules k d ds)
    by (apply H; left; reflexivity).
  rewrite IH by (intros d' ds' Hin; apply H; right; exact Hin).
  reflexivity.
Qed.

Lemma total_absent {A : Type} (key : A -> key3) (g : A -> Z) (l : list A) k :
  ~ In k (map key l) ->
  total (map (fun e => if key3_eqb (key e) k then g e else 0) l) = 0.
Proof.
  induction l as [|a l IH]; intros H; [reflexivity|]. simpl.
  rewrite IH by (intros Hc; apply H; right; exact Hc).
  destruct (key3_eqb (key a) k) eqn:E; [|reflexivity].
  apply key3_eqb_eq in E. exfalso. apply H. left. exact E.
Qed.

Lemma total_single {A : Type} (key : A -> key3) (g : A -> Z) (l : list A) a :
  NoDup (map key l) -> In a l ->
  total (map (fun e => if key3_eqb (key e) (key a) then g e else 0) l) = g a.
Proof.
  induction l as [|b l IH]; intros Hnd Hin; [contradiction|].
  simpl in Hnd. inversion Hnd as [|? ? Hnot Hnd']; subst. simpl.
  destruct Hin as [->|Hin].
  - rewrite total_absent by exact Hnot.
    destruct (key3_eqb (key a) (key a)) eqn:E; [lia|].
    assert (key3_eqb (key a) (key a) = true) by (apply key3_eqb_eq; reflexivity).
    congruence.
  - rewrite IH by assumption.
    destruct (key3_eqb (key b) (key a)) eqn:E; [|lia].
    apply key3_eqb_eq in E. exfalso. apply Hnot. rewrite E.
    apply in_map. exact Hin.
Qed.

Lemma NoDup_map_filter {A B : Type} (key : A -> B) (f : A -> bool) (l : list A) :
  NoDup (map key l) -> NoDup (map key (filter f l)).
Proof.
  induction l as [|x l IH]; simpl; intros H; [constructor|].
  inversion H as [|? ? Hx Hl]; subst.
  destruct (f x); simpl; [constructor|]; auto.
  intros Hc. apply Hx. apply in_map_iff in Hc. destruct Hc as [y [E Hy]].
  apply filter_In in Hy. rewrite <- E. apply in_map. tauto.
Qed.

(** The keys of the processed lines are those of the rows of the analysis
    table that need allocation, each once when the table has one row per
    key. *)
Lemma processed_keys pc pb rules today cw analysis stock final log :
  run_lines cw today rules (cw_rows_of cw stock)
    (sort_values demand_leb (demand_rows_of pc pb analysis))
    (tracker_of (demand_rows_of pc pb analysis)) = Some (final, log) ->
  Permutation (map analysis_key (filter allocation_needed analysis))
              (map log_key log).
Proof.
  intros Hrun. apply run_lines_lines in Hrun.
  unfold log_key.
  rewrite <- (map_map fst (fun d => analysis_key (Demand.line d))), Hrun.
  rewrite <- (demand_lines_of pc pb), map_map.
  apply Permutation_map, sort_values_perm.
Qed.

Lemma NoDup_map_inj {A B : Type} (key : A -> B) (l : list A) a b :
  NoDup (map key l) -> In a l -> In b l -> key a = key b -> a = b.
Proof.
  induction l as [|x l IH]; simpl; intros Hnd Ha Hb E; [contradiction|].
  inversion Hnd as [|? ? Hx Hl]; subst.
  destruct Ha as [->|Ha], Hb as [->|Hb]; auto.
  - exfalso. apply Hx. rewrite E. apply in_map. exact Hb.
  - exfalso. apply Hx. rewrite <- E. apply in_map. exact Ha.
Qed.

Lemma process_line_quota cw today rules rows row tracker t ds :
  process_line cw today rules rows row tracker = Some (t, ds) ->
  total (map taken ds) <= Z.max 0 (Analysis.forecast_quantity (Demand.line row)).
Proof.
  intros H. apply process_line_cases in H.
  destruct H as [[_ ->]|[_ [qty [available [Hq [_ [_ [-> _]]]]]]]].
  - simpl. lia.
  - assert (H1 := fefo_draws_fulfilled cw row qty available 0).
    assert (H2 := fefo_draws_le_max cw row qty available 0).
    lia.
Qed.

Lemma run_lines_quota cw today rules lines rows tracker final log d ds :
  run_lines cw today rules rows lines tracker = Some (final, log) ->
  In (d, ds) log ->
  total (map taken ds) <= Z.max 0 (Analysis.forecast_quantity (Demand.line d)).
Proof.
  intros Hrun Hin.
  refine (run_lines_invariant cw today rules (fun _ => True)
            (fun d ds => total (map taken ds)
                         <= Z.max 0 (Analysis.forecast_quantity (Demand.line d)))
            _ _ lines rows tracker final log I Hrun d ds Hin); [auto|].
  intros rows0 row tr t0 ds0 _. apply process_line_quota.
Qed.

(** X3. In the plan of a run on an analysis table with one row per
    (product_id, branch_id, channel_id) and one positive net need per branch
    that needs allocation: the quantities sent to a channel of a branch sum
    to at most the forecast quantity of its row (to at most 0 when that is
    negative), and the quantities sent to a branch sum to at most its net
    need. *)
Theorem no_over_allocation pc pb rules today self h self' t h' analysis plan r :
  run_allocation pc pb rules today self h = Some ((self', t), h') ->
  analysis_of self h = Some analysis ->
  plan_of self' h' = Some plan ->
  well_formed_analysis analysis ->
  NoDup (map analysis_key analysis) ->
  In r analysis ->
  allocated_to_channel (analysis_key r) plan
  <= Z.max 0 (Analysis.forecast_quantity r) /\
  (allocation_needed r = true ->
   allocated_to (Analysis.product_id r, Analysis.branch_id r) plan
   <= Analysis.branch_net_need r).
Proof.
  intros Hrun Ha Hp Hwf Hnd Hr.
  destruct (run_allocation_inv _ _ _ _ _ _ _ _ _ Hrun)
    as [analysis' [stock [unf [Ha' [Hs [Hal [-> ->]]]]]]].
  rewrite Ha in Ha'. inversion Ha'; subst analysis'. clear Ha'.
  rewrite plan_of_result in Hp. inversion Hp; subst plan. clear Hp.
  destruct (allocate_inv _ _ _ _ _ _ _ _ _ Hal) as [Hlines _].
  unfold all_draws. split.
  - rewrite (allocated_to_channel_log (cw_branch_id self) today rules)
      by (intros d ds; apply (run_lines_records _ _ _ _ _ _ _ _ _ _ Hlines)).
    assert (Hperm := processed_keys _ _ _ _ _ _ _ _ _ Hlines).
    destruct (in_dec key3_eq_dec (analysis_key r) (map log_key (processed t)))
      as [Hin|Hout].
    + apply in_map_iff in Hin. destruct Hin as [[d ds] [Ek He]].
      rewrite <- Ek.
      rewrite (total_single log_key (fun e => total (map taken (snd e))));
        [| apply (Permutation_NoDup Hperm), NoDup_map_filter, Hnd | exact He].
      assert (Hd : In d (demand_rows_of pc pb analysis)).
      { apply (sort_values_In demand_leb).
        rewrite <- (run_lines_lines _ _ _ _ _ _ _ _ Hlines).
        apply (in_map fst) in He. exact He. }
      apply demand_rows_In in Hd. destruct Hd as [Hd _].
      assert (Demand.line d = r)
        by (apply (NoDup_map_inj analysis_key analysis); assumption).
      subst r. simpl.
      apply (run_lines_quota _ _ _ _ _ _ _ _ _ _ Hlines He).
    + rewrite total_absent by exact Hout. lia.
  - intros Hn.
    assert (Ht := run_lines_tracker _ _ _ _
                    (Analysis.product_id r, Analysis.branch_id r)
                    _ _ _ _ Hlines).
    rewrite (tracker_of_need pc pb analysis r Hwf Hr Hn) in Ht.
    assert (Hge := run_lines_nonneg _ _ _ _ _ _ _ _ Hlines
                     (fun k => tracker_of_nonneg pc pb analysis k Hwf)
                     (Analysis.product_id r, Analysis.branch_id r)).
    lia.
Qed.

Lemma no_over_allocation_witness :
  let r := Analysis.mk 2 1 6 10 0 10 10 ALLOCATION_NEEDED in
  allocated_to_channel (analysis_key r) example_plan
  <= Z.max 0 (Analysis.forecast_quantity r) /\
  (allocation_needed r = true ->
   allocated_to (Analysis.product_id r, Analysis.branch_id r) example_plan
   <= Analysis.branch_net_need r).
Proof.
  apply (no_over_allocation [2] [] [(1, 100)] 0
           example_analysed_system example_analysed_store
           example_allocated_system example_trace example_allocated_store
           example_analysis).
  - vm_compute. reflexivity.
  - vm_compute. reflexivity.
  - vm_compute. reflexivity.
  - exact example_analysis_well_formed.
  - simpl. repeat constructor; simpl; intuition discriminate.
  - simpl. auto.
Defined.

(* ------------------------------------------------------------------ *)
(** ** The sign of the allocated quantities *)

Lemma process_line_stock_ok cw today rules rows row tracker t ds :
  stock_ok rows ->
  process_line cw today rules rows row tracker = Some (t, ds) ->
  stock_ok (apply_draws ds rows).
Proof.
  intros [Hnd Hpos] Hp. split.
  - rewrite apply_draws_labels. exact Hnd.
  - intros [l s'] Hb. apply apply_draws_In_inv in Hb.
    destruct Hb as [s [Hs ->]]. destruct s as [p br st e]. simpl.
    assert (Hle := process_line_bounded _ _ _ _ _ _ _ _ l _ Hnd Hs
                     (Hpos _ Hs) Hp).
    simpl in Hle. lia.
Qed.

Lemma run_lines_stock_invariant cw today rules
    (Q : Demand.row -> list Draw -> Prop) :
  (forall rows row tracker t ds,
     stock_ok rows ->
     process_line cw today rules rows row tracker = Some (t, ds) ->
     Q row ds) ->
  forall lines rows tracker final log,
    stock_ok rows ->
    run_lines cw today rules rows lines tracker = Some (final, log) ->
    forall d ds, In (d, ds) log -> Q d ds.
Proof.
  intros HQ. induction lines as [|row lines IH];
    intros rows tracker final log Hok Hrun d ds Hin; simpl in Hrun.
  - inversion Hrun; subst. contradiction.
  - destruct (process_line cw today rules rows row tracker)
      as [[t1 ds1]|] eqn:Ep; [|discriminate].
    destruct (run_lines cw today rules (apply_draws ds1 rows) lines t1)
      as [[final' log']|] eqn:Er; [|discriminate].
    inversion Hrun; subst. destruct Hin as [E|Hin].
    + inversion E; subst. eapply HQ; eauto.
    + eapply IH; [| exact Er | exact Hin].
      eapply process_line_stock_ok; eauto.
Qed.

Lemma fefo_draws_positive cw row qty batches :
  (forall b, In b batches -> 0 <= Stock.stock_available (snd b)) ->
  forall f x,
    f < qty ->
    In x (snd (fefo_draws cw row qty batches f)) -> 0 < taken x.
Proof.
  intros Hpos. induction batches as [|b rest IH]; intros f x Hf Hx;
    simpl in Hx; [contradiction|].
  assert (Hb := Hpos b (or_introl eq_refl)).
  assert (IH' := IH (fun y Hy => Hpos y (or_intror Hy))).
  destruct (Stock.stock_available (snd b) =? 0) eqn:E0.
  - eapply IH'; eauto.
  - apply Z.eqb_neq in E0.
    destruct (f + Z.min (qty - f) (Stock.stock_available (snd b)) =? qty)
      eqn:Eq; simpl in Hx.
    + destruct Hx as [<-|[]]. unfold taken. simpl. lia.
    + apply Z.eqb_neq in Eq. destruct Hx as [<-|Hx].
      * unfold taken. simpl. lia.
      * eapply IH'; [|exact Hx]. lia.
Qed.

Lemma fefo_draws_cons cw row qty b rest f :
  fefo_draws cw row qty (b :: rest) f =
  if Stock.stock_available (snd b) =? 0
  then fefo_draws cw row qty rest f
  else
    if f + Z.min (qty - f) (Stock.stock_available (snd b)) =? qty
    then (f + Z.min (qty - f) (Stock.stock_available (snd b)),
          [draw_of cw row b (Z.min (qty - f) (Stock.stock_available (snd b)))])
    else (fst (fefo_draws cw row qty rest
                 (f + Z.min (qty - f) (Stock.stock_available (snd b)))),
          draw_of cw row b (Z.min (qty - f) (Stock.stock_available (snd b)))
            :: snd (fefo_draws cw row qty rest
                      (f + Z.min (qty - f) (Stock.stock_available (snd b))))).
Proof. reflexivity. Qed.

Lemma fefo_draws_single cw row qty batches :
  (forall b, In b batches -> 0 <= Stock.stock_available (snd b)) ->
  qty <= 0 ->
  forall x,
    In x (snd (fefo_draws cw row qty batches 0)) ->
    taken x = qty /\ snd (fefo_draws cw row qty batches 0) = [x].
Proof.
  intros Hpos Hq. induction batches as [|b rest IH]; intros x Hx;
    [contradiction|].
  assert (Hb := Hpos b (or_introl eq_refl)).
  assert (IH' := IH (fun y Hy => Hpos y (or_intror Hy))).
  rewrite fefo_draws_cons in *.
  destruct (Stock.stock_available (snd b) =? 0) eqn:E0.
  - apply IH'. exact Hx.
  - apply Z.eqb_neq in E0.
    assert (Em : Z.min (qty - 0) (Stock.stock_available (snd b)) = qty) by lia.
    rewrite Em in *.
    assert (Eq : (0 + qty =? qty) = true) by (apply Z.eqb_eq; lia).
    rewrite Eq in *. cbn [snd In] in *. destruct Hx as [<-|[]].
    split; reflexivity.
Qed.

Lemma process_line_takes cw today rules rows row tracker t ds x :
  stock_ok rows ->
  process_line cw today rules rows row tracker = Some (t, ds) ->
  In x ds ->
  let f := Analysis.forecast_quantity (Demand.line row) in
  (0 < f -> 0 < taken x) /\ (f <= 0 -> taken x = f /\ ds = [x]).
Proof.
  intros [_ Hpos] Hp Hx f. apply process_line_cases in Hp.
  destruct Hp as [[_ ->]|[Hrem [qty [available [Hq [Ha [_ [-> _]]]]]]]];
    [contradiction|].
  assert (Hav : forall b, In b available -> 0 <= Stock.stock_available (snd b)).
  { intros b Hb. apply Hpos. rewrite Ha in Hb. apply filter_In in Hb. tauto. }
  fold f in Hq. split; intros Hf.
  - apply (fefo_draws_positive cw row qty available Hav 0 x); [lia | exact Hx].
  - assert (qty = f) by lia. clear Hq. subst qty.
    apply (fefo_draws_single cw row f available Hav Hf x Hx).
Qed.

Lemma cw_rows_stock_ok cw stock :
  NoDup (map fst stock) ->
  (forall b, In b stock -> Stock.branch_id (snd b) = cw ->
             0 <= Stock.stock_available (snd b)) ->
  stock_ok (cw_rows_of cw stock).
Proof.
  intros Hnd Hpos. split; [apply cw_rows_NoDup; exact Hnd|].
  intros b Hb. apply cw_rows_In in Hb. destruct Hb as [Hb Hc]. auto.
Qed.

(** X4. When the stock frame has distinct index labels and no negative
    stock at the central warehouse, every record made for a demand line
    with a positive forecast quantity has a positive quantity_allocated;
    a line whose forecast quantity is zero or negative gets at most one
    record, and its quantity_allocated is that forecast quantity. *)
Theorem allocated_quantity_sign pc pb rules today self h self' t h' stock
    d ds x :
  run_allocation pc pb rules today self h = Some ((self', t), h') ->
  stock_of self h = Some stock ->
  NoDup (map fst stock) ->
  (forall b, In b stock -> Stock.branch_id (snd b) = cw_branch_id self ->
             0 <= Stock.stock_available (snd b)) ->
  In (d, ds) (processed t) ->
  In x ds ->
  let f := Analysis.forecast_quantity (Demand.line d) in
  (0 < f -> 0 < Alloc.quantity_allocated (record x)) /\
  (f <= 0 -> Alloc.quantity_allocated (record x) = f /\ ds = [x]).
Proof.
  intros Hrun Hs Hnd Hpos Hin Hx.
  destruct (run_allocation_inv _ _ _ _ _ _ _ _ _ Hrun)
    as [analysis [stock' [unf [_ [Hs' [Hal _]]]]]].
  rewrite Hs in Hs'. inversion Hs'; subst stock'. clear Hs'.
  destruct (allocate_inv _ _ _ _ _ _ _ _ _ Hal) as [Hlines _].
  refine (run_lines_stock_invariant (cw_branch_id self) today rules
            (fun d ds => forall x, In x ds ->
               let f := Analysis.forecast_quantity (Demand.line d) in
               (0 < f -> 0 < taken x) /\ (f <= 0 -> taken x = f /\ ds = [x]))
            _ _ _ _ _ _ (cw_rows_stock_ok _ _ Hnd Hpos) Hlines d ds Hin x Hx).
  intros rows row tracker t0 ds0 Hok Hp y Hy.
  exact (process_line_takes _ _ _ _ _ _ _ _ y Hok Hp Hy).
Qed.

Lemma allocated_quantity_sign_witness :
  let x := mkDraw 3 (Alloc.mk 2 1000 1 6 1 (5 * NS_PER_DAY)) in
  let f := Analysis.forecast_quantity (Demand.line example_line) in
  (0 < f -> 0 < Alloc.quantity_allocated (record x)) /\
  (f <= 0 -> Alloc.quantity_allocated (record x) = f
             /\ example_line_draws = [x]).
Proof.
  apply (allocated_quantity_sign [2] [] [(1, 100)] 0
           example_analysed_system example_analysed_store
           example_allocated_system example_trace example_allocated_store
           example_stock).
  - vm_compute. reflexivity.
  - vm_compute. reflexivity.
  - simpl. repeat constructor; simpl; intuition discriminate.
  - simpl. intros b Hb _.
    repeat (destruct Hb as [<-|Hb]; [simpl; lia|]). contradiction.
  - vm_compute. right. right. left. reflexivity.
  - simpl. left. reflexivity.
Defined.

(* ------------------------------------------------------------------ *)
(** ** A shortfall means that the eligible stock ran out *)

Lemma total_nonneg (l : list Z) : (forall z, In z l -> 0 <= z) -> 0 <= total l.
Proof.
  induction l as [|z l IH]; simpl; intros H; [lia|].
  assert (0 <= z) by (apply H; left; reflexivity).
  assert (0 <= total l) by (apply IH; intros y Hy; apply H; right; exact Hy).
  unfold total in *. lia.
Qed.

Lemma drawn_from_nonneg l draws :
  (forall x, In x draws -> 0 <= taken x) -> 0 <= drawn_from l draws.
Proof.
  intros H. unfold drawn_from. apply total_nonneg. intros z Hz.
  apply in_map_iff in Hz. destruct Hz as [x [<- Hx]].
  apply filter_In in Hx. apply H. tauto.
Qed.

Lemma allocated_to_nonneg k draws :
  (forall x, In x draws -> 0 <= taken x) ->
  0 <= allocated_to k (map record draws).
Proof.
  intros H. unfold allocated_to. apply total_nonneg. intros z Hz.
  apply in_map_iff in Hz. destruct Hz as [a [<- Ha]].
  apply filter_In in Ha. destruct Ha as [Ha _].
  apply in_map_iff in Ha. destruct Ha as [x [<- Hx]]. apply (H x Hx).
Qed.

Lemma run_lines_takes_nonneg cw today rules lines rows tracker final log x :
  stock_ok rows ->
  (forall d, In d lines -> 0 <= Analysis.forecast_quantity (Demand.line d)) ->
  run_lines cw today rules rows lines tracker = Some (final, log) ->
  In x (List.concat (map snd log)) -> 0 <= taken x.
Proof.
  intros Hok Hf Hrun Hx. apply in_concat in Hx.
  destruct Hx as [ds [Hds Hx]]. apply in_map_iff in Hds.
  destruct Hds as [[d ds'] [E Hin]]. simpl in E. subst ds'.
  assert (Hd : In d lines).
  { rewrite <- (run_lines_lines _ _ _ _ _ _ _ _ Hrun).
    apply (in_map fst) in Hin. exact Hin. }
  assert (HQ := run_lines_stock_invariant cw today rules
            (fun d ds => forall x, In x ds ->
               let f := Analysis.forecast_quantity (Demand.line d) in
               (0 < f -> 0 < taken x) /\ (f <= 0 -> taken x = f /\ ds = [x]))
            (fun rows row tracker t ds Hok Hp y Hy =>
               process_line_takes _ _ _ _ _ _ _ _ y Hok Hp Hy)
            _ _ _ _ _ Hok Hrun d ds Hin x Hx).
  cbv zeta in HQ. assert (H0 := Hf d Hd). destruct HQ as [H1 H2].
  destruct (Z.eq_dec (Analysis.forecast_quantity (Demand.line d)) 0) as [E|N].
  - destruct H2 as [H2 _]; lia.
  - assert (0 < taken x) by (apply H1; lia). lia.
Qed.

Lemma fefo_draws_exhausts cw row qty batches :
  NoDup (map fst batches) ->
  (forall b, In b batches -> 0 <= Stock.stock_available (snd b)) ->
  forall f, f <= qty ->
    fst (fefo_draws cw row qty batches f) = qty \/
    (forall b, In b batches ->
       drawn_from (fst b) (snd (fefo_draws cw row qty batches f))
       = Stock.stock_available (snd b)).
Proof.
  induction batches as [|b rest IH]; intros Hnd Hpos f Hf.
  - right. intros b [].
  - simpl in Hnd. inversion Hnd as [|? ? Hnot Hnd']; subst.
    assert (Hb := Hpos b (or_introl eq_refl)).
    assert (IH' := IH Hnd' (fun y Hy => Hpos y (or_intror Hy))).
    rewrite fefo_draws_cons.
    destruct (Stock.stock_available (snd b) =? 0) eqn:E0.
    + apply Z.eqb_eq in E0. destruct (IH' f Hf) as [L|R]; [left; exact L|].
      right. intros y [<-|Hy]; [|apply R; exact Hy].
      rewrite fefo_draws_other by exact Hnot. lia.
    + apply Z.eqb_neq in E0.
      set (take := Z.min (qty - f) (Stock.stock_available (snd b))).
      destruct (f + take =? qty) eqn:Eq.
      * left. apply Z.eqb_eq in Eq. exact Eq.
      * apply Z.eqb_neq in Eq.
        assert (Et : take = Stock.stock_available (snd b)) by (unfold take; lia).
        destruct (IH' (f + take) ltac:(unfold take; lia)) as [L|R];
          [left; exact L|].
        right. cbn [snd]. intros y Hy. rewrite drawn_from_cons.
        cbn [batch_idx draw_of]. destruct Hy as [<-|Hy].
        -- rewrite Z.eqb_refl, fefo_draws_other by exact Hnot.
           unfold taken. cbn. fold take. lia.
        -- rewrite (R y Hy).
           destruct (fst b =? fst y) eqn:El; [|lia].
           apply Z.eqb_eq in El. exfalso. apply Hnot. rewrite El.
           apply in_map. exact Hy.
Qed.

Lemma eligible_apply_draws p req draws rows b :
  In b (apply_draws draws rows) ->
  exists s, In (fst b, s) rows /\
    eligible p req (fst b, s) = eligible p req b /\
    Stock.stock_available (snd b)
    = Stock.stock_available s - drawn_from (fst b) draws.
Proof.
  destruct b as [l s']. intros Hb. apply apply_draws_In_inv in Hb.
  destruct Hb as [s [Hs ->]]. exists s. simpl. auto.
Qed.

Lemma process_line_cases3 cw today rules rows row tracker t ds :
  process_line cw today rules rows row tracker = Some (t, ds) ->
  (dict_get key2_eqb tracker (demand_key row) 0 <= 0 /\
   t = tracker /\ ds = []) \/
  (0 < dict_get key2_eqb tracker (demand_key row) 0 /\
   filter (eligible (Analysis.product_id (Demand.line row))
             (required_expiry today rules
                (Analysis.channel_id (Demand.line row)))) rows = [] /\
   t = tracker /\ ds = []) \/
  (0 < dict_get key2_eqb tracker (demand_key row) 0 /\
   exists qty available,
     qty = Z.min (Analysis.forecast_quantity (Demand.line row))
                 (dict_get key2_eqb tracker (demand_key row) 0) /\
     available =
       filter (eligible (Analysis.product_id (Demand.line row))
                 (required_expiry today rules
                    (Analysis.channel_id (Demand.line row)))) rows /\
     ds = snd (fefo_draws cw row qty available 0) /\
     dict_sub key2_eqb tracker (demand_key row)
              (fst (fefo_draws cw row qty available 0)) = Some t).
Proof.
  unfold process_line. cbv zeta.
  destruct (dict_get key2_eqb tracker (demand_key row) 0 <=? 0) eqn:E.
  - apply Z.leb_le in E. intros H; inversion H; subst; left; auto.
  - apply Z.leb_gt in E.
    match goal with
    | |- context [filter ?f rows] => set (available := filter f rows)
    end.
    destruct available as [|b bs] eqn:Ea.
    + intros H; inversion H; subst; right; left; auto.
    + intros H. right. right. split; [exact E|].
      match type of H with
      | option_map _ (dict_sub _ _ _ (fst ?res)) = _ =>
          destruct (dict_sub key2_eqb tracker (demand_key row) (fst res))
            as [t'|] eqn:Ed; [|discriminate]
      end.
      simpl in H. inversion H; subst.
      eexists. exists (b :: bs). repeat split; try reflexivity. exact Ed.
Qed.

Lemma process_line_exhausts cw today rules rows row tracker t ds :
  stock_ok rows ->
  0 <= Analysis.forecast_quantity (Demand.line row) ->
  process_line cw today rules rows row tracker = Some (t, ds) ->
  total (map taken ds) < Analysis.forecast_quantity (Demand.line row) ->
  0 < dict_get key2_eqb t (demand_key row) 0 ->
  forall b, In b (apply_draws ds rows) ->
    eligible (Analysis.product_id (Demand.line row))
      (required_expiry today rules (Analysis.channel_id (Demand.line row))) b
    = true ->
    Stock.stock_available (snd b) = 0.
Proof.
  intros [Hnd Hpos] Hf Hp Hlt Hrem b Hb He.
  set (p := Analysis.product_id (Demand.line row)) in *.
  set (req := required_expiry today rules
                (Analysis.channel_id (Demand.line row))) in *.
  destruct (eligible_apply_draws p req _ _ _ Hb) as [s [Hs [Ee Est]]].
  rewrite He in Ee.
  assert (Hav : In (fst b, s) (filter (eligible p req) rows))
    by (apply filter_In; auto).
  assert (Hnd' : NoDup (map fst (filter (eligible p req) rows)))
    by (apply NoDup_labels_filter; exact Hnd).
  assert (Hpos' : forall y, In y (filter (eligible p req) rows) ->
                    0 <= Stock.stock_available (snd y))
    by (intros y Hy; apply filter_In in Hy; apply Hpos; tauto).
  apply process_line_cases3 in Hp. fold p req in Hp.
  destruct Hp as [[Hle [-> _]]|[[_ [Hnil _]]|[Hr [qty [av [Hq [-> [-> Ht]]]]]]]].
  - lia.
  - rewrite Hnil in Hav. contradiction.
  - assert (Hd := dict_sub_get _ _ _ _ (demand_key row) Ht).
    rewrite key2_eqb_refl in Hd.
    assert (Hfu := fefo_draws_fulfilled cw row qty
                     (filter (eligible p req) rows) 0).
    destruct (fefo_draws_exhausts cw row qty _ Hnd' Hpos' 0 ltac:(lia))
      as [L|R].
    + exfalso. lia.
    + assert (Hx := R _ Hav). cbn [fst snd] in Hx. lia.
Qed.

Lemma run_lines_exhausts cw today rules lines :
  forall rows tracker final log,
    stock_ok rows ->
    (forall d, In d lines -> 0 <= Analysis.forecast_quantity (Demand.line d)) ->
    run_lines cw today rules rows lines tracker = Some (final, log) ->
    forall d ds,
      In (d, ds) log ->
      total (map taken ds) < Analysis.forecast_quantity (Demand.line d) ->
      0 < dict_get key2_eqb final (demand_key d) 0 ->
      forall b, In b (apply_draws (List.concat (map snd log)) rows) ->
        eligible (Analysis.product_id (Demand.line d))
          (required_expiry today rules (Analysis.channel_id (Demand.line d))) b
        = true ->
        Stock.stock_available (snd b) = 0.
Proof.
  induction lines as [|row lines IH];
    intros rows tracker final log Hok Hf Hrun d ds Hin Hlt Hrem b Hb He;
    simpl in Hrun.
  - inversion Hrun; subst. contradiction.
  - destruct (process_line cw today rules rows row tracker)
      as [[t1 ds1]|] eqn:Ep; [|discriminate].
    destruct (run_lines cw today rules (apply_draws ds1 rows) lines t1)
      as [[final' log']|] eqn:Er; [|discriminate].
    inversion Hrun; subst final' log. clear Hrun.
    assert (Hok1 := process_line_stock_ok _ _ _ _ _ _ _ _ Hok Ep).
    assert (Hf' : forall d, In d lines ->
                    0 <= Analysis.forecast_quantity (Demand.line d))
      by (intros y Hy; apply Hf; right; exact Hy).
    simpl in Hb. rewrite apply_draws_app in Hb.
    destruct Hin as [E|Hin].
    + inversion E; subst row ds1. clear E.
      assert (Hnn : forall x, In x (List.concat (map snd log')) -> 0 <= taken x)
        by (intros x Hx;
            apply (run_lines_takes_nonneg _ _ _ _ _ _ _ _ x Hok1 Hf' Er Hx)).
      assert (Ht := run_lines_tracker _ _ _ _ (demand_key d) _ _ _ _ Er).
      assert (Ha := allocated_to_nonneg (demand_key d) _ Hnn).
      destruct (eligible_apply_draws
                  (Analysis.product_id (Demand.line d))
                  (required_expiry today rules
                     (Analysis.channel_id (Demand.line d))) _ _ _ Hb)
        as [s [Hs [Ee Est]]].
      rewrite He in Ee.
      assert (H0 := process_line_exhausts _ _ _ _ _ _ _ _ Hok
                      (Hf d (or_introl eq_refl)) Ep Hlt ltac:(lia) _ Hs Ee).
      cbn [snd] in H0.
      assert (Hle := run_lines_bounded _ _ _ _ (fst b) _ _ _ _ s
                       (proj1 Hok1) Hs ltac:(lia) Er).
      assert (Hge := drawn_from_nonneg (fst b) _ Hnn).
      lia.
    + eapply (IH _ _ _ _ Hok1 Hf' Er d ds Hin Hlt Hrem b Hb He).
Qed.

(** X5. A shortfall means that the eligible stock ran out.  With distinct
    index labels, no negative stock at the central warehouse and no negative
    forecast among the rows that need allocation: when a demand line got
    less than its forecast quantity and its branch still has a row in the
    unfulfilled demands, the remaining-stock frame holds no batch of the
    line's product whose expiry date meets the rule of the line's channel. *)
Theorem shortfall_means_stock_ran_out pc pb rules today self h self' t h'
    analysis stock unf remaining d ds u :
  run_allocation pc pb rules today self h = Some ((self', t), h') ->
  analysis_of self h = Some analysis ->
  stock_of self h = Some stock ->
  unfulfilled_of self' h' = Some unf ->
  remaining_of self' h' = Some remaining ->
  NoDup (map fst stock) ->
  (forall b, In b stock -> Stock.branch_id (snd b) = cw_branch_id self ->
             0 <= Stock.stock_available (snd b)) ->
  (forall r, In r analysis -> allocation_needed r = true ->
             0 <= Analysis.forecast_quantity r) ->
  In (d, ds) (processed t) ->
  total (map (fun x => Alloc.quantity_allocated (record x)) ds)
  < Analysis.forecast_quantity (Demand.line d) ->
  In u unf ->
  Unfulfilled.product_id u = Analysis.product_id (Demand.line d) ->
  Unfulfilled.branch_id u = Analysis.branch_id (Demand.line d) ->
  ineligible (cw_branch_id self) today rules remaining (Demand.line d).
Proof.
  intros Hrun Ha Hs Hu Hr Hnd Hpos Hfc Hin Hlt Hinu Eup Eub.
  destruct (run_allocation_inv _ _ _ _ _ _ _ _ _ Hrun)
    as [analysis' [stock' [unf' [Ha' [Hs' [Hal [-> ->]]]]]]].
  rewrite Ha in Ha'. inversion Ha'; subst analysis'. clear Ha'.
  rewrite Hs in Hs'. inversion Hs'; subst stock'. clear Hs'.
  rewrite unfulfilled_of_result in Hu. inversion Hu; subst unf'. clear Hu.
  rewrite remaining_of_result in Hr. inversion Hr; subst remaining. clear Hr.
  destruct (allocate_inv _ _ _ _ _ _ _ _ _ Hal) as [Hlines Hunf].
  assert (Hrem : 0 < dict_get key2_eqb (branch_need_tracker t) (demand_key d) 0).
  { apply (unfulfilled_rows_In _ _ _ Hunf) in Hinu.
    destruct Hinu as [[kp kb] [rem [need [Hk [Hgt [_ ->]]]]]].
    simpl in Eup, Eub. subst kp kb.
    rewrite (dict_get_unique _ (demand_key d) rem); [exact Hgt | | exact Hk].
    rewrite (run_lines_keys _ _ _ _ _ _ _ _ Hlines). apply tracker_of_NoDup. }
  assert (Hf : forall y,
             In y (sort_values demand_leb (demand_rows_of pc pb analysis)) ->
             0 <= Analysis.forecast_quantity (Demand.line y)).
  { intros y Hy. apply sort_values_In in Hy. apply demand_rows_In in Hy.
    apply Hfc; tauto. }
  intros b Hb Hcw Hprod.
  apply filter_In in Hb. destruct Hb as [Hb Hgt]. apply Z.ltb_lt in Hgt.
  destruct (Z.lt_ge_cases (Stock.expiry_date (snd b))
              (today + timedelta (dict_get Z.eqb rules
                                    (Analysis.channel_id (Demand.line d)) 0)))
    as [Hlt'|Hge]; [exact Hlt'|].
  exfalso.
  assert (H0 := run_lines_exhausts _ _ _ _ _ _ _ _
                  (cw_rows_stock_ok _ _ Hnd Hpos) Hf Hlines d ds Hin Hlt Hrem
                  b Hb).
  rewrite H0 in Hgt; [lia|].
  unfold eligible, required_expiry. rewrite Hprod, Z.eqb_refl. simpl.
  apply Z.leb_le. exact Hge.
Qed.

Lemma shortfall_means_stock_ran_out_witness :
  ineligible 1000 0 [(1, 100)] example_remaining (Demand.line example_line).
Proof.
  apply (shortfall_means_stock_ran_out [2] [] [(1, 100)] 0
           example_analysed_system example_analysed_store
           example_allocated_system example_trace example_allocated_store
           example_analysis example_stock example_unfulfilled
           example_remaining example_line example_line_draws
           (Unfulfilled.mk 2 1 10 8 2)).
  - vm_compute. reflexivity.
  - vm_compute. reflexivity.
  - vm_compute. reflexivity.
  - vm_compute. reflexivity.
  - vm_compute. reflexivity.
  - simpl. repeat constructor; simpl; intuition discriminate.
  - simpl. intros b Hb _.
    repeat (destruct Hb as [<-|Hb]; [simpl; lia|]). contradiction.
  - simpl. intros r Hr _.
    repeat (destruct Hr as [<-|Hr]; [simpl; lia|]). contradiction.
  - vm_compute. right. right. left. reflexivity.
  - vm_compute. reflexivity.
  - simpl. left. reflexivity.
  - reflexivity.
  - reflexivity.
Defined.

(* ------------------------------------------------------------------ *)
(** ** The rows of the unfulfilled demands *)

Lemma group_keys_sorted2 (rows : list (key2 * Z)) :
  StronglySorted key2_lt (group_keys key2_eq_dec key2_leb rows).
Proof.
  assert (Hs : StronglySorted (fun a b => key2_leb a b = true /\ a <> b)
                 (group_keys key2_eq_dec key2_leb rows)).
  { apply StronglySorted_strict; [|apply group_keys_NoDup].
    unfold group_keys. apply sort_values_strongly;
      [apply key2_leb_total | apply key2_leb_trans]. }
  rewrite <- (map_id (group_keys key2_eq_dec key2_leb rows)).
  eapply StronglySorted_map_on; [|exact Hs].
  intros [a1 a2] [b1 b2] _ _ [Hab Hne]. apply key2_leb_spec in Hab.
  unfold key2_lt. simpl in *.
  destruct Hab as [Hlt|[E Hle]]; [left; exact Hlt|].
  right. split; [exact E|].
  destruct (Z.eq_dec a2 b2) as [->|N]; [subst; contradiction | lia].
Qed.

Lemma unfulfilled_rows_keys analysis items :
  forall unf,
    unfulfilled_rows analysis items = Some unf ->
    map unfulfilled_key unf
    = map fst (filter (fun it : key2 * Z => 0 <? snd it) items).
Proof.
  induction items as [|[k v] items IH]; intros unf H; simpl in H.
  - inversion H. reflexivity.
  - simpl. destruct (0 <? v) eqn:E; [|apply IH; exact H].
    destruct (iloc0 _) as [need|]; [|discriminate].
    destruct (unfulfilled_rows analysis items) as [rows|]; [|discriminate].
    inversion H; subst. simpl. rewrite (IH rows eq_refl).
    destruct k; reflexivity.
Qed.

(** X6. The unfulfilled demands are listed in strictly ascending order of
    (product_id, branch_id), so with one row per branch at most, and each
    row has a positive unfulfilled quantity.  On an analysis table with one
    positive net need per branch that needs allocation, a branch with a
    demand line has a row there exactly when the plan sends it less than
    its net need. *)
Theorem unfulfilled_demands_report pc pb rules today self h self' t h'
    analysis plan unf :
  run_allocation pc pb rules today self h = Some ((self', t), h') ->
  analysis_of self h = Some analysis ->
  plan_of self' h' = Some plan ->
  unfulfilled_of self' h' = Some unf ->
  well_formed_analysis analysis ->
  StronglySorted key2_lt (map unfulfilled_key unf) /\
  (forall u, In u unf -> 0 < Unfulfilled.unfulfilled u) /\
  (forall r, In r analysis -> allocation_needed r = true ->
     ((exists u, In u unf /\
         unfulfilled_key u = (Analysis.product_id r, Analysis.branch_id r))
      <-> allocated_to (Analysis.product_id r, Analysis.branch_id r) plan
          < Analysis.branch_net_need r)).
Proof.
  intros Hrun Ha Hp Hu Hwf.
  destruct (run_allocation_inv _ _ _ _ _ _ _ _ _ Hrun)
    as [analysis' [stock [unf' [Ha' [Hs [Hal [-> ->]]]]]]].
  rewrite Ha in Ha'. inversion Ha'; subst analysis'. clear Ha'.
  rewrite plan_of_result in Hp. inversion Hp; subst plan. clear Hp.
  rewrite unfulfilled_of_result in Hu. inversion Hu; subst unf'. clear Hu.
  destruct (allocate_inv _ _ _ _ _ _ _ _ _ Hal) as [Hlines Hunf].
  assert (Hkeys := run_lines_keys _ _ _ _ _ _ _ _ Hlines).
  assert (Hnd : NoDup (map fst (branch_need_tracker t)))
    by (rewrite Hkeys; apply tracker_of_NoDup).
  split; [|split].
  - rewrite (unfulfilled_rows_keys _ _ _ Hunf).
    apply StronglySorted_map_filter. rewrite Hkeys.
    unfold tracker_of. rewrite groupby_first_keys. apply group_keys_sorted2.
  - intros u Hin. apply (unfulfilled_rows_In _ _ _ Hunf) in Hin.
    destruct Hin as [k [rem [need [_ [Hgt [_ ->]]]]]]. exact Hgt.
  - intros r Hr Hn.
    set (k := (Analysis.product_id r, Analysis.branch_id r)).
    assert (Ht := run_lines_tracker _ _ _ _ k _ _ _ _ Hlines).
    unfold k in Ht. rewrite (tracker_of_need pc pb analysis r Hwf Hr Hn) in Ht.
    fold k in Ht. unfold all_draws.
    assert (Hk : In k (map fst (branch_need_tracker t))).
    { rewrite Hkeys. apply tracker_of_keys.
      destruct (demand_row_of_needed pc pb analysis r Hr Hn) as [d [Hd E]].
      apply in_map_iff. exists d. split; [|exact Hd].
      unfold demand_key, k. rewrite E. reflexivity. }
    split.
    + intros [u [Hin Ek]]. apply (unfulfilled_rows_In _ _ _ Hunf) in Hin.
      destruct Hin as [k' [rem [need [Hi [Hgt [_ ->]]]]]].
      unfold unfulfilled_key in Ek. simpl in Ek.
      rewrite <- surjective_pairing in Ek. subst k'.
      rewrite (dict_get_unique _ k rem Hnd Hi) in Ht. lia.
    + intros Hlt.
      assert (Hi := dict_get_In _ k Hk).
      assert (Hgt : 0 < dict_get key2_eqb (branch_need_tracker t) k 0) by lia.
      destruct (iloc0_branch_rows_defined k analysis r Hr eq_refl eq_refl)
        as [need Hneed].
      exists (Unfulfilled.mk (fst k) (snd k) need
                (need - dict_get key2_eqb (branch_need_tracker t) k 0)
                (dict_get key2_eqb (branch_need_tracker t) k 0)).
      split; [|reflexivity].
      apply (unfulfilled_rows_In _ _ _ Hunf).
      exists k, (dict_get key2_eqb (branch_need_tracker t) k 0), need. auto.
Qed.

Lemma unfulfilled_demands_report_witness :
  StronglySorted key2_lt (map unfulfilled_key example_unfulfilled) /\
  (forall u, In u example_unfulfilled -> 0 < Unfulfilled.unfulfilled u) /\
  (forall r, In r example_analysis -> allocation_needed r = true ->
     ((exists u, In u example_unfulfilled /\
         unfulfilled_key u = (Analysis.product_id r, Analysis.branch_id r))
      <-> allocated_to (Analysis.product_id r, Analysis.branch_id r)
            example_plan
          < Analysis.branch_net_need r)).
Proof.
  apply (unfulfilled_demands_report [2] [] [(1, 100)] 0
           example_analysed_system example_analysed_store
           example_allocated_system example_trace example_allocated_store).
  - vm_compute. reflexivity.
  - vm_compute. reflexivity.
  - vm_compute. reflexivity.
  - vm_compute. reflexivity.
  - exact example_analysis_well_formed.
Defined.

(* ------------------------------------------------------------------ *)
(** ** Conservation of the stock of a product *)

Lemma total_perm (l1 l2 : list Z) : Permutation l1 l2 -> total l1 = total l2.
Proof.
  induction 1; unfold total in *; simpl; lia.
Qed.

Lemma filter_perm {A : Type} (f : A -> bool) (l1 l2 : list A) :
  Permutation l1 l2 -> Permutation (filter f l1) (filter f l2).
Proof.
  induction 1; simpl.
  - constructor.
  - destruct (f x); [constructor|]; assumption.
  - destruct (f x), (f y); try apply Permutation_refl.
    apply perm_swap.
  - eapply Permutation_trans; eassumption.
Qed.

Lemma product_stock_total_perm p rows1 rows2 :
  Permutation rows1 rows2 ->
  product_stock_total p rows1 = product_stock_total p rows2.
Proof.
  intros H. unfold product_stock_total.
  apply total_perm, Permutation_map, filter_perm, H.
Qed.

Lemma product_stock_total_positive p rows :
  (forall b, In b rows -> 0 <= Stock.stock_available (snd b)) ->
  product_stock_total p (positive_stock rows) = product_stock_total p rows.
Proof.
  unfold product_stock_total, positive_stock.
  induction rows as [|b rows IH]; intros H; [reflexivity|].
  assert (Hb := H b (or_introl eq_refl)).
  assert (IH' := IH (fun y Hy => H y (or_intror Hy))).
  simpl.
  destruct (0 <? Stock.stock_available (snd b)) eqn:E;
    [apply Z.ltb_lt in E | apply Z.ltb_ge in E]; simpl;
    destruct (Stock.product_id (snd b) =? p); simpl; rewrite ?IH'; lia.
Qed.

Lemma product_stock_total_sub p (g : Z -> Z) rows :
  product_stock_total p
    (map (fun r => (fst r,
                    Stock.set_stock_available
                      (Stock.stock_available (snd r) - g (fst r)) (snd r)))
         rows)
  = product_stock_total p rows
    - total (map (fun r => g (fst r))
               (filter (fun b => Stock.product_id (snd b) =? p) rows)).
Proof.
  unfold product_stock_total.
  induction rows as [|[l s] rows IH]; [reflexivity|].
  simpl. destruct (Stock.product_id s =? p); simpl; rewrite IH; lia.
Qed.

Lemma draws_of_product cw stock draws p x :
  NoDup (map fst stock) ->
  drawn_from_stock cw stock draws ->
  In x draws ->
  existsb (Z.eqb (batch_idx x))
    (map fst (filter (fun b => Stock.product_id (snd b) =? p)
                (cw_rows_of cw stock)))
  = (Alloc.product_id (record x) =? p).
Proof.
  intros Hnd Hds Hx. destruct (Hds x Hx) as [s [Hs [Hc [Hp _]]]].
  destruct (Alloc.product_id (record x) =? p) eqn:E.
  - apply Z.eqb_eq in E. apply existsb_exists. exists (batch_idx x).
    split; [|apply Z.eqb_refl].
    apply in_map_iff. exists (batch_idx x, s). split; [reflexivity|].
    apply filter_In. split.
    + apply cw_rows_In. auto.
    + simpl. apply Z.eqb_eq. congruence.
  - apply Z.eqb_neq in E.
    destruct (existsb _ _) eqn:Ex; [|reflexivity]. exfalso. apply E.
    apply existsb_exists in Ex. destruct Ex as [l [Hl El]].
    apply Z.eqb_eq in El. subst l.
    apply in_map_iff in Hl. destruct Hl as [[l s'] [El Hl]].
    simpl in El. subst l. apply filter_In in Hl. destruct Hl as [Hl Hp'].
    apply cw_rows_In in Hl. destruct Hl as [Hl _].
    simpl in Hp'. apply Z.eqb_eq in Hp'.
    rewrite (NoDup_labels_unique stock (batch_idx x) s s' Hnd Hs Hl) in Hp.
    congruence.
Qed.

(** X7. Conservation of the stock of a product.  With distinct index labels
    and no negative stock at the central warehouse, the stock of a product
    held at the central warehouse before the run is the quantity of that
    product allocated by the plan plus the stock of that product in the
    remaining-stock frame. *)
Theorem product_stock_conservation pc pb rules today self h self' t h'
    stock plan remaining p :
  run_allocation pc pb rules today self h = Some ((self', t), h') ->
  stock_of self h = Some stock ->
  plan_of self' h' = Some plan ->
  remaining_of self' h' = Some remaining ->
  NoDup (map fst stock) ->
  (forall b, In b stock -> Stock.branch_id (snd b) = cw_branch_id self ->
             0 <= Stock.stock_available (snd b)) ->
  product_stock_total p (warehouse_rows (cw_branch_id self) stock)
  = product_allocated_total p plan + product_stock_total p remaining.
Proof.
  intros Hrun Hs Hp Hr Hnd Hpos.
  destruct (run_allocation_inv _ _ _ _ _ _ _ _ _ Hrun)
    as [analysis [stock' [unf [_ [Hs' [Hal [-> ->]]]]]]].
  rewrite Hs in Hs'. inversion Hs'; subst stock'. clear Hs'.
  rewrite plan_of_result in Hp. inversion Hp; subst plan. clear Hp.
  rewrite remaining_of_result in Hr. inversion Hr; subst remaining. clear Hr.
  destruct (allocate_inv _ _ _ _ _ _ _ _ _ Hal) as [Hlines _].
  set (cw := cw_branch_id self) in *.
  assert (Hok := cw_rows_stock_ok cw stock Hnd Hpos).
  destruct Hok as [Hnd0 Hpos0].
  assert (Hds : drawn_from_stock cw stock (all_draws t)).
  { intros x Hx. apply all_draws_In in Hx. destruct Hx as [d [ds [Hd Hx]]].
    refine (run_lines_batches cw today rules stock _ _ _ _ _ d ds _ Hlines
              Hd x Hx).
    intros b Hb. exists (snd b). rewrite <- surjective_pairing. auto. }
  rewrite product_stock_total_positive.
  - unfold cw_rows_after. rewrite apply_draws_map.
    rewrite (product_stock_total_sub p (fun l => drawn_from l (all_draws t))).
    rewrite (product_stock_total_perm p (warehouse_rows cw stock)
               (cw_rows_of cw stock))
      by (apply sort_values_perm).
    set (rows_p := filter (fun b => Stock.product_id (snd b) =? p)
                     (cw_rows_of cw stock)).
    assert (E : total (map (fun r : Z * Stock.row =>
                              drawn_from (fst r) (all_draws t)) rows_p)
                = product_allocated_total p (map record (all_draws t))).
    { rewrite <- (map_map fst (fun l => drawn_from l (all_draws t))).
      unfold drawn_from.
      rewrite (total_by_key Z.eqb batch_idx taken (map fst rows_p)
                 (all_draws t) Z.eqb_eq)
        by (apply NoDup_labels_filter; exact Hnd0).
      rewrite (filter_ext_in _
                 (fun x => Alloc.product_id (record x) =? p)).
      - unfold product_allocated_total.
        rewrite filter_map_comm, map_map. reflexivity.
      - intros x Hx. apply (draws_of_product cw stock _ p x Hnd Hds Hx). }
    rewrite E. lia.
  - intros b Hb. unfold cw_rows_after in Hb.
    destruct b as [l s']. apply apply_draws_In_inv in Hb.
    destruct Hb as [s [Hin ->]]. simpl.
    assert (Hle : drawn_from l (all_draws t) <= Stock.stock_available s).
    { unfold all_draws.
      apply (run_lines_bounded _ _ _ _ l _ _ _ _ s Hnd0 Hin
               (Hpos0 _ Hin) Hlines). }
    lia.
Qed.

Lemma product_stock_conservation_witness :
  product_stock_total 1 (warehouse_rows 1000 example_stock)
  = product_allocated_total 1 example_plan
    + product_stock_total 1 example_remaining.
Proof.
  apply (product_stock_conservation [2] [] [(1, 100)] 0
           example_analysed_system example_analysed_store
           example_allocated_system example_trace example_allocated_store
           example_stock).
  - vm_compute. reflexivity.
  - vm_compute. reflexivity.
  - vm_compute. reflexivity.
  - vm_compute. reflexivity.
  - simpl. repeat constructor; simpl; intuition discriminate.
  - simpl. intros b Hb _.
    repeat (destruct Hb as [<-|Hb]; [simpl; lia|]). contradiction.
Defined.

(* ------------------------------------------------------------------ *)
(** ** The remaining-stock frame *)

Lemma StronglySorted_unmap {A B : Type} (R : B -> B -> Prop) (key : A -> B)
    (l : list A) :
  StronglySorted R (map key l) ->
  StronglySorted (fun a b => R (key a) (key b)) l.
Proof.
  induction l as [|x l IH]; simpl; intros H; [constructor|].
  inversion H as [|? ? Hl Hx]; subst. constructor; [apply IH; exact Hl|].
  rewrite Forall_forall in *. intros y Hy. apply Hx. apply in_map. exact Hy.
Qed.

Lemma fefo_sorted_order rows :
  fefo_sorted rows -> StronglySorted fefo_order rows.
Proof.
  intros H. apply StronglySorted_unmap in H.
  rewrite <- (map_id rows). eapply StronglySorted_map_on; [|exact H].
  intros a b _ _ Hab. cbv beta in Hab. apply key2_leb_spec in Hab.
  exact Hab.
Qed.

(** X8. The remaining-stock frame is in the order of product_id, then
    expiry_date; each of its rows has positive stock and is, but for the
    stock, a row of the stock frame held at the central warehouse, under
    the same index label. *)
Theorem remaining_stock_frame pc pb rules today self h self' t h'
    stock remaining :
  run_allocation pc pb rules today self h = Some ((self', t), h') ->
  stock_of self h = Some stock ->
  remaining_of self' h' = Some remaining ->
  StronglySorted fefo_order remaining /\
  (forall b, In b remaining ->
     0 < Stock.stock_available (snd b) /\
     exists s, In (fst b, s) stock /\
       Stock.branch_id s = cw_branch_id self /\
       snd b = Stock.set_stock_available (Stock.stock_available (snd b)) s).
Proof.
  intros Hrun Hs Hr.
  destruct (run_allocation_inv _ _ _ _ _ _ _ _ _ Hrun)
    as [analysis [stock' [unf [_ [Hs' [_ [-> ->]]]]]]].
  rewrite Hs in Hs'. inversion Hs'; subst stock'. clear Hs'.
  rewrite remaining_of_result in Hr. inversion Hr; subst remaining. clear Hr.
  split.
  - apply fefo_sorted_order. unfold fefo_sorted, positive_stock.
    apply StronglySorted_map_filter.
    apply (apply_draws_sorted (all_draws t)). apply cw_rows_sorted.
  - intros [l s'] Hb. apply filter_In in Hb. destruct Hb as [Hb Hgt].
    apply Z.ltb_lt in Hgt. split; [exact Hgt|].
    unfold cw_rows_after in Hb. apply apply_draws_In_inv in Hb.
    destruct Hb as [s [Hin ->]]. apply cw_rows_In in Hin.
    destruct Hin as [Hin Hcw]. exists s. simpl. auto.
Qed.

Lemma remaining_stock_frame_witness :
  StronglySorted fefo_order example_remaining /\
  (forall b, In b example_remaining ->
     0 < Stock.stock_available (snd b) /\
     exists s, In (fst b, s) example_stock /\
       Stock.branch_id s = 1000 /\
       snd b = Stock.set_stock_available (Stock.stock_available (snd b)) s).
Proof.
  apply (remaining_stock_frame [2] [] [(1, 100)] 0
           example_analysed_system example_analysed_store
           example_allocated_system example_trace example_allocated_store).
  - vm_compute. reflexivity.
  - vm_compute. reflexivity.
  - vm_compute. reflexivity.
Defined.

(* ------------------------------------------------------------------ *)
(** ** When the two methods raise *)

(** X9. [run_analysis] raises exactly when the forecast or the stock
    attribute holds no frame.  With [today] and the required expiry date of
    every channel with a demand line within the range of the timestamps
    (beyond it line 139 raises OverflowError), [run_allocation] raises
    exactly when the analysis or the stock attribute holds no frame: on an
    object whose earlier steps were run, no lookup, sort or subtraction of
    the two methods fails. *)
Theorem raises_only_without_frames pc pb rules today self h :
  (run_analysis self h = None
   <-> forecast_of self h = None \/ stock_of self h = None) /\
  ((forall analysis, analysis_of self h = Some analysis ->
      dates_in_range today rules analysis) ->
   (run_allocation pc pb rules today self h = None
    <-> analysis_of self h = None \/ stock_of self h = None)).
Proof.
  split; [|intros _]; split.
  - intros Hnone.
    destruct (forecast_of self h) as [forecast|] eqn:Ef; [|left; reflexivity].
    destruct (stock_of self h) as [stock|] eqn:Es; [|right; reflexivity].
    rewrite (run_analysis_run self h forecast stock Ef Es) in Hnone.
    discriminate.
  - intros Hmiss.
    destruct (run_analysis self h) as [[self' h']|] eqn:Er; [|reflexivity].
    destruct (run_analysis_inv _ _ _ _ Er) as [forecast [stock [Hf Hs]]].
    destruct Hmiss; congruence.
  - intros Hnone.
    destruct (analysis_of self h) as [analysis|] eqn:Ea; [|left; reflexivity].
    destruct (stock_of self h) as [stock|] eqn:Es; [|right; reflexivity].
    rewrite (run_allocation_run pc pb rules today self h analysis stock Ea Es)
      in Hnone.
    destruct (allocate_defined pc pb rules today (cw_branch_id self)
                analysis stock) as [t [unf E]].
    rewrite E in Hnone. discriminate.
  - intros Hmiss.
    destruct (run_allocation pc pb rules today self h)
      as [[[self' t] h']|] eqn:Er; [|reflexivity].
    destruct (run_allocation_inv _ _ _ _ _ _ _ _ _ Er)
      as [analysis [stock [unf [Ha [Hs _]]]]].
    destruct Hmiss; congruence.
Qed.

Lemma raises_only_without_frames_witness :
  (run_analysis example_analysed_system example_analysed_store = None
   <-> forecast_of example_analysed_system example_analysed_store = None
       \/ stock_of example_analysed_system example_analysed_store = None) /\
  (run_allocation [2] [] [(1, 100)] 0
     example_analysed_system example_analysed_store = None
   <-> analysis_of example_analysed_system example_analysed_store = None
       \/ stock_of example_analysed_system example_analysed_store = None).
Proof.
  destruct (raises_only_without_frames [2] [] [(1, 100)] 0
              example_analysed_system example_analysed_store) as [H1 H2].
  split; [exact H1|]. apply H2.
  intros analysis Ha. vm_compute in Ha. inversion Ha.
  exact example_dates_in_range.
Defined.

(* ------------------------------------------------------------------ *)
(** ** The fulfilment figure *)

Lemma dict_sub_total (d d' : list (key2 * Z)) k x :
  dict_sub key2_eqb d k x = Some d' ->
  total (map snd d') = total (map snd d) - x.
Proof.
  revert d'. induction d as [|[k' v] d IH]; intros d' H; simpl in H;
    [discriminate|].
  destruct (key2_eqb k' k).
  - inversion H; subst. simpl. lia.
  - destruct (dict_sub key2_eqb d k x) as [d1|]; [|discriminate].
    simpl in H. inversion H; subst. simpl. rewrite (IH d1 eq_refl). lia.
Qed.

Lemma process_line_total cw today rules rows row tracker t ds :
  process_line cw today rules rows row tracker = Some (t, ds) ->
  total (map snd t) = total (map snd tracker) - total (map taken ds).
Proof.
  intros H. apply process_line_cases in H.
  destruct H as [[-> ->]|[_ [qty [available [_ [_ [_ [-> Ht]]]]]]]].
  - simpl. lia.
  - rewrite (dict_sub_total _ _ _ _ Ht).
    rewrite (fefo_draws_fulfilled cw row qty available 0). lia.
Qed.

Lemma run_lines_total cw today rules lines :
  forall rows tracker final log,
    run_lines cw today rules rows lines tracker = Some (final, log) ->
    total (map snd final)
    = total (map snd tracker) - total (map taken (List.concat (map snd log))).
Proof.
  induction lines as [|row lines IH]; intros rows tracker final log H;
    simpl in H.
  - inversion H; subst. simpl. lia.
  - destruct (process_line cw today rules rows row tracker)
      as [[t1 ds1]|] eqn:Ep; [|discriminate].
    destruct (run_lines cw today rules (apply_draws ds1 rows) lines t1)
      as [[final' log']|] eqn:Er; [|discriminate].
    inversion H; subst. simpl. rewrite map_app, total_app.
    rewrite (IH _ _ _ _ Er), (process_line_total _ _ _ _ _ _ _ _ Ep). lia.
Qed.

Lemma unfulfilled_rows_values analysis items :
  forall unf,
    unfulfilled_rows analysis items = Some unf ->
    map Unfulfilled.unfulfilled unf = filter (fun v => 0 <? v) (map snd items).
Proof.
  induction items as [|[k v] items IH]; intros unf H; simpl in H.
  - inversion H. reflexivity.
  - simpl. destruct (0 <? v) eqn:E; [|apply IH; exact H].
    destruct (iloc0 _) as [need|]; [|discriminate].
    destruct (unfulfilled_rows analysis items) as [rows|]; [|discriminate].
    inversion H; subst. simpl. rewrite (IH rows eq_refl). reflexivity.
Qed.

Lemma total_filter_positive (l : list Z) :
  (forall v, In v l -> 0 <= v) -> total (filter (fun v => 0 <? v) l) = total l.
Proof.
  induction l as [|v l IH]; intros H; [reflexivity|].
  assert (Hv := H v (or_introl eq_refl)).
  assert (IH' := IH (fun y Hy => H y (or_intror Hy))).
  simpl. destruct (0 <? v) eqn:E;
    [apply Z.ltb_lt in E | apply Z.ltb_ge in E]; simpl; unfold total in *; lia.
Qed.

Lemma dict_values_get (d : list (key2 * Z)) :
  NoDup (map fst d) ->
  map snd d = map (fun k => dict_get key2_eqb d k 0) (map fst d).
Proof.
  intros Hnd. rewrite map_map. apply map_ext_in. intros [k v] Hin.
  simpl. symmetry. apply dict_get_unique; assumption.
Qed.

Lemma tracker_of_branches pc pb analysis :
  map fst (tracker_of (demand_rows_of pc pb analysis))
  = sort_values key2_leb (needed_branches analysis).
Proof.
  unfold tracker_of. rewrite groupby_first_keys. unfold group_keys.
  rewrite map_map. cbn [fst]. unfold needed_branches.
  rewrite <- (demand_lines_of pc pb analysis), map_map. reflexivity.
Qed.

Lemma net_need_of_row analysis r :
  well_formed_analysis analysis -> In r analysis ->
  net_need_of analysis (branch_key r) = Analysis.branch_net_need r.
Proof.
  intros [Hsame _] Hr. unfold net_need_of.
  destruct (iloc0_branch_rows_defined (branch_key r) analysis r Hr
              eq_refl eq_refl) as [need E].
  rewrite E. apply iloc0_branch_rows in E.
  destruct E as [r' [Hr' [Ep [Eb <-]]]]. apply Hsame; auto.
Qed.

Lemma tracker_of_total pc pb analysis :
  well_formed_analysis analysis ->
  total (map snd (tracker_of (demand_rows_of pc pb analysis)))
  = total_net_need analysis.
Proof.
  intros Hwf. rewrite dict_values_get by apply tracker_of_NoDup.
  rewrite tracker_of_branches. unfold total_net_need.
  rewrite (total_perm _
             (map (fun k => dict_get key2_eqb
                              (tracker_of (demand_rows_of pc pb analysis)) k 0)
                  (needed_branches analysis)))
    by (apply Permutation_map, Permutation_sym, sort_values_perm).
  f_equal. apply map_ext_in. intros k Hk.
  unfold needed_branches in Hk. apply nodup_In in Hk.
  apply in_map_iff in Hk. destruct Hk as [r [<- Hr]].
  apply filter_In in Hr. destruct Hr as [Hr Hn].
  rewrite (net_need_of_row analysis r Hwf Hr).
  apply (tracker_of_need pc pb analysis r Hwf Hr Hn).
Qed.

Lemma total_net_need_positive analysis r :
  well_formed_analysis analysis ->
  In r analysis -> allocation_needed r = true ->
  0 < total_net_need analysis.
Proof.
  intros Hwf Hr Hn. unfold total_net_need.
  assert (Hpos : forall k, In k (needed_branches analysis) ->
                   0 < net_need_of analysis k).
  { intros k Hk. unfold needed_branches in Hk. apply nodup_In in Hk.
    apply in_map_iff in Hk. destruct Hk as [r' [<- Hr']].
    apply filter_In in Hr'. destruct Hr' as [Hr' Hn'].
    rewrite (net_need_of_row analysis r' Hwf Hr').
    apply (proj2 Hwf r' Hr' Hn'). }
  assert (Hin : In (branch_key r) (needed_branches analysis)).
  { unfold needed_branches. apply nodup_In. apply in_map.
    apply filter_In. auto. }
  revert Hpos Hin. generalize (needed_branches analysis) as ks.
  induction ks as [|k ks IH]; intros Hpos Hin; [contradiction|].
  simpl. assert (H0 := Hpos k (or_introl eq_refl)).
  assert (0 <= total (map (net_need_of analysis) ks)).
  { apply total_nonneg. intros z Hz. apply in_map_iff in Hz.
    destruct Hz as [k' [<- Hk']].
    assert (H1 := Hpos k' (or_intror Hk')). lia. }
  unfold total in *. lia.
Qed.

Lemma get_allocation_charts_fig1_run self (h : Store) plan unf :
  plan_of self h = Some plan ->
  unfulfilled_of self h = Some unf ->
  get_allocation_charts_fig1 self h
  = Some (if (0 <? total (map Alloc.quantity_allocated plan))
             || (0 <? total (map Unfulfilled.unfulfilled unf))
          then Some (total (map Alloc.quantity_allocated plan),
                     total (map Unfulfilled.unfulfilled unf))
          else None, h).
Proof.
  unfold plan_of, unfulfilled_of, frame_at, get_allocation_charts_fig1.
  destruct (allocation_plan_df self) as [p|]; [|discriminate].
  destruct (nth_error h p) as [[| | | |rows|]|] eqn:Ep; try discriminate.
  intros E; inversion E; subst rows. clear E.
  destruct (unfulfilled_demands_df self) as [u|]; [|discriminate].
  destruct (nth_error h u) as [[| | | | |rows]|] eqn:Eu; try discriminate.
  intros E; inversion E; subst rows. clear E.
  unfold bind, attr, lift, read_plan, read_unfulfilled, bind, read, ret.
  rewrite Ep, Eu.
  destruct plan, unf; reflexivity.
Qed.

Lemma get_allocation_charts_pie_run self (h : Store) fig1 :
  get_allocation_charts_fig1 self h = Some (fig1, h) ->
  (forall a u, fig1 = Some (a, u) -> 0 <= a /\ 0 <= u) ->
  get_allocation_charts_pie self h = Some (fig1, h).
Proof.
  intros Hfig Hpos. unfold get_allocation_charts_pie, bind. rewrite Hfig.
  destruct fig1 as [[a u]|]; [|reflexivity].
  destruct (Hpos a u eq_refl) as [Ha Hu].
  unfold pie, seq, bind. simpl.
  apply Z.ltb_ge in Ha. apply Z.ltb_ge in Hu. rewrite Ha, Hu. reflexivity.
Qed.

(** X10. Take a stock frame with distinct index labels and no negative
    stock at the central warehouse, and an analysis table with one positive
    net need per branch that needs allocation, no negative forecast
    quantity on a row that needs allocation, and a total net need of at
    most 2^53, so that the two column sums are exact.  After a run,
    [get_allocation_charts] finds its two frames and [ax1.pie] accepts its
    wedges; the first figure is drawn exactly when some row of the table
    needs allocation; its two wedges, the allocated and the unfulfilled
    quantity, then add up to the net need of the branches that need
    allocation, and neither wedge is negative. *)
Theorem fulfilment_figure pc pb rules today self h self' t h' analysis stock :
  run_allocation pc pb rules today self h = Some ((self', t), h') ->
  analysis_of self h = Some analysis ->
  stock_of self h = Some stock ->
  NoDup (map fst stock) ->
  (forall b, In b stock -> Stock.branch_id (snd b) = cw_branch_id self ->
             0 <= Stock.stock_available (snd b)) ->
  well_formed_analysis analysis ->
  (forall r, In r analysis -> allocation_needed r = true ->
             0 <= Analysis.forecast_quantity r) ->
  float64_exact (total_net_need analysis) ->
  exists fig1,
    get_allocation_charts_pie self' h' = Some (fig1, h') /\
    (fig1 = None <-> filter allocation_needed analysis = []) /\
    (forall a u, fig1 = Some (a, u) ->
       a + u = total_net_need analysis /\ 0 <= a /\ 0 <= u).
Proof.
  intros Hrun Ha Hs Hlab Hstock Hwf Hfc _.
  destruct (run_allocation_inv _ _ _ _ _ _ _ _ _ Hrun)
    as [analysis' [stock' [unf [Ha' [Hs' [Hal [-> ->]]]]]]].
  rewrite Ha in Ha'. inversion Ha'; subst analysis'. clear Ha'.
  rewrite Hs in Hs'. inversion Hs'; subst stock'. clear Hs'.
  destruct (allocate_inv _ _ _ _ _ _ _ _ _ Hal) as [Hlines Hunf].
  set (A := total (map Alloc.quantity_allocated (map record (all_draws t)))).
  set (U := total (map Unfulfilled.unfulfilled unf)).
  assert (HA : A = total (map taken (all_draws t)))
    by (unfold A; rewrite map_map; reflexivity).
  assert (Hnd : NoDup (map fst (branch_need_tracker t))).
  { rewrite (run_lines_keys _ _ _ _ _ _ _ _ Hlines). apply tracker_of_NoDup. }
  assert (Hrem : forall v, In v (map snd (branch_need_tracker t)) -> 0 <= v).
  { intros v Hv. apply in_map_iff in Hv. destruct Hv as [[k v'] [E Hin]].
    simpl in E. subst v'.
    rewrite <- (dict_get_unique _ k v Hnd Hin).
    apply (run_lines_nonneg _ _ _ _ _ _ _ _ Hlines
             (fun k => tracker_of_nonneg pc pb analysis k Hwf)). }
  assert (HU : U = total (map snd (branch_need_tracker t))).
  { unfold U. rewrite (unfulfilled_rows_values _ _ _ Hunf).
    apply total_filter_positive. exact Hrem. }
  assert (Hsum : A + U = total_net_need analysis).
  { rewrite HA, HU, (run_lines_total _ _ _ _ _ _ _ _ Hlines).
    rewrite (tracker_of_total pc pb analysis Hwf). unfold all_draws. lia. }
  assert (HU0 : 0 <= U) by (rewrite HU; apply total_nonneg; exact Hrem).
  assert (HA0 : 0 <= A).
  { rewrite HA. apply total_nonneg. intros z Hz.
    apply in_map_iff in Hz. destruct Hz as [x [<- Hx]].
    refine (run_lines_takes_nonneg _ _ _ _ _ _ _ _ x
              (cw_rows_stock_ok _ _ Hlab Hstock) _ Hlines Hx).
    intros d Hd. apply sort_values_In in Hd. apply demand_rows_In in Hd.
    destruct Hd as [Hin [Hneed _]]. exact (Hfc _ Hin Hneed). }
  eexists. split.
  { apply get_allocation_charts_pie_run.
    - apply get_allocation_charts_fig1_run;
        [apply plan_of_result | apply unfulfilled_of_result].
    - intros a u E. fold A U in E.
      destruct ((0 <? A) || (0 <? U)); [|discriminate].
      inversion E; subst. auto. }
  fold A U. split.
  - destruct (filter allocation_needed analysis) as [|r rest] eqn:Ef.
    + assert (Hz : total_net_need analysis = 0)
        by (unfold total_net_need, needed_branches; rewrite Ef; reflexivity).
      assert (HAz : A = 0) by lia.
      assert (HUz : U = 0) by lia.
      rewrite HAz, HUz. simpl. split; reflexivity.
    + assert (Hr : In r analysis /\ allocation_needed r = true).
      { apply filter_In. rewrite Ef. left. reflexivity. }
      assert (Hp := total_net_need_positive analysis r Hwf
                      (proj1 Hr) (proj2 Hr)).
      assert (Hc : (0 <? A) || (0 <? U) = true).
      { apply orb_true_iff. rewrite !Z.ltb_lt. lia. }
      rewrite Hc. split; discriminate.
  - intros a u E.
    destruct ((0 <? A) || (0 <? U)); [|discriminate].
    inversion E; subst. auto.
Qed.

Lemma fulfilment_figure_witness :
  exists fig1,
    get_allocation_charts_pie example_allocated_system
      example_allocated_store = Some (fig1, example_allocated_store) /\
    (fig1 = None <-> filter allocation_needed example_analysis = []) /\
    (forall a u, fig1 = Some (a, u) ->
       a + u = total_net_need example_analysis /\ 0 <= a /\ 0 <= u).
Proof.
  apply (fulfilment_figure [2] [] [(1, 100)] 0
           example_analysed_system example_analysed_store
           example_allocated_system example_trace example_allocated_store
           example_analysis example_stock).
  - vm_compute. reflexivity.
  - vm_compute. reflexivity.
  - vm_compute. reflexivity.
  - simpl. repeat constructor; simpl; intuition discriminate.
  - simpl. intros b Hb _.
    repeat (destruct Hb as [<-|Hb]; [simpl; lia|]). contradiction.
  - exact example_analysis_well_formed.
  - simpl. intros r Hr _.
    repeat (destruct Hr as [<-|Hr]; [simpl; lia|]). contradiction.
  - vm_compute. split; discriminate.
Defined.

(* ------------------------------------------------------------------ *)
(** ** First expired, first out *)

Lemma fefo_draws_fifo cw row qty batches :
  NoDup (map fst batches) ->
  (forall b, In b batches -> 0 <= Stock.stock_available (snd b)) ->
  StronglySorted (fun a b => key2_leb (fefo_key a) (fefo_key b) = true)
    batches ->
  forall f, f <= qty ->
  forall x b',
    In x (snd (fefo_draws cw row qty batches f)) ->
    In b' batches ->
    drawn_from (fst b') (snd (fefo_draws cw row qty batches f))
    < Stock.stock_available (snd b') ->
    exists b, In b batches /\
      Alloc.expiry_date (record x) = Stock.expiry_date (snd b) /\
      (b = b' \/ key2_leb (fefo_key b) (fefo_key b') = true).
Proof.
  induction batches as [|b0 rest IH]; intros Hnd Hpos Hs f Hf x b' Hx Hb' Hlt;
    [contradiction|].
  simpl in Hnd. inversion Hnd as [|? ? Hnot Hnd']; subst.
  inversion Hs as [|? ? Hs' Hall]; subst. rewrite Forall_forall in Hall.
  assert (Hb0 := Hpos b0 (or_introl eq_refl)).
  assert (IH' := IH Hnd' (fun y Hy => Hpos y (or_intror Hy)) Hs').
  assert (Hhead : forall y, In y (b0 :: rest) ->
            b0 = y \/ key2_leb (fefo_key b0) (fefo_key y) = true).
  { intros y [->|Hy]; [left; reflexivity | right; apply Hall; exact Hy]. }
  assert (Hne : forall y, In y rest -> (fst b0 =? fst y) = false).
  { intros y Hy. apply Z.eqb_neq. intros E. apply Hnot. rewrite E.
    apply in_map. exact Hy. }
  rewrite fefo_draws_cons in Hx, Hlt.
  destruct (Stock.stock_available (snd b0) =? 0) eqn:E0.
  - apply Z.eqb_eq in E0. destruct Hb' as [<-|Hb'].
    + rewrite fefo_draws_other in Hlt by exact Hnot. lia.
    + destruct (IH' f Hf x b' Hx Hb' Hlt) as [b [Hb [Ee Ho]]].
      exists b. split; [right; exact Hb | auto].
  - apply Z.eqb_neq in E0.
    set (take := Z.min (qty - f) (Stock.stock_available (snd b0))) in *.
    destruct (f + take =? qty) eqn:Eq.
    + cbn [snd In] in Hx. destruct Hx as [<-|[]].
      exists b0. split; [left; reflexivity|]. split; [reflexivity|].
      apply Hhead. exact Hb'.
    + apply Z.eqb_neq in Eq.
      assert (Et : take = Stock.stock_available (snd b0))
        by (unfold take; lia).
      cbn [snd] in Hx, Hlt. rewrite drawn_from_cons in Hlt.
      cbn [batch_idx draw_of] in Hlt.
      destruct Hx as [<-|Hx].
      * exists b0. split; [left; reflexivity|]. split; [reflexivity|].
        apply Hhead. exact Hb'.
      * destruct Hb' as [<-|Hb'].
        -- rewrite Z.eqb_refl, fefo_draws_other in Hlt by exact Hnot.
           unfold taken in Hlt. cbn in Hlt. fold take in Hlt. lia.
        -- rewrite (Hne b' Hb') in Hlt.
           destruct (IH' (f + take) ltac:(unfold take; lia) x b' Hx Hb'
                       ltac:(lia)) as [b [Hb [Ee Ho]]].
           exists b. split; [right; exact Hb | auto].
Qed.

Lemma apply_draws_row draws rows b :
  In b (apply_draws draws rows) ->
  exists s, In (fst b, s) rows /\
    Stock.product_id (snd b) = Stock.product_id s /\
    Stock.expiry_date (snd b) = Stock.expiry_date s /\
    Stock.stock_available (snd b)
    = Stock.stock_available s - drawn_from (fst b) draws.
Proof.
  destruct b as [l s']. intros Hb. apply apply_draws_In_inv in Hb.
  destruct Hb as [s [Hs ->]]. exists s. simpl. auto.
Qed.

Lemma eligible_spec p req b :
  eligible p req b = true <->
  Stock.product_id (snd b) = p /\ req <= Stock.expiry_date (snd b).
Proof.
  unfold eligible. rewrite andb_true_iff, Z.eqb_eq, Z.leb_le. reflexivity.
Qed.

Lemma process_line_fifo cw today rules rows row tracker t ds :
  stock_ok rows -> fefo_sorted rows ->
  0 <= Analysis.forecast_quantity (Demand.line row) ->
  process_line cw today rules rows row tracker = Some (t, ds) ->
  forall x b',
    In x ds -> In b' (apply_draws ds rows) ->
    eligible (Analysis.product_id (Demand.line row))
      (required_expiry today rules (Analysis.channel_id (Demand.line row))) b'
    = true ->
    0 < Stock.stock_available (snd b') ->
    Alloc.expiry_date (record x) <= Stock.expiry_date (snd b').
Proof.
  intros [Hnd Hpos] Hsorted Hf Hp x b' Hx Hb' He Hgt.
  set (p := Analysis.product_id (Demand.line row)) in *.
  set (req := required_expiry today rules
                (Analysis.channel_id (Demand.line row))) in *.
  apply process_line_cases3 in Hp. fold p req in Hp.
  destruct Hp as [[_ [_ ->]]|[[_ [_ [_ ->]]]|[Hr [qty [av [Hq [-> [-> _]]]]]]]];
    try contradiction.
  destruct (apply_draws_row _ _ _ Hb') as [s [Hs [Ep [Ee Est]]]].
  apply eligible_spec in He. destruct He as [He1 He2].
  assert (Hav : In (fst b', s) (filter (eligible p req) rows)).
  { apply filter_In. split; [exact Hs|]. apply eligible_spec. simpl.
    rewrite <- Ep, <- Ee. auto. }
  assert (Hnd' : NoDup (map fst (filter (eligible p req) rows)))
    by (apply NoDup_labels_filter; exact Hnd).
  assert (Hpos' : forall y, In y (filter (eligible p req) rows) ->
                    0 <= Stock.stock_available (snd y))
    by (intros y Hy; apply filter_In in Hy; apply Hpos; tauto).
  assert (Hs' : StronglySorted
                  (fun a b => key2_leb (fefo_key a) (fefo_key b) = true)
                  (filter (eligible p req) rows)).
  { apply (StronglySorted_unmap (fun a b => key2_leb a b = true) fefo_key).
    apply StronglySorted_map_filter. exact Hsorted. }
  destruct (fefo_draws_fifo cw row qty _ Hnd' Hpos' Hs' 0 ltac:(lia)
              x (fst b', s) Hx Hav ltac:(cbn [fst snd]; lia))
    as [b [Hb [Eb Ho]]].
  rewrite Eb, Ee. destruct Ho as [->|Ho]; [simpl; lia|].
  apply filter_In in Hb. destruct Hb as [_ Hb].
  apply eligible_spec in Hb. destruct Hb as [Hb1 _].
  apply key2_leb_spec in Ho. unfold fefo_key in Ho. simpl in Ho.
  rewrite Hb1, <- Ep, He1 in Ho. lia.
Qed.

Lemma run_lines_fifo cw today rules lines :
  forall rows tracker final log,
    stock_ok rows -> fefo_sorted rows ->
    (forall d, In d lines -> 0 <= Analysis.forecast_quantity (Demand.line d)) ->
    run_lines cw today rules rows lines tracker = Some (final, log) ->
    forall d ds x b',
      In (d, ds) log -> In x ds ->
      In b' (apply_draws (List.concat (map snd log)) rows) ->
      eligible (Analysis.product_id (Demand.line d))
        (required_expiry today rules (Analysis.channel_id (Demand.line d))) b'
      = true ->
      0 < Stock.stock_available (snd b') ->
      Alloc.expiry_date (record x) <= Stock.expiry_date (snd b').
Proof.
  induction lines as [|row lines IH];
    intros rows tracker final log Hok Hso Hf Hrun d ds x b' Hin Hx Hb He Hgt;
    simpl in Hrun.
  - inversion Hrun; subst. contradiction.
  - destruct (process_line cw today rules rows row tracker)
      as [[t1 ds1]|] eqn:Ep; [|discriminate].
    destruct (run_lines cw today rules (apply_draws ds1 rows) lines t1)
      as [[final' log']|] eqn:Er; [|discriminate].
    inversion Hrun; subst final' log. clear Hrun.
    assert (Hok1 := process_line_stock_ok _ _ _ _ _ _ _ _ Hok Ep).
    assert (Hso1 := apply_draws_sorted ds1 rows Hso).
    assert (Hf' : forall d, In d lines ->
                    0 <= Analysis.forecast_quantity (Demand.line d))
      by (intros y Hy; apply Hf; right; exact Hy).
    simpl in Hb. rewrite apply_draws_app in Hb.
    destruct Hin as [E|Hin].
    + inversion E; subst row ds1. clear E.
      assert (Hnn : forall y, In y (List.concat (map snd log')) -> 0 <= taken y)
        by (intros y Hy;
            apply (run_lines_takes_nonneg _ _ _ _ _ _ _ _ y Hok1 Hf' Er Hy)).
      destruct (apply_draws_row _ _ _ Hb) as [s [Hs [Epr [Eex Est]]]].
      assert (Hge := drawn_from_nonneg (fst b') _ Hnn).
      rewrite Eex.
      apply (process_line_fifo _ _ _ _ _ _ _ _ Hok Hso
               (Hf d (or_introl eq_refl)) Ep x (fst b', s) Hx Hs).
      * apply eligible_spec. apply eligible_spec in He. simpl.
        rewrite <- Epr, <- Eex. exact He.
      * simpl. lia.
    + apply (IH _ _ _ _ Hok1 Hso1 Hf' Er d ds x b' Hin Hx Hb He Hgt).
Qed.

(** X11. First expired, first out.  With distinct index labels, no negative
    stock at the central warehouse and no negative forecast among the rows
    that need allocation: a batch of the remaining-stock frame that has the
    product of a demand line and meets the expiry rule of its channel
    expires no earlier than any batch used by a record of that line. *)
Theorem first_expired_first_out pc pb rules today self h self' t h'
    analysis stock remaining d ds x b :
  run_allocation pc pb rules today self h = Some ((self', t), h') ->
  analysis_of self h = Some analysis ->
  stock_of self h = Some stock ->
  remaining_of self' h' = Some remaining ->
  NoDup (map fst stock) ->
  (forall b, In b stock -> Stock.branch_id (snd b) = cw_branch_id self ->
             0 <= Stock.stock_available (snd b)) ->
  (forall r, In r analysis -> allocation_needed r = true ->
             0 <= Analysis.forecast_quantity r) ->
  In (d, ds) (processed t) ->
  In x ds ->
  In b remaining ->
  Stock.product_id (snd b) = Analysis.product_id (Demand.line d) ->
  required_expiry today rules (Analysis.channel_id (Demand.line d))
  <= Stock.expiry_date (snd b) ->
  Alloc.expiry_date (record x) <= Stock.expiry_date (snd b).
Proof.
  intros Hrun Ha Hs Hr Hnd Hpos Hfc Hin Hx Hb Hprod Hexp.
  destruct (run_allocation_inv _ _ _ _ _ _ _ _ _ Hrun)
    as [analysis' [stock' [unf [Ha' [Hs' [Hal [-> ->]]]]]]].
  rewrite Ha in Ha'. inversion Ha'; subst analysis'. clear Ha'.
  rewrite Hs in Hs'. inversion Hs'; subst stock'. clear Hs'.
  rewrite remaining_of_result in Hr. inversion Hr; subst remaining. clear Hr.
  destruct (allocate_inv _ _ _ _ _ _ _ _ _ Hal) as [Hlines _].
  assert (Hf : forall y,
             In y (sort_values demand_leb (demand_rows_of pc pb analysis)) ->
             0 <= Analysis.forecast_quantity (Demand.line y)).
  { intros y Hy. apply sort_values_In in Hy. apply demand_rows_In in Hy.
    apply Hfc; tauto. }
  apply filter_In in Hb. destruct Hb as [Hb Hgt]. apply Z.ltb_lt in Hgt.
  apply (run_lines_fifo _ _ _ _ _ _ _ _
           (cw_rows_stock_ok _ _ Hnd Hpos) (cw_rows_sorted _ _) Hf Hlines
           d ds x b Hin Hx Hb); [|exact Hgt].
  apply eligible_spec. auto.
Qed.

Lemma first_expired_first_out_witness :
  Alloc.expiry_date
    (record (mkDraw 1 (Alloc.mk 1 1000 1 1 70 (200 * NS_PER_DAY))))
  <= Stock.expiry_date (snd (1, Stock.mk 1 1000 80 (200 * NS_PER_DAY))).
Proof.
  apply (first_expired_first_out [2] [] [(1, 100)] 0
           example_analysed_system example_analysed_store
           example_allocated_system example_trace example_allocated_store
           example_analysis example_stock example_remaining
           example_line_1 example_line_1_draws).
  - vm_compute. reflexivity.
  - vm_compute. reflexivity.
  - vm_compute. reflexivity.
  - vm_compute. reflexivity.
  - simpl. repeat constructor; simpl; intuition discriminate.
  - simpl. intros b Hb _.
    repeat (destruct Hb as [<-|Hb]; [simpl; lia|]). contradiction.
  - simpl. intros r Hr _.
    repeat (destruct Hr as [<-|Hr]; [simpl; lia|]). contradiction.
  - vm_compute. right. left. reflexivity.
  - simpl. left. reflexivity.
  - simpl. left. reflexivity.
  - reflexivity.
  - vm_compute. discriminate.
Defined.

(* ------------------------------------------------------------------ *)
(** ** The mapping of the columns *)

Section ColumnMappingFacts.
Context {V : Type}.

Lemma column_set_column_same name c (df : RawFrame V) :
  column name (set_column name c df) = Some c.
Proof.
  induction df as [|[n c'] df IH]; simpl.
  - rewrite String.eqb_refl. reflexivity.
  - destruct (String.eqb n name) eqn:E; simpl; rewrite E; auto.
Qed.

Lemma column_set_column_other name name' c (df : RawFrame V) :
  name <> name' ->
  column name' (set_column name c df) = column name' df.
Proof.
  intros Hne. induction df as [|[n c'] df IH]; simpl.
  - destruct (String.eqb name name') eqn:E; [|reflexivity].
    apply String.eqb_eq in E. contradiction.
  - destruct (String.eqb n name) eqn:E; simpl.
    + apply String.eqb_eq in E. subst n.
      destruct (String.eqb name name') eqn:E'; [|reflexivity].
      apply String.eqb_eq in E'. contradiction.
    + destruct (String.eqb n name'); auto.
Qed.

Lemma set_column_names_new name c (df : RawFrame V) :
  ~ In name (map fst df) ->
  map fst (set_column name c df) = map fst df ++ [name].
Proof.
  induction df as [|[n c'] df IH]; simpl; intros H; [reflexivity|].
  destruct (String.eqb n name) eqn:E.
  - apply String.eqb_eq in E. exfalso. apply H. left. exact E.
  - simpl. rewrite IH; [reflexivity|]. intros Hc. apply H. right. exact Hc.
Qed.

Lemma map_columns_result file mapping (raw : RawFrame V) :
  forall df,
    map_columns file mapping raw df =
    match first_missing mapping raw with
    | Some user_col => inl (not_found user_col file)
    | None =>
        inr (fold_left
               (fun df e =>
                  match column (snd e) raw with
                  | Some c => set_column (fst e) c df
                  | None => df
                  end) mapping df)
    end.
Proof.
  unfold first_missing.
  induction mapping as [|[i u] mapping IH]; intros df; simpl; [reflexivity|].
  destruct (column u raw) as [c|]; simpl; [apply IH | reflexivity].
Qed.

Lemma map_columns_names file mapping (raw : RawFrame V) :
  NoDup (map fst mapping) ->
  forall df df',
    (forall i, In i (map fst mapping) -> ~ In i (map fst df)) ->
    map_columns file mapping raw df = inr df' ->
    map fst df' = map fst df ++ map fst mapping /\
    (forall i u, In (i, u) mapping -> column i df' = column u raw) /\
    (forall n, ~ In n (map fst mapping) -> column n df' = column n df).
Proof.
  induction mapping as [|[i u] mapping IH]; intros Hnd df df' Hfresh H;
    simpl in H.
  - inversion H; subst. simpl. rewrite app_nil_r.
    split; [reflexivity|]. split; [intros i u []|auto].
  - simpl in Hnd. inversion Hnd as [|? ? Hi Hnd']; subst.
    destruct (column u raw) as [c|] eqn:Ec; [|discriminate].
    assert (Hdf : ~ In i (map fst df)) by (apply Hfresh; left; reflexivity).
    destruct (IH Hnd' (set_column i c df) df') as [Hn [Hc Ho]].
    + intros j Hj. rewrite set_column_names_new by exact Hdf.
      rewrite in_app_iff. intros [Hin|[<-|[]]].
      * apply (Hfresh j); [right; exact Hj | exact Hin].
      * contradiction.
    + exact H.
    + split; [|split].
      * rewrite Hn, set_column_names_new by exact Hdf.
        rewrite <- app_assoc. reflexivity.
      * intros j v [E|Hin]; [|apply Hc; exact Hin].
        inversion E; subst j v. rewrite (Ho i Hi).
        rewrite column_set_column_same. symmetry. exact Ec.
      * intros n Hn'. rewrite Ho by (intros Hc'; apply Hn'; right; exact Hc').
        apply column_set_column_other. intros E. apply Hn'. left. exact E.
Qed.
End ColumnMappingFacts.

Section ColumnMappingTheorems.
Context {V : Type}.

Lemma first_missing_some mapping (raw : RawFrame V) u :
  first_missing mapping raw = Some u <-> first_missing_is mapping raw u.
Proof.
  unfold first_missing, first_missing_is.
  induction mapping as [|[i v] mapping IH]; simpl.
  - split; [discriminate|]. intros [pre [i [post [E _]]]].
    destruct pre; discriminate.
  - destruct (column v raw) as [c|] eqn:Ec; simpl.
    + rewrite IH. split.
      * intros [pre [j [post [E [Hpre Hu]]]]].
        exists ((i, v) :: pre), j, post. rewrite E. split; [reflexivity|].
        split; [|exact Hu]. intros e [<-|He]; [simpl; congruence | auto].
      * intros [pre [j [post [E [Hpre Hu]]]]].
        destruct pre as [|e pre]; simpl in E; inversion E; subst.
        -- congruence.
        -- exists pre, j, post. split; [reflexivity|]. split; [|exact Hu].
           intros e He. apply Hpre. right. exact He.
    + split.
      * intros E. inversion E; subst v. exists [], i, mapping. simpl. auto.
      * intros [pre [j [post [E [Hpre Hu]]]]].
        destruct pre as [|e pre]; simpl in E; inversion E; subst;
          [reflexivity|].
        exfalso. apply (Hpre (i, v)); [left; reflexivity | exact Ec].
Qed.

Lemma first_missing_none mapping (raw : RawFrame V) :
  first_missing mapping raw = None <-> all_present mapping raw.
Proof.
  unfold first_missing, all_present.
  induction mapping as [|[i v] mapping IH]; simpl.
  - split; [intros _ e [] | reflexivity].
  - destruct (column v raw) as [c|] eqn:Ec; simpl.
    + rewrite IH. split.
      * intros H e [<-|He]; [simpl; congruence | auto].
      * intros H e He. apply H. right. exact He.
    + split; [discriminate|]. intros H. exfalso.
      apply (H (i, v)); [left; reflexivity | exact Ec].
Qed.

(** X12. The mapping of the columns fails exactly when a mapped column is
    absent from its file, and the message names the first such column in
    the order of the mapping; the forecast mapping is checked first, so a
    column missing from the stock file is reported only when the forecast
    file has all its mapped columns. *)
Theorem load_and_map_failure fm sm (rf rs : RawFrame V) message :
  load_and_map fm sm rf rs = inl message <->
  (exists user_col,
     first_missing_is fm rf user_col /\
     message = not_found user_col "forecast") \/
  (all_present fm rf /\
   exists user_col,
     first_missing_is sm rs user_col /\
     message = not_found user_col "stock").
Proof.
  unfold load_and_map. rewrite !map_columns_result.
  destruct (first_missing fm rf) as [u|] eqn:Ef.
  - apply first_missing_some in Ef. split.
    + intros E. inversion E. left. exists u. auto.
    + intros [[u' [Hu' ->]]|[Hall _]].
      * apply first_missing_some in Hu'. apply first_missing_some in Ef.
        congruence.
      * apply first_missing_none in Hall. apply first_missing_some in Ef.
        congruence.
  - destruct (first_missing sm rs) as [u|] eqn:Es.
    + split.
      * intros E. inversion E. right.
        split; [apply first_missing_none; exact Ef|].
        exists u. split; [apply first_missing_some; exact Es | reflexivity].
      * intros [[u' [Hu' _]]|[_ [u' [Hu' ->]]]].
        -- apply first_missing_some in Hu'. congruence.
        -- apply first_missing_some in Hu'. congruence.
    + split; [discriminate|].
      intros [[u' [Hu' _]]|[_ [u' [Hu' _]]]];
        apply first_missing_some in Hu'; congruence.
Qed.

(** X13. When the mapping of the columns succeeds, with mappings that name
    each internal column once, the two frames handed to the cleaning steps
    have exactly the internal columns of their mapping, in its order, and
    each holds the values of the file column mapped to it. *)
Theorem load_and_map_success fm sm (rf rs : RawFrame V) forecast_df stock_df :
  NoDup (map fst fm) -> NoDup (map fst sm) ->
  load_and_map fm sm rf rs = inr (forecast_df, stock_df) ->
  (map fst forecast_df = map fst fm /\
   forall i u, In (i, u) fm ->
     column u rf <> None /\ column i forecast_df = column u rf) /\
  (map fst stock_df = map fst sm /\
   forall i u, In (i, u) sm ->
     column u rs <> None /\ column i stock_df = column u rs).
Proof.
  intros Hf Hs H. unfold load_and_map in H.
  destruct (map_columns "forecast" fm rf []) as [m|f] eqn:Ef; [discriminate|].
  destruct (map_columns "stock" sm rs []) as [m|s] eqn:Es; [discriminate|].
  inversion H; subst f s. clear H.
  assert (Hpf : all_present fm rf).
  { apply first_missing_none. rewrite map_columns_result in Ef.
    destruct (first_missing fm rf); [discriminate | reflexivity]. }
  assert (Hps : all_present sm rs).
  { apply first_missing_none. rewrite map_columns_result in Es.
    destruct (first_missing sm rs); [discriminate | reflexivity]. }
  destruct (map_columns_names _ _ _ Hf [] _ (fun _ _ H => H) Ef)
    as [Hn1 [Hc1 _]].
  destruct (map_columns_names _ _ _ Hs [] _ (fun _ _ H => H) Es)
    as [Hn2 [Hc2 _]].
  split; (split; [assumption|]); intros i u Hin; split; auto.
  - apply (Hpf (i, u) Hin).
  - apply (Hps (i, u) Hin).
Qed.
End ColumnMappingTheorems.

Lemma load_and_map_success_witness :
  (map fst example_raw_mapped = map fst example_mapping /\
   forall i u, In (i, u) example_mapping ->
     column u example_raw <> None /\
     column i example_raw_mapped = column u example_raw) /\
  (map fst example_raw_mapped = map fst example_mapping /\
   forall i u, In (i, u) example_mapping ->
     column u example_raw <> None /\
     column i example_raw_mapped = column u example_raw).
Proof.
  apply (load_and_map_success example_mapping example_mapping
           example_raw example_raw).
  - simpl. repeat constructor; simpl; intuition discriminate.
  - simpl. repeat constructor; simpl; intuition discriminate.
  - vm_compute. reflexivity.
Defined.

(* ------------------------------------------------------------------ *)
(** ** The session of the app *)

Lemma analysis_of_frame sys (h : Store) rows :
  analysis_of sys h = Some rows ->
  exists a, analysis_df sys = Some a /\ nth_error h a = Some (AnalysisDF rows).
Proof.
  unfold analysis_of, frame_at. destruct (analysis_df sys) as [a|];
    [|discriminate].
  destruct (nth_error h a) as [[| | rows'| | |]|] eqn:E; try discriminate.
  intros H; inversion H; subst. eauto.
Qed.

Lemma plan_of_frame sys (h : Store) rows :
  plan_of sys h = Some rows ->
  exists p, allocation_plan_df sys = Some p /\
            nth_error h p = Some (PlanDF rows).
Proof.
  unfold plan_of, frame_at. destruct (allocation_plan_df sys) as [a|];
    [|discriminate].
  destruct (nth_error h a) as [[| | | |rows'|]|] eqn:E; try discriminate.
  intros H; inversion H; subst. eauto.
Qed.

Lemma unfulfilled_of_frame sys (h : Store) rows :
  unfulfilled_of sys h = Some rows ->
  exists u, unfulfilled_demands_df sys = Some u /\
            nth_error h u = Some (UnfulfilledDF rows).
Proof.
  unfold unfulfilled_of, frame_at.
  destruct (unfulfilled_demands_df sys) as [a|]; [|discriminate].
  destruct (nth_error h a) as [[| | | | |rows']|] eqn:E; try discriminate.
  intros H; inversion H; subst. eauto.
Qed.

Lemma remaining_of_frame sys (h : Store) rows :
  remaining_of sys h = Some rows ->
  exists r, remaining_cw_stock_df sys = Some r /\
            nth_error h r = Some (StockDF rows).
Proof.
  unfold remaining_of, frame_at.
  destruct (remaining_cw_stock_df sys) as [a|]; [|discriminate].
  destruct (nth_error h a) as [[|rows'| | | |]|] eqn:E; try discriminate.
  intros H; inversion H; subst. eauto.
Qed.

Lemma analysis_read sys (h : Store) rows :
  analysis_of sys h = Some rows ->
  bind (attr (analysis_df sys)) (fun a => bind (read_analysis a)
                                            (fun _ => ret tt)) h
  = Some (tt, h).
Proof.
  intros H. apply analysis_of_frame in H. destruct H as [a [Ea En]].
  rewrite Ea. unfold attr, lift, bind at 1.
  rewrite (bind_Some _ _ _ _ _ (read_analysis_run a h rows En)). reflexivity.
Qed.

Lemma observation_app (sys : InventoryAllocationSystem) (h l : Store) :
  (forall rows, analysis_of sys h = Some rows ->
                analysis_of sys (h ++ l) = Some rows) /\
  (forall rows, stock_of sys h = Some rows ->
                stock_of sys (h ++ l) = Some rows) /\
  (forall rows, plan_of sys h = Some rows ->
                plan_of sys (h ++ l) = Some rows) /\
  (forall rows, unfulfilled_of sys h = Some rows ->
                unfulfilled_of sys (h ++ l) = Some rows) /\
  (forall rows, remaining_of sys h = Some rows ->
                remaining_of sys (h ++ l) = Some rows).
Proof.
  repeat split; intros rows;
    unfold analysis_of, stock_of, plan_of, unfulfilled_of, remaining_of;
    match goal with
    | |- context [frame_at ?a h] =>
        destruct (frame_at a h) as [df|] eqn:E; [|discriminate];
        rewrite (frame_at_app _ _ l _ E); auto
    end.
Qed.

Lemma analysed_app sys (h l : Store) :
  analysed sys h -> analysed sys (h ++ l).
Proof.
  destruct (observation_app sys h l) as [Ha [Hs _]].
  intros [[a Ea] [s Es]]. split; eauto.
Qed.

Lemma allocated_app sys (h l : Store) :
  allocated sys h -> allocated sys (h ++ l).
Proof.
  destruct (observation_app sys h l) as [_ [_ [Hp [Hu Hr]]]].
  intros [[p Ep] [[u Eu] [r Er]]]. repeat split; eauto.
Qed.

Lemma session_ok_app s (h l : Store) :
  session_ok s h -> session_ok s (h ++ l).
Proof.
  intros [H1 H2]. split.
  - intros E. destruct (H1 E) as [sys [Es Ha]].
    exists sys. split; [exact Es | apply analysed_app; exact Ha].
  - intros E. destruct (H2 E) as [Ea [sys [Es Hal]]].
    split; [exact Ea|]. exists sys.
    split; [exact Es | apply allocated_app; exact Hal].
Qed.

Lemma init_run cw (h : Store) :
  init cw h
  = Some (mkSystem cw None None None None (Some (List.length h)) None,
          h ++ [UnfulfilledDF []]).
Proof. reflexivity. Qed.

Lemma set_loaded_run self forecast stock (h : Store) :
  exists sys,
    set_loaded self forecast stock h
    = Some (sys, h ++ [ForecastDF forecast; StockDF stock]) /\
    forecast_of sys (h ++ [ForecastDF forecast; StockDF stock])
    = Some forecast /\
    stock_of sys (h ++ [ForecastDF forecast; StockDF stock]) = Some stock.
Proof.
  eexists. split; [|split].
  - unfold set_loaded, bind, new_frame, ret. rewrite <- app_assoc. reflexivity.
  - unfold forecast_of, frame_at. cbn [forecast_df].
    replace (List.length h) with (List.length h + 0)%nat by lia.
    rewrite nth_error_app_offset. reflexivity.
  - unfold stock_of, frame_at. cbn [stock_df].
    rewrite length_app. cbn [List.length].
    rewrite nth_error_app_offset. reflexivity.
Qed.

Lemma loaded_analysis_run cw forecast stock (h : Store) :
  exists sys l,
    bind (init cw)
      (fun sys => bind (set_loaded sys forecast stock) run_analysis) h
    = Some (sys, h ++ l) /\
    analysed sys (h ++ l).
Proof.
  rewrite (bind_Some _ _ _ _ _ (init_run cw h)).
  destruct (set_loaded_run
              (mkSystem cw None None None None (Some (List.length h)) None)
              forecast stock (h ++ [UnfulfilledDF []]))
    as [sys1 [E1 [Hf Hs]]].
  rewrite (bind_Some _ _ _ _ _ E1).
  rewrite (run_analysis_run _ _ _ _ Hf Hs).
  eexists. eexists. split.
  - rewrite <- !app_assoc. reflexivity.
  - rewrite !app_assoc. split.
    + eexists. unfold analysis_of, frame_at. cbn [set_analysis_df analysis_df].
      rewrite nth_error_new. reflexivity.
    + exists stock. apply (stock_of_app (set_analysis_df sys1 _)). exact Hs.
Qed.

Lemma tab1_ok w s (h : Store) :
  session_ok s h ->
  exists s1 l, tab1 w s h = Some (s1, h ++ l) /\ session_ok s1 (h ++ l).
Proof.
  intros Hok. unfold tab1.
  match goal with |- context [files_uploaded ?x && analyze_button w] =>
    set (s0 := x) end.
  assert (Hok0 : session_ok s0 h).
  { unfold s0. destruct (_ && headers_read w); [|exact Hok].
    destruct Hok as [H1 H2]. split; simpl; assumption. }
  clearbody s0. cbv zeta.
  destruct (files_uploaded s0 && analyze_button w).
  - destruct (negb (forecast_file w) || negb (stock_file w)).
    + exists s0, []. rewrite app_nil_r. auto.
    + destruct (loaded w) as [message|[forecast stock]].
      * rewrite (bind_Some _ _ _ _ _ (init_run (cw_branch_id_input w) h)).
        exists s0, [UnfulfilledDF []]. split; [reflexivity|].
        apply session_ok_app. exact Hok0.
      * destruct (loaded_analysis_run (cw_branch_id_input w) forecast stock h)
          as [sys [l [E Ha]]].
        exists (mkSession (Some sys) true false (files_uploaded s0)), l.
        split.
        -- unfold bind in E |- *.
           destruct (init (cw_branch_id_input w) h) as [[sys0 h0]|];
             [|discriminate].
           destruct (set_loaded sys0 forecast stock h0) as [[sys1 h1]|];
             [|discriminate].
           rewrite E. reflexivity.
        -- split; simpl; [intros _; eauto | discriminate].
  - exists s0, []. rewrite app_nil_r. auto.
Qed.

Lemma tab2_ok s (h : Store) :
  session_ok s h -> tab2 s h = Some (tt, h).
Proof.
  intros [H1 _]. unfold tab2.
  destruct (analysis_run s); [|reflexivity]. simpl.
  destruct (H1 eq_refl) as [sys [Es [[rows Ea] _]]].
  rewrite Es. unfold lift, bind at 1.
  apply (analysis_read sys h rows Ea).
Qed.

Lemma show_results_ok sys (h : Store) :
  allocated sys h -> show_results sys h = Some (tt, h).
Proof.
  intros [[plan Ep] [[unf Eu] [rem Er]]]. unfold show_results.
  rewrite (bind_Some _ _ _ _ _
             (get_allocation_charts_fig1_run sys h plan unf Ep Eu)).
  apply plan_of_frame in Ep. destruct Ep as [p [Ep Enp]].
  apply unfulfilled_of_frame in Eu. destruct Eu as [u [Eu Enu]].
  apply remaining_of_frame in Er. destruct Er as [r [Er Enr]].
  rewrite Ep, Eu, Er.
  unfold attr, lift, bind, read_plan, read_unfulfilled, read_stock, bind,
    read, ret.
  rewrite Enp, Enu, Enr. reflexivity.
Qed.

Lemma run_allocation_ok pc pb rules today sys (h : Store) :
  analysed sys h ->
  exists sys1 t l,
    run_allocation pc pb rules today sys h = Some ((sys1, t), h ++ l) /\
    analysed sys1 (h ++ l) /\ allocated sys1 (h ++ l).
Proof.
  intros [[analysis Ea] [stock Es]].
  destruct (allocate_defined pc pb rules today (cw_branch_id sys)
              analysis stock) as [t [unf E]].
  assert (Hrun := run_allocation_run pc pb rules today sys h analysis stock
                    Ea Es).
  cbv zeta in Hrun. rewrite E in Hrun.
  eexists. exists t. eexists. split; [exact Hrun|]. split.
  - split.
    + exists analysis.
      apply (analysis_of_app (set_allocation_results sys _ _ _)). exact Ea.
    + exists stock.
      apply (stock_of_app (set_allocation_results sys _ _ _)). exact Es.
  - split; [|split]; eexists;
      [apply plan_of_result | apply unfulfilled_of_result
       | apply remaining_of_result].
Qed.

Lemma tab3_ok w s (h : Store) :
  session_ok s h ->
  exists s1 l, tab3 w s h = Some (s1, h ++ l) /\ session_ok s1 (h ++ l).
Proof.
  intros Hok. assert (Hok' := Hok). destruct Hok' as [H1 H2]. unfold tab3.
  destruct (analysis_run s) eqn:Ean; simpl.
  2: { exists s, []. rewrite app_nil_r. auto. }
  destruct (H1 eq_refl) as [sys [Es [[rows Ea] Hst]]].
  rewrite Es. unfold lift, bind at 1.
  apply analysis_of_frame in Ea as Ef. destruct Ef as [a [Eattr En]].
  rewrite Eattr. unfold attr, lift, bind at 1.
  rewrite (bind_Some _ _ _ _ _ (read_analysis_run a h rows En)).
  destruct (generate_button w).
  - destruct (run_allocation_ok (priority_channels w) (priority_branches w)
                channel_expiry_rules (now w) sys h)
      as [sys1 [t [l [Er [Han Hal]]]]].
    { split; [eauto | exact Hst]. }
    exists (mkSession (Some sys1) true true (files_uploaded s)), l.
    split.
    + unfold bind at 1. unfold bind at 1. rewrite Er. unfold ret at 1.
      cbn [fst allocation_run system].
      unfold lift, bind at 1.
      rewrite (bind_Some _ _ _ _ _ (show_results_ok sys1 _ Hal)).
      reflexivity.
    + split; simpl; intros _; eauto.
  - exists s, []. rewrite app_nil_r. split; [|exact Hok].
    unfold bind at 1. unfold ret at 1.
    destruct (allocation_run s) eqn:Eal; [|reflexivity].
    destruct (H2 eq_refl) as [_ [sys' [Es' Hal]]]. rewrite Es'.
    unfold lift, bind at 1.
    rewrite (bind_Some _ _ _ _ _ (show_results_ok sys' _ Hal)).
    reflexivity.
Qed.

Lemma script_run_ok w s (h : Store) :
  session_ok s h ->
  exists s1 l, script_run w s h = Some (s1, h ++ l) /\ session_ok s1 (h ++ l).
Proof.
  intros Hok. unfold script_run.
  destruct (tab1_ok w s h Hok) as [s1 [l1 [E1 Hok1]]].
  rewrite (bind_Some _ _ _ _ _ E1).
  rewrite (bind_Some _ _ _ _ _ (tab2_ok s1 _ Hok1)).
  destruct (tab3_ok w s1 _ Hok1) as [s2 [l2 [E2 Hok2]]].
  exists s2, (l1 ++ l2). rewrite app_assoc. auto.
Qed.

Lemma script_runs_ok ws :
  forall s (h : Store),
    session_ok s h ->
    exists s1 l,
      script_runs ws s h = Some (s1, h ++ l) /\ session_ok s1 (h ++ l).
Proof.
  induction ws as [|w ws IH]; intros s h Hok; simpl.
  - exists s, []. rewrite app_nil_r. auto.
  - destruct (script_run_ok w s h Hok) as [s1 [l1 [E1 Hok1]]].
    rewrite (bind_Some _ _ _ _ _ E1).
    destruct (IH s1 _ Hok1) as [s2 [l2 [E2 Hok2]]].
    exists s2, (l1 ++ l2). rewrite app_assoc. auto.
Qed.

(** X14. Whatever the widgets return, over any number of runs of the script
    from the initial session state, no call on the system object and no read
    of one of its frames raises; and after the runs the flag analysis_run
    tells that the system of the session holds an analysis and a stock
    frame, and the flag allocation_run implies analysis_run and tells that
    this system holds a plan, the unfulfilled demands and the remaining
    stock. *)
Theorem session_never_reads_missing_frame ws :
  exists s h,
    script_runs ws initial_session [] = Some (s, h) /\ session_ok s h.
Proof.
  destruct (script_runs_ok ws initial_session []) as [s [l [E Hok]]].
  - split; simpl; discriminate.
  - exists s, l. auto.
Qed.

(* ------------------------------------------------------------------ *)
(** ** Priorities chosen among the options of the app *)

Lemma needy_channels_In analysis c :
  In c (needy_channels analysis) <->
  exists r, In r analysis /\ allocation_needed r = true /\
            Analysis.channel_id r = c.
Proof.
  unfold needy_channels. rewrite sort_values_In, nodup_In, in_map_iff.
  split; intros [r [H1 H2]]; exists r.
  - apply filter_In in H2. tauto.
  - split; [tauto|]. apply filter_In. tauto.
Qed.

Lemma needy_branches_In analysis b :
  In b (needy_branches analysis) <->
  exists r, In r analysis /\ allocation_needed r = true /\
            Analysis.branch_id r = b.
Proof.
  unfold needy_branches. rewrite sort_values_In, nodup_In, in_map_iff.
  split; intros [r [H1 H2]]; exists r.
  - apply filter_In in H2. tauto.
  - split; [tauto|]. apply filter_In. tauto.
Qed.

Lemma priority_rank_le_1 priority x :
  priority_rank priority x <= 1 -> In x priority.
Proof.
  intros H. destruct (in_dec Z.eq_dec x priority) as [Hin|Hout];
    [exact Hin|].
  rewrite (priority_rank_2 priority x Hout) in H. lia.
Qed.

(** The head of the sorted demand lines is below every demand line. *)
Lemma first_line_least pc pb analysis d0 rest d :
  sort_values demand_leb (demand_rows_of pc pb analysis) = d0 :: rest ->
  In d (demand_rows_of pc pb analysis) ->
  In d0 (demand_rows_of pc pb analysis) /\
  (d0 = d \/ demand_leb d0 d = true).
Proof.
  intros E Hd.
  assert (Hs : StronglySorted (fun a b => demand_leb a b = true)
                 (sort_values demand_leb (demand_rows_of pc pb analysis)))
    by (apply sort_values_strongly;
        [apply demand_leb_total | apply demand_leb_trans]).
  apply (sort_values_In demand_leb) in Hd. rewrite E in Hs, Hd.
  split.
  - apply (sort_values_In demand_leb). rewrite E. left. reflexivity.
  - inversion Hs as [|? ? _ Hall]; subst. rewrite Forall_forall in Hall.
    destruct Hd as [->|Hd]; [left; reflexivity | right; apply Hall; exact Hd].
Qed.

(** X15. When the priorities are chosen among the options that the app
    offers, they take effect at the head of the run: if some priority
    channel is chosen, the first demand line processed is of a priority
    channel; if none is chosen but some priority branch is, the first line
    processed is of a priority branch. *)
Theorem chosen_priorities_come_first pc pb rules today self h self' t h'
    analysis :
  run_allocation pc pb rules today self h = Some ((self', t), h') ->
  analysis_of self h = Some analysis ->
  incl pc (needy_channels analysis) ->
  incl pb (needy_branches analysis) ->
  (pc <> [] ->
   exists r, first_line t = Some r /\ In (Analysis.channel_id r) pc) /\
  (pc = [] -> pb <> [] ->
   exists r, first_line t = Some r /\ In (Analysis.branch_id r) pb).
Proof.
  intros Hrun Ha Hpc Hpb.
  destruct (run_allocation_inv _ _ _ _ _ _ _ _ _ Hrun)
    as [analysis' [stock [unf [Ha' [Hs [Hal _]]]]]].
  rewrite Ha in Ha'. inversion Ha'; subst analysis'. clear Ha'.
  destruct (allocate_inv _ _ _ _ _ _ _ _ _ Hal) as [Hlines _].
  apply run_lines_lines in Hlines.
  assert (Hfirst : forall d,
            In d (demand_rows_of pc pb analysis) ->
            exists d0, first_line t = Some (Demand.line d0) /\
              In d0 (demand_rows_of pc pb analysis) /\
              (d0 = d \/ demand_leb d0 d = true)).
  { intros d Hd. unfold first_line.
    destruct (processed t) as [|[d0 ds0] log] eqn:Ep; simpl in Hlines.
    - apply (sort_values_In demand_leb) in Hd. rewrite <- Hlines in Hd.
      contradiction.
    - exists d0. split; [reflexivity|].
      apply (first_line_least pc pb analysis d0 (map fst log) d);
        [symmetry; exact Hlines | exact Hd]. }
  split.
  - intros Hne. destruct pc as [|c pc']; [contradiction|].
    assert (Hc : In c (c :: pc')) by (left; reflexivity).
    destruct (proj1 (needy_channels_In analysis c) (Hpc c Hc))
      as [r [Hr [Hn Ec]]].
    destruct (demand_row_of_needed (c :: pc') pb analysis r Hr Hn)
      as [d [Hd El]].
    destruct (Hfirst d Hd) as [d0 [Ef [Hd0 Hle]]].
    exists (Demand.line d0). split; [exact Ef|].
    apply priority_rank_le_1.
    assert (H1 : priority_rank (c :: pc') (Analysis.channel_id (Demand.line d))
                 = 1)
      by (apply priority_rank_1; rewrite El, Ec; exact Hc).
    destruct Hle as [->|Hle]; [lia|].
    apply demand_leb_spec in Hle.
    rewrite (rank_key_demand _ _ _ _ Hd0), (rank_key_demand _ _ _ _ Hd) in Hle.
    simpl in Hle. lia.
  - intros -> Hne. destruct pb as [|b pb']; [contradiction|].
    assert (Hb : In b (b :: pb')) by (left; reflexivity).
    destruct (proj1 (needy_branches_In analysis b) (Hpb b Hb))
      as [r [Hr [Hn Eb]]].
    destruct (demand_row_of_needed [] (b :: pb') analysis r Hr Hn)
      as [d [Hd El]].
    destruct (Hfirst d Hd) as [d0 [Ef [Hd0 Hle]]].
    exists (Demand.line d0). split; [exact Ef|].
    apply priority_rank_le_1.
    assert (H1 : priority_rank (b :: pb') (Analysis.branch_id (Demand.line d))
                 = 1)
      by (apply priority_rank_1; rewrite El, Eb; exact Hb).
    destruct Hle as [->|Hle]; [lia|].
    apply demand_leb_spec in Hle.
    rewrite (rank_key_demand _ _ _ _ Hd0), (rank_key_demand _ _ _ _ Hd) in Hle.
    simpl in Hle.
    assert (E2 : forall y, priority_rank [] y = 2) by reflexivity.
    rewrite !E2 in Hle. lia.
Qed.

Lemma chosen_priorities_come_first_witness :
  ([2] <> [] ->
   exists r, first_line example_trace = Some r /\
             In (Analysis.channel_id r) [2]) /\
  ([2] = [] -> @nil Z <> [] ->
   exists r, first_line example_trace = Some r /\
             In (Analysis.branch_id r) []).
Proof.
  apply (chosen_priorities_come_first [2] [] [(1, 100)] 0
           example_analysed_system example_analysed_store
           example_allocated_system example_trace example_allocated_store
           example_analysis).
  - vm_compute. reflexivity.
  - vm_compute. reflexivity.
  - intros c [<-|[]]. vm_compute. tauto.
  - intros b [].
Defined.

(* ------------------------------------------------------------------ *)
(** ** The ten largest channels *)






(* ------------------------------------------------------------------ *)
(** ** No branch is left short while eligible stock remains *)













(* ------------------------------------------------------------------ *)
(** ** Products are allocated independently *)

Section SortFilter.
Context {A : Type} (leb : A -> A -> bool) (P : A -> bool).
Hypothesis leb_total : forall a b, leb a b = false -> leb b a = true.
Hypothesis leb_trans :
  forall a b c, leb a b = true -> leb b c = true -> leb a c = true.

Lemma insert_sorted_first x l :
  (forall y, In y l -> leb x y = true) -> insert_sorted leb x l = x :: l.
Proof using Type.
  destruct l as [|y l]; [reflexivity|]. intros H. simpl.
  rewrite (H y (or_introl eq_refl)). reflexivity.
Qed.

Lemma filter_insert_sorted x l :
  StronglySorted (fun a b => leb a b = true) l ->
  filter P (insert_sorted leb x l) =
  if P x then insert_sorted leb x (filter P l) else filter P l.
Proof using leb_trans.
  induction 1 as [|y l Hs IH Hy]; simpl.
  - destruct (P x); reflexivity.
  - rewrite Forall_forall in Hy. destruct (leb x y) eqn:E.
    + simpl. destruct (P x) eqn:Ex; [|reflexivity].
      symmetry. apply insert_sorted_first. intros z Hz.
      assert (Hz' : In z (y :: l)).
      { change (In z (filter P (y :: l))) in Hz. apply filter_In in Hz. tauto. }
      destruct Hz' as [<-|Hz']; [exact E|].
      apply (leb_trans x y z E). apply Hy. exact Hz'.
    + simpl. rewrite IH. destruct (P y) eqn:Ey, (P x) eqn:Ex; simpl;
        rewrite ?E; reflexivity.
Qed.

Lemma sort_values_filter l :
  filter P (sort_values leb l) = sort_values leb (filter P l).
Proof using leb_total leb_trans.
  induction l as [|x l IH]; [reflexivity|]. simpl.
  rewrite filter_insert_sorted
    by (apply sort_values_strongly; assumption).
  rewrite IH. destruct (P x); reflexivity.
Qed.
End SortFilter.

Lemma nodup_filter {A : Type} (dec : forall a b : A, {a = b} + {a <> b})
    (P : A -> bool) (l : list A) :
  nodup dec (filter P l) = filter P (nodup dec l).
Proof.
  induction l as [|x l IH]; [reflexivity|]. simpl.
  destruct (P x) eqn:Ex; simpl.
  - destruct (in_dec dec x (filter P l)) as [Hin|Hout],
             (in_dec dec x l) as [Hin'|Hout']; simpl; rewrite ?Ex, ?IH;
      try reflexivity.
    + exfalso. apply Hout'. apply filter_In in Hin. tauto.
    + exfalso. apply Hout. apply filter_In. auto.
  - destruct (in_dec dec x l); simpl; rewrite ?Ex; exact IH.
Qed.

Lemma filter_comm {A : Type} (f g : A -> bool) (l : list A) :
  filter f (filter g l) = filter g (filter f l).
Proof.
  rewrite !filter_filter. apply filter_ext. intros x. apply andb_comm.
Qed.

Lemma demand_rows_of_product p pc pb analysis :
  demand_rows_of pc pb (analysis_of_product p analysis)
  = filter (demand_of_product p) (demand_rows_of pc pb analysis).
Proof.
  unfold demand_rows_of, analysis_of_product.
  rewrite !filter_map_comm. rewrite filter_comm. reflexivity.
Qed.

Lemma cw_rows_of_product p cw stock :
  cw_rows_of cw (stock_of_product p stock)
  = stock_of_product p (cw_rows_of cw stock).
Proof.
  unfold cw_rows_of, stock_of_product.
  rewrite (sort_values_filter stock_leb _
             (fun a b => key2_leb_total _ _)
             (fun a b c => key2_leb_trans _ _ _)).
  rewrite filter_comm. reflexivity.
Qed.

Lemma group_values_of_product p (rows : list (key2 * Z)) k :
  fst k = p ->
  group_values key2_eq_dec k (filter (key_of_product p) rows)
  = group_values key2_eq_dec k rows.
Proof.
  intros Ek. unfold group_values. f_equal. rewrite filter_filter.
  apply filter_ext. intros [k' v]. unfold key_of_product, key_is. simpl.
  destruct (key2_eq_dec k' k) as [->|N]; [|apply andb_false_r].
  rewrite Ek, Z.eqb_refl. reflexivity.
Qed.

Lemma tracker_of_product p demand :
  tracker_of (filter (demand_of_product p) demand)
  = filter (key_of_product p) (tracker_of demand).
Proof.
  unfold tracker_of, groupby_first, groupby.
  set (rows := map (fun d => (demand_key d,
                              Analysis.branch_net_need (Demand.line d)))
                   demand).
  assert (Er : map (fun d => (demand_key d,
                              Analysis.branch_net_need (Demand.line d)))
                   (filter (demand_of_product p) demand)
               = filter (key_of_product p) rows)
    by (unfold rows; rewrite filter_map_comm; reflexivity).
  rewrite Er.
  rewrite !map_map. cbn [fst snd].
  assert (Ek : group_keys key2_eq_dec key2_leb (filter (key_of_product p) rows)
               = filter (fun k => fst k =? p)
                   (group_keys key2_eq_dec key2_leb rows)).
  { unfold group_keys.
    rewrite (sort_values_filter key2_leb _ key2_leb_total key2_leb_trans).
    rewrite <- nodup_filter. f_equal. f_equal.
    rewrite (filter_map_comm fst). reflexivity. }
  rewrite Ek, filter_map_comm. cbn [fst].
  apply map_ext_in. intros k Hk. apply filter_In in Hk.
  destruct Hk as [_ Hk]. apply Z.eqb_eq in Hk.
  rewrite (group_values_of_product p rows k Hk). reflexivity.
Qed.

Lemma branch_rows_of_product p k analysis :
  fst k = p ->
  branch_rows k (analysis_of_product p analysis) = branch_rows k analysis.
Proof.
  intros Ek. unfold branch_rows, analysis_of_product. rewrite filter_filter.
  apply filter_ext. intros r.
  destruct (Analysis.product_id r =? fst k) eqn:E; simpl.
  - apply Z.eqb_eq in E. rewrite E, Ek, Z.eqb_refl. reflexivity.
  - apply andb_false_r.
Qed.

Lemma unfulfilled_rows_of_product p analysis items :
  forall unf,
    unfulfilled_rows analysis items = Some unf ->
    unfulfilled_rows (analysis_of_product p analysis)
      (filter (key_of_product p) items)
    = Some (unfulfilled_of_product p unf).
Proof.
  induction items as [|[k v] items IH]; intros unf H; simpl in H.
  - inversion H. reflexivity.
  - simpl. unfold key_of_product at 1. cbn [fst].
    destruct (0 <? v) eqn:Ev.
    + destruct (iloc0 (map Analysis.branch_net_need (branch_rows k analysis)))
        as [need|] eqn:En; [|discriminate].
      destruct (unfulfilled_rows analysis items) as [rows|]; [|discriminate].
      inversion H; subst unf. clear H.
      unfold unfulfilled_of_product. simpl.
      destruct (fst k =? p) eqn:Ek.
      * simpl. rewrite Ev.
        rewrite (branch_rows_of_product p k analysis)
          by (apply Z.eqb_eq; exact Ek).
        rewrite En, (IH rows eq_refl). reflexivity.
      * apply (IH rows eq_refl).
    + destruct (fst k =? p) eqn:Ek; [simpl; rewrite Ev|]; apply IH; exact H.
Qed.

Lemma key_of_product_eq p (k : key2) (v : Z) :
  key_of_product p (k, v) = (fst k =? p).
Proof. reflexivity. Qed.

Lemma dict_get_of_product p (d : list (key2 * Z)) k :
  fst k = p ->
  dict_get key2_eqb (filter (key_of_product p) d) k 0 = dict_get key2_eqb d k 0.
Proof.
  intros Ek. induction d as [|[k' v] d IH]; [reflexivity|]. simpl.
  rewrite key_of_product_eq.
  destruct (fst k' =? p) eqn:E; simpl.
  - rewrite IH. reflexivity.
  - rewrite IH. destruct (key2_eqb k' k) eqn:E'; [|reflexivity].
    apply key2_eqb_eq in E'. subst k'. apply Z.eqb_neq in E. contradiction.
Qed.

Lemma dict_sub_of_product p (d d' : list (key2 * Z)) k x :
  fst k = p ->
  dict_sub key2_eqb d k x = Some d' ->
  dict_sub key2_eqb (filter (key_of_product p) d) k x
  = Some (filter (key_of_product p) d').
Proof.
  intros Ek. revert d'. induction d as [|[k' v] d IH]; intros d' H;
    simpl in H; [discriminate|].
  destruct (key2_eqb k' k) eqn:E'.
  - inversion H; subst d'. clear H. apply key2_eqb_eq in E'. subst k'.
    simpl. rewrite !key_of_product_eq, Ek, Z.eqb_refl. simpl.
    rewrite key2_eqb_refl. reflexivity.
  - destruct (dict_sub key2_eqb d k x) as [d1|]; [|discriminate].
    simpl in H. inversion H; subst d'. clear H.
    simpl. rewrite !key_of_product_eq.
    destruct (fst k' =? p); simpl; rewrite ?E', (IH d1 eq_refl); reflexivity.
Qed.

Lemma dict_sub_foreign p (d d' : list (key2 * Z)) k x :
  fst k <> p ->
  dict_sub key2_eqb d k x = Some d' ->
  filter (key_of_product p) d' = filter (key_of_product p) d.
Proof.
  intros Ek. revert d'. induction d as [|[k' v] d IH]; intros d' H;
    simpl in H; [discriminate|].
  destruct (key2_eqb k' k) eqn:E'.
  - inversion H; subst d'. clear H. apply key2_eqb_eq in E'. subst k'.
    simpl. rewrite !key_of_product_eq.
    destruct (fst k =? p) eqn:E; [|reflexivity].
    apply Z.eqb_eq in E. contradiction.
  - destruct (dict_sub key2_eqb d k x) as [d1|]; [|discriminate].
    simpl in H. inversion H; subst d'. clear H.
    simpl. rewrite !key_of_product_eq.
    destruct (fst k' =? p); rewrite (IH d1 eq_refl); reflexivity.
Qed.

Lemma eligible_of_product p req rows :
  filter (eligible p req) (stock_of_product p rows)
  = filter (eligible p req) rows.
Proof.
  unfold stock_of_product. rewrite filter_filter. apply filter_ext.
  intros b. unfold eligible.
  destruct (Stock.product_id (snd b) =? p); reflexivity.
Qed.

Lemma apply_draws_of_product p ds rows :
  stock_of_product p (apply_draws ds rows)
  = apply_draws ds (stock_of_product p rows).
Proof.
  rewrite !apply_draws_map. unfold stock_of_product.
  rewrite filter_map_comm. reflexivity.
Qed.

Lemma apply_draws_untouched ds rows :
  (forall b, In b rows -> drawn_from (fst b) ds = 0) ->
  apply_draws ds rows = rows.
Proof.
  intros H. rewrite apply_draws_map. rewrite <- (map_id rows) at 2.
  apply map_ext_in. intros [l s] Hb. cbn [fst snd].
  assert (E := H (l, s) Hb). cbn [fst] in E.
  rewrite E, Z.sub_0_r, set_stock_available_same. reflexivity.
Qed.

Lemma process_line_of_product p cw today rules rows row tracker t ds :
  demand_of_product p row = true ->
  process_line cw today rules rows row tracker = Some (t, ds) ->
  process_line cw today rules (stock_of_product p rows) row
    (filter (key_of_product p) tracker)
  = Some (filter (key_of_product p) t, ds).
Proof.
  intros Hp H. unfold demand_of_product in Hp. apply Z.eqb_eq in Hp.
  unfold process_line in *. cbv zeta in *.
  rewrite dict_get_of_product by exact Hp.
  destruct (dict_get key2_eqb tracker (demand_key row) 0 <=? 0).
  - inversion H; subst. reflexivity.
  - rewrite Hp in *. rewrite eligible_of_product.
    destruct (filter _ rows) as [|b0 bs].
    + inversion H; subst. reflexivity.
    + match type of H with
      | option_map _ (dict_sub _ _ _ ?x) = _ =>
          destruct (dict_sub key2_eqb tracker (demand_key row) x)
            as [t'|] eqn:Ed; [|discriminate]
      end.
      cbn [option_map] in H. injection H as <- <-.
      rewrite (dict_sub_of_product p tracker t' (demand_key row) _ Hp Ed).
      reflexivity.
Qed.

Lemma process_line_foreign p cw today rules rows row tracker t ds :
  demand_of_product p row = false ->
  NoDup (map fst rows) ->
  process_line cw today rules rows row tracker = Some (t, ds) ->
  filter (key_of_product p) t = filter (key_of_product p) tracker /\
  stock_of_product p (apply_draws ds rows) = stock_of_product p rows.
Proof.
  intros Hp Hnd H. unfold demand_of_product in Hp. apply Z.eqb_neq in Hp.
  apply process_line_cases in H.
  destruct H as [[-> ->]|[_ [qty [available [_ [Ha [_ [-> Ht]]]]]]]].
  - split; reflexivity.
  - split.
    + apply (dict_sub_foreign p tracker t (demand_key row) _ Hp Ht).
    + rewrite apply_draws_of_product. apply apply_draws_untouched.
      intros [l s] Hb. cbn [fst]. apply fefo_draws_other.
      intros Hin. apply in_map_iff in Hin. destruct Hin as [[l' s'] [El Hb']].
      simpl in El. subst l'. rewrite Ha in Hb'. apply filter_In in Hb'.
      destruct Hb' as [Hb' He]. apply eligible_spec in He.
      destruct He as [He _]. simpl in He.
      apply filter_In in Hb. destruct Hb as [Hb Hs]. simpl in Hs.
      apply Z.eqb_eq in Hs.
      assert (s = s') by (apply (NoDup_labels_unique rows l s s' Hnd Hb Hb')).
      subst s'. congruence.
Qed.

Lemma run_lines_of_product p cw today rules lines :
  forall rows tracker final log,
    NoDup (map fst rows) ->
    run_lines cw today rules rows lines tracker = Some (final, log) ->
    run_lines cw today rules (stock_of_product p rows)
      (filter (demand_of_product p) lines) (filter (key_of_product p) tracker)
    = Some (filter (key_of_product p) final,
            filter (fun e => demand_of_product p (fst e)) log) /\
    stock_of_product p (apply_draws (List.concat (map snd log)) rows)
    = apply_draws
        (List.concat
           (map snd (filter (fun e => demand_of_product p (fst e)) log)))
        (stock_of_product p rows).
Proof.
  induction lines as [|row lines IH]; intros rows tracker final log Hnd H;
    simpl in H.
  - inversion H; subst. split; reflexivity.
  - destruct (process_line cw today rules rows row tracker)
      as [[t1 ds1]|] eqn:Ep; [|discriminate].
    destruct (run_lines cw today rules (apply_draws ds1 rows) lines t1)
      as [[final' log']|] eqn:Er; [|discriminate].
    inversion H; subst final' log. clear H.
    assert (Hnd1 : NoDup (map fst (apply_draws ds1 rows)))
      by (rewrite apply_draws_labels; exact Hnd).
    destruct (IH _ _ _ _ Hnd1 Er) as [IH1 IH2].
    simpl. destruct (demand_of_product p row) eqn:Ed.
    + simpl.
      rewrite (process_line_of_product p _ _ _ _ _ _ _ _ Ed Ep).
      rewrite <- apply_draws_of_product, IH1. split; [reflexivity|].
      rewrite !apply_draws_app, IH2, apply_draws_of_product. reflexivity.
    + destruct (process_line_foreign p _ _ _ _ _ _ _ _ Ed Hnd Ep) as [Et Es].
      rewrite <- Et, <- Es, IH1. split; [reflexivity|].
      rewrite apply_draws_app, IH2. reflexivity.
Qed.

Lemma records_of_product p cw today rules
    (log : list (Demand.row * list Draw)) :
  (forall d ds, In (d, ds) log -> line_records cw today rules d ds) ->
  map record
    (List.concat (map snd (filter (fun e => demand_of_product p (fst e)) log)))
  = plan_of_product p (map record (List.concat (map snd log))).
Proof.
  induction log as [|[d ds] log IH]; intros H; [reflexivity|].
  assert (IH' := IH (fun d' ds' Hin => H d' ds' (or_intror Hin))).
  assert (Hd := H d ds (or_introl eq_refl)).
  unfold plan_of_product in *. simpl.
  rewrite map_app, filter_app, <- IH'. unfold demand_of_product at 1.
  cbn [fst].
  assert (E : filter (fun a => Alloc.product_id a =? p) (map record ds)
              = if Analysis.product_id (Demand.line d) =? p
                then map record ds else []).
  { clear -Hd. induction ds as [|x ds IHd].
    - destruct (_ =? p); reflexivity.
    - assert (Hx := Hd x (or_introl eq_refl)). destruct Hx as [Ex _].
      assert (IHd' := IHd (fun y Hy => Hd y (or_intror Hy))).
      simpl. rewrite Ex, IHd'.
      destruct (Analysis.product_id (Demand.line d) =? p); reflexivity. }
  rewrite E.
  destruct (Analysis.product_id (Demand.line d) =? p); simpl;
    [rewrite map_app|]; reflexivity.
Qed.

Lemma allocate_of_product p pc pb rules today cw analysis stock t unf :
  allocate pc pb rules today cw analysis stock = Some (t, unf) ->
  NoDup (map fst stock) ->
  exists tp,
    allocate pc pb rules today cw (analysis_of_product p analysis)
      (stock_of_product p stock)
    = Some (tp, unfulfilled_of_product p unf) /\
    map record (all_draws tp) = plan_of_product p (map record (all_draws t)) /\
    positive_stock (cw_rows_after cw (stock_of_product p stock) tp)
    = stock_of_product p (positive_stock (cw_rows_after cw stock t)).
Proof.
  intros Hal Hnd.
  destruct (allocate_inv _ _ _ _ _ _ _ _ _ Hal) as [Hlines Hunf].
  destruct (run_lines_of_product p _ _ _ _ _ _ _ _
              (cw_rows_NoDup cw stock Hnd) Hlines) as [Hp Hrows].
  exists (mkTrace (filter (fun e => demand_of_product p (fst e)) (processed t))
                  (filter (key_of_product p) (branch_need_tracker t))).
  split; [|split].
  - unfold allocate.
    rewrite demand_rows_of_product, cw_rows_of_product, tracker_of_product.
    rewrite <- (sort_values_filter demand_leb _ demand_leb_total
                  demand_leb_trans).
    rewrite Hp.
    rewrite (unfulfilled_rows_of_product p _ _ _ Hunf). reflexivity.
  - unfold all_draws. cbn [processed].
    apply (records_of_product p cw today rules).
    intros d ds. apply (run_lines_records _ _ _ _ _ _ _ _ _ _ Hlines).
  - unfold cw_rows_after, all_draws. cbn [processed].
    rewrite cw_rows_of_product, <- Hrows.
    unfold positive_stock, stock_of_product. apply filter_comm.
Qed.

(** X18. Products are allocated independently.  When the stock frame has
    distinct index labels, a run on the rows of one product only, of the
    analysis table and of the stock frame, gives exactly the records of the
    plan, the unfulfilled demands and the remaining stock that the run on
    the whole frames gives for that product. *)
Theorem products_allocated_independently pc pb rules today p
    self h self' t h' selfp hp analysis stock plan unf remaining :
  run_allocation pc pb rules today self h = Some ((self', t), h') ->
  analysis_of self h = Some analysis ->
  stock_of self h = Some stock ->
  plan_of self' h' = Some plan ->
  unfulfilled_of self' h' = Some unf ->
  remaining_of self' h' = Some remaining ->
  NoDup (map fst stock) ->
  cw_branch_id selfp = cw_branch_id self ->
  analysis_of selfp hp = Some (analysis_of_product p analysis) ->
  stock_of selfp hp = Some (stock_of_product p stock) ->
  exists selfp' tp hp',
    run_allocation pc pb rules today selfp hp = Some ((selfp', tp), hp') /\
    plan_of selfp' hp' = Some (plan_of_product p plan) /\
    unfulfilled_of selfp' hp' = Some (unfulfilled_of_product p unf) /\
    remaining_of selfp' hp' = Some (stock_of_product p remaining).
Proof.
  intros Hrun Ha Hs Hp Hu Hr Hnd Hcw Hap Hsp.
  destruct (run_allocation_inv _ _ _ _ _ _ _ _ _ Hrun)
    as [analysis' [stock' [unf' [Ha' [Hs' [Hal [-> ->]]]]]]].
  rewrite Ha in Ha'. inversion Ha'; subst analysis'. clear Ha'.
  rewrite Hs in Hs'. inversion Hs'; subst stock'. clear Hs'.
  rewrite plan_of_result in Hp. inversion Hp; subst plan. clear Hp.
  rewrite unfulfilled_of_result in Hu. inversion Hu; subst unf'. clear Hu.
  rewrite remaining_of_result in Hr. inversion Hr; subst remaining. clear Hr.
  destruct (allocate_of_product p _ _ _ _ _ _ _ _ _ Hal Hnd)
    as [tp [Halp [Eplan Erem]]].
  assert (Hrunp := run_allocation_run pc pb rules today selfp hp _ _ Hap Hsp).
  cbv zeta in Hrunp. rewrite Hcw, Halp in Hrunp.
  eexists. exists tp. eexists. split; [exact Hrunp|].
  rewrite plan_of_result, unfulfilled_of_result, remaining_of_result.
  rewrite Eplan, Erem. auto.
Qed.

Lemma products_allocated_independently_witness :
  exists selfp' tp hp',
    run_allocation [2] [] [(1, 100)] 0
      example_system_product example_store_product
    = Some ((selfp', tp), hp') /\
    plan_of selfp' hp' = Some (plan_of_product 2 example_plan) /\
    unfulfilled_of selfp' hp'
    = Some (unfulfilled_of_product 2 example_unfulfilled) /\
    remaining_of selfp' hp' = Some (stock_of_product 2 example_remaining).
Proof.
  apply (products_allocated_independently [2] [] [(1, 100)] 0 2
           example_analysed_system example_analysed_store
           example_allocated_system example_trace example_allocated_store
           example_system_product example_store_product
           example_analysis example_stock).
  - vm_compute. reflexivity.
  - vm_compute. reflexivity.
  - vm_compute. reflexivity.
  - vm_compute. reflexivity.
  - vm_compute. reflexivity.
  - vm_compute. reflexivity.
  - simpl. repeat constructor; simpl; intuition discriminate.
  - reflexivity.
  - vm_compute. reflexivity.
  - vm_compute. reflexivity.
Defined.
